(** * Neon Rain: the session and game-state engine

    A shallow embedding of the backend services of the Neon Rain hacking
    simulation (the virtual filesystem engine, the security AI, the puzzle
    engine and the session manager), followed by theorems about them.

    Conventions of the embedding.
    - A JavaScript string is the list of its UTF-16 code units ([list N]);
      [js "..."] writes a literal.
    - An object used as a dictionary of children is an association list in
      enumeration order; a property read is a first-match lookup.  A read
      of a name that [Object.prototype] defines and the dictionary does not
      hold gives a built-in in JavaScript, which is no node: such reads are
      outside the model, and [inherited] delimits them.
    - A [Set] of strings is a [gset]; a [Map] of sessions is the list of its
      values in insertion order, each stored under its own [id].
    - A method that mutates its session is a function from the state to an
      outcome and the state it leaves behind; [throw] keeps every mutation done
      before it, as an exception does.
    - Database writes, timestamps and socket traffic are not part of the
      state. *)

From Stdlib Require Import ZArith NArith List Bool Ascii String Lia.
From stdpp Require Import base decidable option list gmap.

Local Open Scope Z_scope.

Set Warnings "-register-all,-clear-no-such-hyp".

(** ** JavaScript built-ins used by the services *)

Module JS.

Definition js (s : string) : list N :=
  List.map N_of_ascii (list_ascii_of_string s).

Arguments js : simpl never.

Definition slash : N := 47%N.

(** [s.startsWith(p)] *)
Fixpoint startsWith (s p : list N) {struct p} : bool :=
  match p with
  | [] => true
  | a :: p' =>
      match s with
      | [] => false
      | b :: s' => N.eqb a b && startsWith s' p'
      end
  end.

(** [s.split(sep)] for a one-character separator. *)
Fixpoint split (sep : N) (s : list N) : list (list N) :=
  match s with
  | [] => [[]]
  | c :: s' =>
      if N.eqb c sep then [] :: split sep s'
      else match split sep s' with
           | [] => [[c]]
           | w :: ws => (c :: w) :: ws
           end
  end.

(** [parts.join(sep)] *)
Fixpoint join (sep : list N) (parts : list (list N)) : list N :=
  match parts with
  | [] => []
  | p :: ps =>
      match ps with
      | [] => p
      | _ :: _ => p ++ sep ++ join sep ps
      end
  end.

(** Truthiness of a string: [filter(p => p)] keeps the non-empty ones. *)
Definition truthy (s : list N) : bool :=
  match s with [] => false | _ :: _ => true end.

(** [s.includes(sub)] *)
Fixpoint includes (s sub : list N) : bool :=
  startsWith s sub ||
  match s with
  | [] => false
  | _ :: s' => includes s' sub
  end.

(** [s.replace(p, "")] for a string pattern: the first occurrence goes. *)
Fixpoint replace_first (s p : list N) : list N :=
  if startsWith s p then drop (length p) s
  else match s with
       | [] => []
       | c :: s' => c :: replace_first s' p
       end.

(** Line terminators: the characters [.] of a regular expression skips. *)
Definition isLineTerminator (c : N) : bool :=
  (N.eqb c 10 || N.eqb c 13 || N.eqb c 8232 || N.eqb c 8233)%N.

(** White space and line terminators, as [trim] and [parseInt] strip. *)
Definition isWhiteSpace (c : N) : bool :=
  (isLineTerminator c
   || N.eqb c 9 || N.eqb c 11 || N.eqb c 12 || N.eqb c 32 || N.eqb c 160
   || N.eqb c 5760 || (N.leb 8192 c && N.leb c 8202)
   || N.eqb c 8239 || N.eqb c 8287 || N.eqb c 12288 || N.eqb c 65279)%N.

Fixpoint trimStart (s : list N) : list N :=
  match s with
  | [] => []
  | c :: s' => if isWhiteSpace c then trimStart s' else s
  end.

Definition trim (s : list N) : list N :=
  rev (trimStart (rev (trimStart s))).

(** [hexData.match(/.{2}/g)]: successive pairs of characters none of which
    is a line terminator; an attempt that fails moves one character on. *)
Fixpoint match_pairs (s : list N) : list (list N) :=
  match s with
  | a :: tl =>
      match tl with
      | b :: rest =>
          if isLineTerminator a then match_pairs tl
          else if isLineTerminator b then match_pairs rest
          else [a; b] :: match_pairs rest
      | [] => []
      end
  | [] => []
  end.

(** The value of a digit in the given radix, if it is one. *)
Definition digitValue (radix : Z) (c : N) : option Z :=
  let c := Z.of_N c in
  let v := if (48 <=? c) && (c <=? 57) then Some (c - 48)
           else if (97 <=? c) && (c <=? 122) then Some (c - 87)
           else if (65 <=? c) && (c <=? 90) then Some (c - 55)
           else None in
  match v with
  | Some d => if d <? radix then Some d else None
  | None => None
  end.

(** The longest prefix of digits, read most significant first. *)
Fixpoint readDigits (radix : Z) (acc : option Z) (s : list N) : option Z :=
  match s with
  | [] => acc
  | c :: s' =>
      match digitValue radix c with
      | Some d => readDigits radix (Some (default 0 acc * radix + d)) s'
      | None => acc
      end
  end.

(** The Number nearest to an integer (ties to even); [None] is an
    infinity. *)
Definition toNumber (z : Z) : option Z :=
  let a := Z.abs z in
  if a <? 2 ^ 53 then Some z
  else
    let e := Z.log2 a - 52 in
    let q := a / 2 ^ e in
    let r := a mod 2 ^ e in
    let half := 2 ^ (e - 1) in
    let q' := if r <? half then q
              else if half <? r then q + 1
              else if Z.even q then q else q + 1 in
    let m := q' * 2 ^ e in
    if 2 ^ 1024 <=? m then None else Some (Z.sgn z * m).

(** What [parseInt] returns. *)
Inductive Number :=
| NaN
| Infinity
| Int (z : Z).

(** [parseInt(s, radix)] for radix 10 or 16. *)
Definition parseInt (s : list N) (radix : Z) : Number :=
  let s := trimStart s in
  let '(sign, s) :=
    match s with
    | c :: s' => if N.eqb c 45 then (-1, s')
                 else if N.eqb c 43 then (1, s') else (1, s)
    | [] => (1, s)
    end in
  let s :=
    if radix =? 16 then
      match s with
      | z :: x :: s' =>
          if N.eqb z 48 && (N.eqb x 120 || N.eqb x 88) then s' else s
      | _ => s
      end
    else s in
  match readDigits radix None s with
  | None => NaN
  | Some n =>
      match toNumber (sign * n) with
      | Some v => Int v
      | None => Infinity
      end
  end.

Definition isNaN (n : Number) : bool :=
  match n with NaN => true | _ => false end.

(** [ToInt32]: not-a-number and the infinities become 0. *)
Definition toInt32 (n : Number) : Z :=
  match n with
  | Int z => (z + 2 ^ 31) mod 2 ^ 32 - 2 ^ 31
  | _ => 0
  end.

(** [a ^ b] *)
Definition bitxor (a b : Number) : Z := Z.lxor (toInt32 a) (toInt32 b).

(** [String.fromCharCode(n)]: one code unit, [n] modulo 2^16. *)
Definition fromCharCode (n : Z) : N := Z.to_N (n mod 2 ^ 16).

(** Decimal digits of a natural number, least significant first. *)
Fixpoint digitsRev (fuel : nat) (n : N) : list N :=
  match fuel with
  | O => []
  | S fuel' =>
      (48 + n mod 10)%N ::
      (if (n <? 10)%N then [] else digitsRev fuel' (n / 10)%N)
  end.

(** [String(z)] for an integer. *)
Definition toString (z : Z) : list N :=
  let n := Z.to_N (Z.abs z) in
  let ds := rev (digitsRev (S (N.to_nat (N.log2 n))) n) in
  if z <? 0 then 45%N :: ds else ds.

(** The Numbers the security AI computes with.  The engine starts at 0
    and adds and subtracts integers, so a level is an integer, or NaN,
    which is what arithmetic on [undefined] or on a value that is not
    numeric gives; fractions are not represented. *)
Inductive Num :=
| NotANumber
| Whole (z : Z).

Coercion Whole : Z >-> Num.

(** [a + b] *)
Definition num_add (a b : Num) : Num :=
  match a, b with
  | Whole x, Whole y => Whole (x + y)
  | _, _ => NotANumber
  end.

(** [a - b] *)
Definition num_sub (a b : Num) : Num :=
  match a, b with
  | Whole x, Whole y => Whole (x - y)
  | _, _ => NotANumber
  end.

(** [a * b] *)
Definition num_mul (a b : Num) : Num :=
  match a, b with
  | Whole x, Whole y => Whole (x * y)
  | _, _ => NotANumber
  end.

(** [Math.min(a, b)]: NaN when either argument is. *)
Definition Math_min (a b : Num) : Num :=
  match a, b with
  | Whole x, Whole y => Whole (Z.min x y)
  | _, _ => NotANumber
  end.

(** [Math.max(a, b)]: NaN when either argument is. *)
Definition Math_max (a b : Num) : Num :=
  match a, b with
  | Whole x, Whole y => Whole (Z.max x y)
  | _, _ => NotANumber
  end.

(** [a <= b]: false when either side is NaN. *)
Definition num_leb (a b : Num) : bool :=
  match a, b with
  | Whole x, Whole y => x <=? y
  | _, _ => false
  end.

(** [String(a)] *)
Definition num_toString (a : Num) : list N :=
  match a with
  | Whole z => toString z
  | NotANumber => js "NaN"
  end.

Declare Scope num_scope.
Delimit Scope num_scope with num.
Notation "a + b" := (num_add a b) : num_scope.
Notation "a - b" := (num_sub a b) : num_scope.
Notation "a * b" := (num_mul a b) : num_scope.
Notation "a <=? b" := (num_leb a b) : num_scope.

End JS.

Import JS.

(** ** Data model *)

(** Node metadata.  A missing [meta] object reads the same as one with every
    flag unset, so it is represented by [emptyMeta]. *)
Record Meta := mkMeta {
  locked : bool;
  encrypted : bool;
  decrypted : bool;
  securityFile : bool;
  unlocksPaths : option (list (list N));
  targetUsers : option (list Z)
}.

Definition emptyMeta : Meta :=
  {| locked := false; encrypted := false; decrypted := false;
     securityFile := false; unlocksPaths := None; targetUsers := None |}.

(** A filesystem node.  A directory without a [children] object is the one
    with no child. *)
Inductive Node :=
| File (contents : list N) (meta : Meta)
| Dir (children : list (list N * Node)) (meta : Meta).

Definition nodeMeta (n : Node) : Meta :=
  match n with
  | File _ m => m
  | Dir _ m => m
  end.

Definition isDir (n : Node) : bool :=
  match n with Dir _ _ => true | File _ _ => false end.

(** The property names of [Object.prototype].  Read on a plain object,
    each gives the inherited built-in unless the object has an entry of
    its own under the name. *)
Definition objectPrototype : list (list N) :=
  [ js "constructor"; js "__defineGetter__"; js "__defineSetter__";
    js "hasOwnProperty"; js "__lookupGetter__"; js "__lookupSetter__";
    js "isPrototypeOf"; js "propertyIsEnumerable"; js "toString";
    js "valueOf"; js "__proto__"; js "toLocaleString" ].

Definition inherited (name : list N) : bool :=
  existsb (fun k => bool_decide (k = name)) objectPrototype.

(** [children[name]], for a name the dictionary holds or one that is not
    [inherited]: the entry of the dictionary under the name, if any. *)
Fixpoint getChild (name : list N) (ch : list (list N * Node)) : option Node :=
  match ch with
  | [] => None
  | (k, v) :: ch' => if decide (k = name) then Some v else getChild name ch'
  end.

(** [children[name] = node]: an existing key keeps its place and a new
    one goes last.  (JavaScript enumerates keys that are array indices
    before the others; the order of the model is that of keys that are
    not.) *)
Fixpoint setChild (name : list N) (node : Node) (ch : list (list N * Node))
  : list (list N * Node) :=
  match ch with
  | [] => [(name, node)]
  | (k, v) :: ch' =>
      if decide (k = name) then (k, node) :: ch'
      else (k, v) :: setChild name node ch'
  end.

(** [delete children[name]] *)
Fixpoint deleteChild (name : list N) (ch : list (list N * Node))
  : list (list N * Node) :=
  match ch with
  | [] => []
  | (k, v) :: ch' =>
      if decide (k = name) then deleteChild name ch'
      else (k, v) :: deleteChild name ch'
  end.

(** The node object a child holds is changed in place. *)
Fixpoint updateChild (name : list N) (f : Node -> Node)
  (ch : list (list N * Node)) : list (list N * Node) :=
  match ch with
  | [] => []
  | (k, v) :: ch' =>
      if decide (k = name) then (k, f v) :: ch'
      else (k, v) :: updateChild name f ch'
  end.

(** The security AI of a session. *)
Record Challenge := mkChallenge {
  question : list N;
  answer : list N
}.

Record AIState := mkAIState {
  level : Num;
  status : list N;
  challenge : option Challenge
}.

(** What a delete leaves on [session.meta] for the server to pick up. *)
Record SessionMeta := mkSessionMeta {
  recentlyUnlockedSessions : list (list N);
  recentlyUnlockedPaths : list (list N)
}.

Record Session := mkSession {
  id : list N;
  userId : Z;
  username : list N;
  fs : Node;
  currentPath : list N;
  puzzleState : gmap (list N) bool;
  aiState : AIState;
  frozen : bool;
  waitingRoom : bool;
  roundStarted : bool;
  unlockedPaths : option (gset (list N));
  sessionMeta : option SessionMeta
}.

Definition set_fs (f : Node -> Node) (s : Session) : Session :=
  {| id := id s; userId := userId s; username := username s; fs := f (fs s);
     currentPath := currentPath s; puzzleState := puzzleState s;
     aiState := aiState s; frozen := frozen s; waitingRoom := waitingRoom s;
     roundStarted := roundStarted s; unlockedPaths := unlockedPaths s;
     sessionMeta := sessionMeta s |}.

Definition set_currentPath (p : list N) (s : Session) : Session :=
  {| id := id s; userId := userId s; username := username s; fs := fs s;
     currentPath := p; puzzleState := puzzleState s;
     aiState := aiState s; frozen := frozen s; waitingRoom := waitingRoom s;
     roundStarted := roundStarted s; unlockedPaths := unlockedPaths s;
     sessionMeta := sessionMeta s |}.

Definition set_puzzleState (f : gmap (list N) bool -> gmap (list N) bool)
  (s : Session) : Session :=
  {| id := id s; userId := userId s; username := username s; fs := fs s;
     currentPath := currentPath s; puzzleState := f (puzzleState s);
     aiState := aiState s; frozen := frozen s; waitingRoom := waitingRoom s;
     roundStarted := roundStarted s; unlockedPaths := unlockedPaths s;
     sessionMeta := sessionMeta s |}.

Definition set_aiState (f : AIState -> AIState) (s : Session) : Session :=
  {| id := id s; userId := userId s; username := username s; fs := fs s;
     currentPath := currentPath s; puzzleState := puzzleState s;
     aiState := f (aiState s); frozen := frozen s; waitingRoom := waitingRoom s;
     roundStarted := roundStarted s; unlockedPaths := unlockedPaths s;
     sessionMeta := sessionMeta s |}.

Definition set_unlockedPaths (u : option (gset (list N))) (s : Session)
  : Session :=
  {| id := id s; userId := userId s; username := username s; fs := fs s;
     currentPath := currentPath s; puzzleState := puzzleState s;
     aiState := aiState s; frozen := frozen s; waitingRoom := waitingRoom s;
     roundStarted := roundStarted s; unlockedPaths := u;
     sessionMeta := sessionMeta s |}.

Definition set_sessionMeta (m : option SessionMeta) (s : Session) : Session :=
  {| id := id s; userId := userId s; username := username s; fs := fs s;
     currentPath := currentPath s; puzzleState := puzzleState s;
     aiState := aiState s; frozen := frozen s; waitingRoom := waitingRoom s;
     roundStarted := roundStarted s; unlockedPaths := unlockedPaths s;
     sessionMeta := m |}.

(** ** Exceptions and the state they leave *)

(** The errors the services throw, each with the value its message quotes. *)
Inductive Error :=
| NoSuchFileOrDirectory (path : list N)
| NoSuchFile (path : list N)
| NoSuchDirectory (path : list N)
| NotADirectory (path : list N)
| NotAFile (path : list N)
| PermissionDenied (path : list N)
| FileNotEncrypted (path : list N)
| InvalidKeyFormat
| UnsupportedEncryptionFormat
| InvalidDirectory (path : list N)
| InvalidParentDirectory (path : list N)
| AlreadyExists (name : list N)
| AlreadyExistsInTarget (name : list N)
| TargetNotADirectory (path : list N)
| InvalidSourceParent (path : list N)
| InvalidRegExp (pattern : list N)
| SessionNotFound
| RootRelinked.

Inductive Res (A : Type) :=
| Ok (a : A)
| Throw (e : Error).

Arguments Ok {A} a.
Arguments Throw {A} e.

(** A computation over a mutable state [St]. *)
Definition M (St A : Type) : Type := St -> Res A * St.

Definition ret {St A} (a : A) : M St A := fun s => (Ok a, s).

Definition throw {St A} (e : Error) : M St A := fun s => (Throw e, s).

Definition bind {St A B} (c : M St A) (k : A -> M St B) : M St B :=
  fun s =>
    match c s with
    | (Ok a, s') => k a s'
    | (Throw e, s') => (Throw e, s')
    end.

Definition get {St} : M St St := fun s => (Ok s, s).

Definition modify {St} (f : St -> St) : M St unit := fun s => (Ok tt, f s).

(** A computation that only reads the state. *)
Definition pure_of {St A} (f : St -> Res A) : M St A := fun s => (f s, s).

Notation "'let*' x ':=' c 'in' k" := (bind c (fun x => k))
  (at level 10, x name, c at level 100, k at level 200).

(** [for (const x of xs) body(x)] *)
Fixpoint forEach {St A} (xs : list A) (body : A -> M St unit) : M St unit :=
  match xs with
  | [] => ret tt
  | x :: xs' => let* _ := body x in forEach xs' body
  end.

(** The error classes of the design. *)
Definition isPermissionDenied (e : Error) : bool :=
  match e with PermissionDenied _ => true | _ => false end.

Definition isConflict (e : Error) : bool :=
  match e with AlreadyExists _ | AlreadyExistsInTarget _ => true | _ => false end.

(** ** The security AI (aiEngine.js) *)

Module AIEngine.

(** What [sendMessage] builds, with the [shouldLogout] flag the caller may
    add; an absent flag reads as [false]. *)
Record Response := mkResponse {
  type : list N;
  message : list N;
  shouldLogout : bool
}.

Definition sendMessage (message : list N) : Response :=
  {| type := js "ai_message"; message := message; shouldLogout := false |}.

Definition set_level (l : Num) (st : AIState) : AIState :=
  {| level := l; status := status st; challenge := challenge st |}.

Definition set_status (s : list N) (st : AIState) : AIState :=
  {| level := level st; status := s; challenge := challenge st |}.

Definition set_challenge (c : option Challenge) (st : AIState) : AIState :=
  {| level := level st; status := status st; challenge := c |}.

Definition lockdownText : list N :=
  js "[SECURITY] CRITICAL: Trace complete. Identity compromised." ++ [10%N]
  ++ js "[SECURITY] Initiating emergency lockdown protocol..." ++ [10%N]
  ++ js "[SECURITY] Terminal access will be terminated.".

(** [trigger(session, eventType, data)] on [session.aiState]; [rnd] is
    [Math.floor(Math.random() * 20)]. *)
Definition trigger (rnd : Z) (eventType : list N)
  : M AIState (option Response) :=
  if decide (eventType = js "suspicious_command") then
    let* _ := modify (fun st =>
      set_level (Math_min (level st + 2)%num 10) st) in
    let* _ := modify (fun st =>
      if decide (status st = js "idle") then set_status (js "probing") st
      else st) in
    let* st := get in
    let baseTrace := (level st * 10)%num in
    let randomVariation := rnd - 10 in
    let tracePercent :=
      Math_max 0 (Math_min 100 (baseTrace + randomVariation)%num) in
    if (10 <=? level st)%num then
      let* _ := modify (set_status (js "alarm")) in
      ret (Some {| type := js "ai_message"; message := lockdownText;
                   shouldLogout := true |})
    else
      let* _ := modify (fun st =>
        if (5 <=? level st)%num && bool_decide (status st = js "probing")
        then set_status (js "alarm") st else st) in
      ret (Some (sendMessage
        (js "[SECURITY] Unauthorized access attempt detected. Trace: "
         ++ num_toString tracePercent ++ js "%")))
  else if decide (eventType = js "failed_puzzle") then
    let* _ := modify (fun st =>
      set_level (Math_min (level st + 1)%num 10) st) in
    let* _ := modify (fun st =>
      if (5 <=? level st)%num && bool_decide (status st = js "probing")
      then set_status (js "alarm") st else st) in
    ret (Some (sendMessage
      (js "[SECURITY] Failed authentication detected. Security level increased.")))
  else if decide (eventType = js "admin_escalate") then
    let* _ := modify (fun st =>
      set_level (Math_min (level st + 3)%num 10) st) in
    let* _ := modify (set_status (js "alarm")) in
    ret (Some (sendMessage
      (js "[SECURITY] CRITICAL ALERT: System integrity compromised. Initiating countermeasures...")))
  else ret None.

Definition getState (s : Session) : AIState := aiState s.




Section Validate.

(** [String.prototype.toLowerCase], a parameter of the model. *)
Variable toLowerCase : list N -> list N.

(** [validateChallenge(session, answer)]: [None] is the [false] returned
    without a challenge, otherwise the [success] field. *)
Definition validateChallenge (ans : list N) : M AIState (option bool) :=
  let* st := get in
  match challenge st with
  | None => ret None
  | Some c =>
      let correct :=
        bool_decide (toLowerCase (trim ans) = toLowerCase (answer c)) in
      if correct then
        let* _ := modify (fun st =>
          set_level (Math_max 0 (level st - 2)%num) st) in
        let* _ := modify (fun st =>
          if (level st <=? 2)%num then set_status (js "idle") st else st) in
        let* _ := modify (set_challenge None) in
        ret (Some true)
      else
        let* _ := modify (fun st =>
          set_level (Math_min (level st + 1)%num 10) st) in
        ret (Some false)
  end.

End Validate.

End AIEngine.


(** ** The session manager (sessionManager.js) *)

Module SessionManager.

(** [getSession(sessionId)] *)
Fixpoint getSession (sessions : list Session) (sessionId : list N)
  : option Session :=
  match sessions with
  | [] => None
  | s :: rest =>
      if decide (id s = sessionId) then Some s else getSession rest sessionId
  end.

(** The ids of [getAllSessions()], the one field its callers here read. *)
Definition getAllSessions (sessions : list Session) : list (list N) :=
  List.map id sessions.

(** The session object stored under [sessionId] is changed in place. *)
Fixpoint updateSession (sessionId : list N) (f : Session -> Session)
  (sessions : list Session) : list Session :=
  match sessions with
  | [] => []
  | s :: rest =>
      if decide (id s = sessionId) then f s :: rest
      else s :: updateSession sessionId f rest
  end.

(** [createSession(userId, username)]; [sessionId] is the fresh UUID and
    [campaignSeed] the template, which [cloneFS] copies. *)
Definition createSession (sessionId : list N) (campaignSeed : Node)
  (userId : Z) (username : list N) : M (list Session) Session :=
  let filesystem := campaignSeed in
  let userAccessPoint := Z.rem userId 4 in
  let accessPointNum := userAccessPoint + 1 in
  let branch := js "/server_room/access_point_" ++ toString accessPointNum in
  let initialUnlockedPaths := [ js "/"; js "/server_room"; branch ] in
  let session :=
    {| id := sessionId; userId := userId; username := username;
       fs := filesystem; currentPath := branch;
       puzzleState := ∅;
       aiState := {| level := 0; status := js "idle"; challenge := None |};
       frozen := false; waitingRoom := true; roundStarted := false;
       unlockedPaths := Some (list_to_set initialUnlockedPaths);
       sessionMeta := None |} in
  let* _ := modify (fun sessions =>
    match getSession sessions sessionId with
    | Some _ => updateSession sessionId (fun _ => session) sessions
    | None => sessions ++ [session]
    end) in
  ret session.

(** The manager object: its map of sessions and the global round flag. *)
Record Manager := mkManager {
sessions : list Session;
globalRoundStarted : bool
}.

Definition set_round (waiting started : bool) (s : Session) : Session :=
{| id := id s; userId := userId s; username := username s; fs := fs s;
   currentPath := currentPath s; puzzleState := puzzleState s;
   aiState := aiState s; frozen := frozen s; waitingRoom := waiting;
   roundStarted := started; unlockedPaths := unlockedPaths s;
   sessionMeta := sessionMeta s |}.

(** [startRound()]: every session object is changed in place; the count
    of sessions is returned. *)
Definition startRound : M Manager nat :=
let* _ := modify (fun m =>
  {| sessions := sessions m; globalRoundStarted := true |}) in
let* _ := modify (fun m =>
  {| sessions := List.map (set_round false true) (sessions m);
     globalRoundStarted := globalRoundStarted m |}) in
let* m := get in
ret (length (sessions m)).

(** [endRound()] *)
Definition endRound : M Manager nat :=
let* _ := modify (fun m =>
  {| sessions := sessions m; globalRoundStarted := false |}) in
let* _ := modify (fun m =>
  {| sessions := List.map (set_round true false) (sessions m);
     globalRoundStarted := globalRoundStarted m |}) in
let* m := get in
ret (length (sessions m)).

(** [getGlobalRoundStatus()] *)
Definition getGlobalRoundStatus (m : Manager) : bool := globalRoundStarted m.

(** [getSessionsByUser(userId)]: the sessions stand for the summaries the
    method builds from them. *)
Definition getSessionsByUser (all : list Session) (user : Z) : list Session :=
List.filter (fun s => bool_decide (userId s = user)) all.

(** [destroySession(sessionId)]: the entry under the id leaves the map. *)
Definition destroySession (sessionId : list N) : M (list Session) unit :=
modify (List.filter (fun s => negb (bool_decide (id s = sessionId)))).

(** An entry of [session.commandHistory], without its timestamp. *)
Record HistoryEntry := mkHistoryEntry {
h_command : list N;
h_output : list N
}.

(** What [logCommand(sessionId, command, output)] does to the
    [commandHistory] array of the session it finds. *)
Definition logCommand (command output : list N)
  (commandHistory : list HistoryEntry) : list HistoryEntry :=
let pushed :=
  commandHistory ++ [ {| h_command := command; h_output := output |} ] in
if (100 <? length pushed)%nat then tail pushed else pushed.

End SessionManager.

(** ** The virtual filesystem engine (vfsEngine.js) *)

Module VFSEngine.

(** [path.split('/').filter(p => p)] *)
Definition segments (path : list N) : list (list N) :=
  List.filter truthy (split slash path).

(** ['/' + parts.join('/')] *)
Definition joinPath (parts : list (list N)) : list N :=
  slash :: join [slash] parts.

(** The name [parts.pop()] yields when used as a property key: popping an
    empty array gives [undefined]. *)
Definition popName (parts : list (list N)) : list N :=
  match last parts with
  | Some name => name
  | None => js "undefined"
  end.

(** The loop of [resolvePath] over the segments of the target. *)
Fixpoint resolveParts (parts targetParts : list (list N))
  : list (list N) :=
  match targetParts with
  | [] => parts
  | part :: rest =>
      if decide (part = js ".") then resolveParts parts rest
      else if decide (part = js "..") then
        resolveParts (if (0 <? length parts)%nat then removelast parts
                      else parts) rest
      else resolveParts (parts ++ [part]) rest
  end.

(** [resolvePath(fs, currentPath, targetPath)]; a missing target is the
    empty string. *)
Definition resolvePath (currentPath targetPath : list N) : list N :=
  if negb (truthy targetPath) then
    (if truthy currentPath then currentPath else js "/")
  else if startsWith targetPath (js "/") then targetPath
  else joinPath (resolveParts (segments currentPath) (segments targetPath)).

(** The loop of [getNode]. *)
Fixpoint walk (current : Node) (parts : list (list N)) : option Node :=
  match parts with
  | [] => Some current
  | part :: rest =>
      match current with
      | Dir children _ =>
          match getChild part children with
          | Some child => walk child rest
          | None => None
          end
      | File _ _ => None
      end
  end.

(** [getNode(fs, path)] *)
Definition getNode (root : Node) (path : list N) : option Node :=
  if decide (path = js "/") then Some root
  else walk root (segments path).

(** The node object [getNode] returns for these segments is changed in
    place. *)
Fixpoint updateAt (parts : list (list N)) (f : Node -> Node) (n : Node)
  : Node :=
  match parts with
  | [] => f n
  | part :: rest =>
      match n with
      | Dir children m => Dir (updateChild part (updateAt rest f) children) m
      | File _ _ => n
      end
  end.

(** [isPathUnlocked(session, path)] *)
Definition isPathUnlocked (session : Session) (path : list N) : bool :=
  match unlockedPaths session with
  | None => true
  | Some unlocked =>
      let parts := segments path in
      if existsb (fun i => bool_decide (joinPath (take i parts) ∈ unlocked))
           (seq 1 (length parts))
      then true
      else existsb (fun u => startsWith path u) (elements unlocked)
  end.

(** [readFile(session, path)] *)
Definition readFile (session : Session) (path : list N)
  : Res (list N * Meta) :=
  let resolvedPath := resolvePath (currentPath session) path in
  match getNode (fs session) resolvedPath with
  | None => Throw (NoSuchFile path)
  | Some (Dir _ _) => Throw (NotAFile path)
  | Some (File contents meta) =>
      if locked meta then Throw (PermissionDenied path)
      else if negb (isPathUnlocked session resolvedPath)
      then Throw (PermissionDenied path)
      else Ok (contents, meta)
  end.

(** [changeDirectory(session, path)] *)
Definition changeDirectory (path : list N) : M Session (list N) :=
  let* session := get in
  let resolvedPath := resolvePath (currentPath session) path in
  match getNode (fs session) resolvedPath with
  | None => throw (NoSuchDirectory path)
  | Some (File _ _) => throw (NotADirectory path)
  | Some (Dir _ meta) =>
      if locked meta then throw (PermissionDenied path)
      else if negb (isPathUnlocked session resolvedPath)
      then throw (PermissionDenied path)
      else
        let* _ := modify (set_currentPath resolvedPath) in
        ret resolvedPath
  end.




Section Search.

(** [new RegExp(pattern, 'i')]: a parameter of the model; [None] is a
    pattern the constructor rejects. *)
Variable regExp : list N -> option (list N -> bool).


End Search.

Definition set_decrypted (m : Meta) : Meta :=
  {| locked := locked m; encrypted := false; decrypted := true;
     securityFile := securityFile m; unlocksPaths := unlocksPaths m;
     targetUsers := targetUsers m |}.

Definition set_locked (l : bool) (m : Meta) : Meta :=
  {| locked := l; encrypted := encrypted m; decrypted := decrypted m;
     securityFile := securityFile m; unlocksPaths := unlocksPaths m;
     targetUsers := targetUsers m |}.

Definition mapMeta (f : Meta -> Meta) (n : Node) : Node :=
  match n with
  | File c m => File c (f m)
  | Dir ch m => Dir ch (f m)
  end.

Definition setContents (c : list N) (n : Node) : Node :=
  match n with
  | File _ m => File c m
  | Dir ch m => Dir ch m
  end.

Definition mapChildren
  (f : list (list N * Node) -> list (list N * Node)) (n : Node) : Node :=
  match n with
  | Dir ch m => Dir (f ch) m
  | File c m => File c m
  end.

Definition xorTag : list N := js "ENCRYPTED:XOR:".

(** [decrypt(session, path, key)] *)
Definition decrypt (path key : list N) : M Session (list N) :=
  let* session := get in
  let resolvedPath := resolvePath (currentPath session) path in
  match getNode (fs session) resolvedPath with
  | Some (File contents meta) =>
      if negb (encrypted meta) then throw (FileNotEncrypted path)
      else if startsWith contents xorTag then
        let hexData := replace_first contents xorTag in
        let keyNum := parseInt key 10 in
        if isNaN keyNum then throw InvalidKeyFormat
        else
          let bytes :=
            List.map (fun hex => parseInt hex 16) (match_pairs hexData) in
          let decrypted :=
            List.map (fun byte => fromCharCode (bitxor byte keyNum)) bytes in
          let* _ := modify (set_fs (updateAt (segments resolvedPath)
                      (fun node => mapMeta set_decrypted
                                     (setContents decrypted node)))) in
          ret decrypted
      else throw UnsupportedEncryptionFormat
  | _ => throw (NoSuchFile path)
  end.

(** [addFile(session, path, contents, meta)].  The node holds the value
    of [meta]; the caller's object, which the code stores as it is, is not
    followed further. *)
Definition addFile (path contents : list N) (meta : Meta)
  : M Session (list N) :=
  let* session := get in
  let resolvedPath := resolvePath (currentPath session) path in
  let parts := segments resolvedPath in
  let filename := popName parts in
  let parts := removelast parts in
  let dirPath := joinPath parts in
  match getNode (fs session) dirPath with
  | Some (Dir _ _) =>
      let* _ := modify (set_fs (updateAt (segments dirPath)
                  (mapChildren (setChild filename (File contents meta))))) in
      ret resolvedPath
  | _ => throw (InvalidDirectory dirPath)
  end.

(** [writeFile(session, path, contents, meta)]: the same body. *)
Definition writeFile (path contents : list N) (meta : Meta)
  : M Session (list N) :=
  addFile path contents meta.

(** [setLock(session, path, locked)] *)
Definition setLock (path : list N) (lock : bool)
  : M Session (list N * bool) :=
  let* session := get in
  let resolvedPath := resolvePath (currentPath session) path in
  match getNode (fs session) resolvedPath with
  | None => throw (NoSuchFileOrDirectory path)
  | Some _ =>
      let* _ := modify (set_fs (updateAt (segments resolvedPath)
                  (mapMeta (set_locked lock)))) in
      ret (resolvedPath, lock)
  end.

(** The body run for one target session of a delete: each path and each
    of its prefixes of one segment or more joins [unlockedPaths]. *)
Definition unlockOne (target : Session) (unlockPath : list N) : Session :=
  let unlocked := default ∅ (unlockedPaths target) in
  let unlocked := unlocked ∪ {[ unlockPath ]} in
  let parts := segments unlockPath in
  let unlocked :=
    fold_left (fun u i => u ∪ {[ joinPath (take i parts) ]})
      (seq 1 (length parts)) unlocked in
  set_unlockedPaths (Some unlocked) target.

Definition unlockAll (unlocksPaths : list (list N)) (target : Session)
  : Session :=
  fold_left unlockOne unlocksPaths target.

(** The [allSessions.forEach] of [delete]: [me] is the id of the deleting
    session, [acc] the ids pushed so far. *)
Fixpoint unlockTargets (me : list N) (unlocksPaths : list (list N))
  (targetUserGroups : list Z) (ids : list (list N)) (acc : list (list N))
  : M (list Session) (list (list N)) :=
  match ids with
  | [] => ret acc
  | sid :: rest =>
      let* sessions := get in
      match SessionManager.getSession sessions sid with
      | Some targetSession =>
          let userGroup := Z.rem (userId targetSession) 4 in
          if bool_decide (userGroup ∈ targetUserGroups)
             && negb (bool_decide (id targetSession = me))
          then
            let* _ := modify (SessionManager.updateSession sid
                                (unlockAll unlocksPaths)) in
            unlockTargets me unlocksPaths targetUserGroups rest (acc ++ [sid])
          else unlockTargets me unlocksPaths targetUserGroups rest acc
      | None => unlockTargets me unlocksPaths targetUserGroups rest acc
      end
  end.

(** The session object at position [i] of the registry is changed in
    place. *)
Definition modifyAt (i : nat) (f : Session -> Session)
  : M (list Session) unit :=
  modify (fun sessions =>
    match sessions !! i with
    | Some s => <[ i := f s ]> sessions
    | None => sessions
    end).

(** [delete(session, path)], run on the registry of live sessions; the
    session is the object at position [i].  The callers take the session
    from the registry and answer "Session not found" without one. *)
Definition delete (i : nat) (path : list N) : M (list Session) (list N) :=
  let* sessions := get in
  match sessions !! i with
  | None => throw SessionNotFound
  | Some session =>
      let resolvedPath := resolvePath (currentPath session) path in
      let parts := segments resolvedPath in
      let name := popName parts in
      let parts := removelast parts in
      let parentPath := joinPath parts in
      match getNode (fs session) parentPath with
      | Some (Dir children _) =>
          match getChild name children with
          | None => throw (NoSuchFileOrDirectory path)
          | Some nodeToDelete =>
              let meta := nodeMeta nodeToDelete in
              let* _ :=
                match securityFile meta, unlocksPaths meta with
                | true, Some unlocks =>
                    let targetUserGroups := default [] (targetUsers meta) in
                    let* unlockedSessionIds :=
                      unlockTargets (id session) unlocks targetUserGroups
                        (SessionManager.getAllSessions sessions) [] in
                    modifyAt i (set_sessionMeta (Some
                      {| recentlyUnlockedSessions := unlockedSessionIds;
                         recentlyUnlockedPaths := unlocks |}))
                | _, _ => ret tt
                end in
              let* _ := modifyAt i (set_fs (updateAt (segments parentPath)
                          (mapChildren (deleteChild name)))) in
              ret resolvedPath
          end
      | _ => throw (InvalidParentDirectory parentPath)
      end
  end.

(** [rename(session, path, newName)] *)
Definition rename (path newName : list N) : M Session (list N) :=
  let* session := get in
  let resolvedPath := resolvePath (currentPath session) path in
  let parts := segments resolvedPath in
  let oldName := popName parts in
  let parts := removelast parts in
  let parentPath := joinPath parts in
  match getNode (fs session) parentPath with
  | Some (Dir children _) =>
      match getChild oldName children with
      | None => throw (NoSuchFileOrDirectory path)
      | Some node =>
          match getChild newName children with
          | Some _ => throw (AlreadyExists newName)
          | None =>
              let* _ := modify (set_fs (updateAt (segments parentPath)
                          (mapChildren (fun ch =>
                             deleteChild oldName (setChild newName node ch))))) in
              ret (if decide (parentPath = js "/") then slash :: newName
                   else parentPath ++ slash :: newName)
          end
      end
  | _ => throw (InvalidParentDirectory parentPath)
  end.

(** [move(session, sourcePath, targetPath)].  A source that resolves to
    the root has no name, and [sourceParts.pop()] gives [undefined]: into
    the root itself the move stores the root under that key and deletes
    the key again, which leaves the tree as it was; into another directory
    it links the root under one of its own descendants, a cycle that a
    tree cannot hold, and that outcome is reported as [RootRelinked]. *)
Definition move (sourcePath targetPath : list N) : M Session (list N) :=
  let* session := get in
  let resolvedSource := resolvePath (currentPath session) sourcePath in
  let resolvedTarget := resolvePath (currentPath session) targetPath in
  match getNode (fs session) resolvedSource with
  | None => throw (NoSuchFileOrDirectory sourcePath)
  | Some sourceNode =>
      match getNode (fs session) resolvedTarget with
      | Some (Dir targetChildren _) =>
          let sourceParts := segments resolvedSource in
          let sourceName := popName sourceParts in
          let parentParts := removelast sourceParts in
          match getChild sourceName targetChildren with
          | Some _ => throw (AlreadyExistsInTarget sourceName)
          | None =>
              let sourceParentPath := joinPath parentParts in
              match getNode (fs session) sourceParentPath with
              | Some (Dir _ _) =>
                  match sourceParts with
                  | [] =>
                      if decide (segments resolvedTarget = [])
                      then ret (if decide (resolvedTarget = js "/")
                                then slash :: sourceName
                                else resolvedTarget ++ slash :: sourceName)
                      else throw RootRelinked
                  | _ :: _ =>
                      let* _ := modify (set_fs (updateAt
                                  (segments resolvedTarget)
                                  (mapChildren (setChild sourceName sourceNode)))) in
                      let* _ := modify (set_fs (updateAt
                                  (segments sourceParentPath)
                                  (mapChildren (deleteChild sourceName)))) in
                      ret (if decide (resolvedTarget = js "/")
                           then slash :: sourceName
                           else resolvedTarget ++ slash :: sourceName)
                  end
              | _ => throw (InvalidSourceParent sourceParentPath)
              end
          end
      | _ => throw (TargetNotADirectory targetPath)
      end
  end.

(** [cloneFS(fs)]: a deep copy, the same value. *)
Definition cloneFS (root : Node) : Node := root.

Record Entry := mkEntry {
  e_name : list N;
  e_type : list N;
  e_size : option nat;
  e_meta : Meta
}.

Definition entryOf (name : list N) (child : Node) : Entry :=
  match child with
  | File contents meta =>
      {| e_name := name; e_type := js "file";
         e_size := Some (length contents); e_meta := meta |}
  | Dir _ meta =>
      {| e_name := name; e_type := js "dir"; e_size := None; e_meta := meta |}
  end.

(** [list(session, path)] *)
Definition list (session : Session) (path : list N) : Res (list Entry) :=
  let resolvedPath := resolvePath (currentPath session) path in
  match getNode (fs session) resolvedPath with
  | None => Throw (NoSuchFileOrDirectory path)
  | Some (File _ _) => Throw (NotADirectory path)
  | Some (Dir children meta) =>
      if locked meta then Throw (PermissionDenied path)
      else if negb (isPathUnlocked session resolvedPath)
      then Throw (PermissionDenied path)
      else
        Ok (List.map (fun entry => entryOf (fst entry) (snd entry))
              (List.filter
                 (fun entry =>
                    isPathUnlocked session
                      (if decide (resolvedPath = js "/")
                       then slash :: fst entry
                       else resolvedPath ++ slash :: fst entry))
                 children))
  end.

End VFSEngine.

(** ** The puzzle engine (puzzleEngine.js) *)

Module PuzzleEngine.

Record Trigger := mkTrigger {
  t_type : list N;
  t_path : list N
}.

(** The [validate] field of a puzzle. *)
Inductive Validate :=
| VAbsent
| VString (rule : list N)
| VFunction (code : list N)
| VOther.

(** An effect, by its [action]. *)
Inductive Effect :=
| EAddFile (target contents : list N) (meta : option Meta)
| EDecrypt (target : list N)
| EUnlock (target : list N)
| ELock (target : list N)
| ERaiseAlert (amount : option Z)
| EOther (action : list N).

(** A puzzle definition.  [solved] is the property of the definition
    itself that [checkDecrypt] reads; no code writes it. *)
Record Puzzle := mkPuzzle {
  p_id : list N;
  triggers : list Trigger;
  validate : Validate;
  onSuccessEffects : list Effect;
  onFailEffects : list Effect;
  autoSolve : bool;
  solved : bool
}.

Record Context := mkContext {
  key : list N;
  filePath : list N
}.

(** [executeEffect(session, effect)] *)
Definition executeEffect (effect : Effect) : M Session unit :=
  match effect with
  | EAddFile target contents meta =>
      let* _ := VFSEngine.addFile target contents (default emptyMeta meta) in
      ret tt
  | EDecrypt target =>
      let* session := get in
      match VFSEngine.getNode (fs session) target with
      | Some node =>
          if encrypted (nodeMeta node) then
            modify (set_fs (VFSEngine.updateAt (VFSEngine.segments target)
                      (VFSEngine.mapMeta VFSEngine.set_decrypted)))
          else ret tt
      | None => ret tt
      end
  | EUnlock target =>
      let* _ := VFSEngine.setLock target false in ret tt
  | ELock target =>
      let* _ := VFSEngine.setLock target true in ret tt
  | ERaiseAlert amount =>
      let by_ := match amount with
                 | Some n => if n =? 0 then 1 else n
                 | None => 1
                 end in
      let* _ := modify (set_aiState (fun st =>
                  AIEngine.set_level (Math_min (level st + by_)%num 10) st)) in
      modify (set_aiState (fun st =>
        if decide (status st = js "idle")
        then AIEngine.set_status (js "probing") st else st))
  | EOther _ => ret tt
  end.

Section Engine.

(** The function a [validate] object of type [function] compiles to,
    a parameter of the model: [None] is an exception, otherwise the
    truthiness of what it returns. *)
Variable runFunction : list N -> Session -> Context -> option bool.

(** [validateSolution(session, puzzle, context)] *)
Definition validateSolution (session : Session) (puzzle : Puzzle)
  (context : Context) : bool :=
  match validate puzzle with
  | VAbsent => true
  | VString rule =>
      if negb (truthy rule) then true
      else if startsWith rule (js "key:") then
        bool_decide (key context = trim (drop 4 rule))
      else if startsWith rule (js "file_contains:") then
        match VFSEngine.readFile session (filePath context) with
        | Ok (contents, _) => includes contents (trim (drop 14 rule))
        | Throw _ => false
        end
      else false
  | VFunction code =>
      match runFunction code session context with
      | Some b => b
      | None => false
      end
  | VOther => false
  end.

(** [onSuccess(session, puzzle)] *)
Definition onSuccess (puzzle : Puzzle) : M Session unit :=
  let* _ := modify (set_puzzleState (fun ps => <[ p_id puzzle := true ]> ps)) in
  forEach (onSuccessEffects puzzle) executeEffect.

(** [onFailure(session, puzzle)] *)
Definition onFailure (puzzle : Puzzle) : M Session unit :=
  forEach (onFailEffects puzzle) executeEffect.

(** [handleTrigger(session, puzzle)] *)
Definition handleTrigger (puzzle : Puzzle) : M Session unit :=
  if autoSolve puzzle then onSuccess puzzle else ret tt.

(** [checkTrigger(session, type, path)] over the loaded [puzzles]. *)
Definition checkTrigger (puzzles : list Puzzle) (type path : list N)
  : M Session unit :=
  forEach puzzles (fun puzzle =>
    let* session := get in
    if bool_decide (puzzleState session !! p_id puzzle = Some true)
    then ret tt
    else
      forEach (triggers puzzle) (fun trigger =>
        if bool_decide (t_type trigger = type)
           && bool_decide (t_path trigger = path)
        then handleTrigger puzzle
        else ret tt)).

(** [checkDecrypt(session, filePath, key)] over the loaded [puzzles]. *)
Definition checkDecrypt (puzzles : list Puzzle) (filePath key : list N)
  : M Session unit :=
  forEach puzzles (fun puzzle =>
    if solved puzzle then ret tt
    else
      forEach (triggers puzzle) (fun trigger =>
        if bool_decide (t_type trigger = js "decrypt")
           && bool_decide (t_path trigger = filePath)
        then
          let* session := get in
          let isValid :=
            validateSolution session puzzle
              {| key := key; filePath := filePath |} in
          if isValid then onSuccess puzzle else onFailure puzzle
        else ret tt)).

End Engine.

End PuzzleEngine.

(** ** The command parser (commandParser.js) *)

Module CommandParser.

(** The value of an option: the token that follows it, or [true]. *)
Inductive OptionValue :=
| OTrue
| OText (value : list N).

(** What [parse] returns; [options] holds the entries the object has of
    its own. *)
Record Parsed := mkParsed {
command : list N;
args : list (list N);
options : gmap (list N) OptionValue;
raw : list N
}.

(** [s.split(/\s+/)]; [inSeparator] tells that the character before was
    white space. *)
Fixpoint splitWhiteSpace (inSeparator : bool) (s : list N)
  : list (list N) :=
match s with
| [] => [[]]
| c :: s' =>
    if isWhiteSpace c then
      (if inSeparator then splitWhiteSpace true s'
       else [] :: splitWhiteSpace true s')
    else
      match splitWhiteSpace false s' with
      | w :: ws => (c :: w) :: ws
      | [] => [[c]]
      end
end.

(** [options[key] = value] on the plain object [options].  The key
    [__proto__] names the prototype accessor, whose setter ignores a value
    that is not an object: nothing is stored under it. *)
Definition setOption (key : list N) (value : OptionValue)
  (opts : gmap (list N) OptionValue) : gmap (list N) OptionValue :=
if decide (key = js "__proto__") then opts else <[ key := value ]> opts.

(** The loop of [parse] over the arguments: an option and the value it
    takes are spliced out, the other tokens stay. *)
Fixpoint parseOptions (opts : gmap (list N) OptionValue)
  (tokens : list (list N)) : list (list N) * gmap (list N) OptionValue :=
match tokens with
| [] => ([], opts)
| token :: rest =>
    if startsWith token (js "--") then
      let key := drop 2 token in
      match rest with
      | value :: rest' =>
          if truthy value && negb (startsWith value (js "--")) then
            parseOptions (setOption key (OText value) opts) rest'
          else parseOptions (setOption key OTrue opts) rest
      | [] => parseOptions (setOption key OTrue opts) rest
      end
    else
      match parseOptions opts rest with
      | (kept, opts') => (token :: kept, opts')
      end
end.

Section Parse.

(** [String.prototype.toLowerCase], a parameter of the model. *)
Variable toLowerCase : list N -> list N.

(** [parse(cmd)]; [None] is [null]. *)
Definition parse (cmd : list N) : option Parsed :=
let trimmed := trim cmd in
if negb (truthy trimmed) then None
else
  let parts := splitWhiteSpace false trimmed in
  let '(kept, opts) := parseOptions ∅ (tail parts) in
  Some {| command := toLowerCase (default [] (head parts));
          args := kept; options := opts; raw := trimmed |}.

End Parse.

(** [commandHistory.slice(-limit)] for a limit that is an integer, or
    not a number ([None]). *)
Definition sliceLast (limit : option Z)
  (commandHistory : list SessionManager.HistoryEntry)
  : list SessionManager.HistoryEntry :=
match limit with
| None => commandHistory
| Some n =>
    let start := - n in
    let len := Z.of_nat (length commandHistory) in
    let k := if start <? 0 then Z.max (len + start) 0 else Z.min start len in
    drop (Z.to_nat k) commandHistory
end.

(** The lines of [history]: each entry with its number. *)
Fixpoint historyLines (i : Z) (entries : list SessionManager.HistoryEntry)
  : list (list N) :=
match entries with
| [] => []
| h :: rest =>
    (toString (i + 1) ++ js ". " ++ SessionManager.h_command h)
    :: historyLines (i + 1) rest
end.

(** [history(session, limit)]: the text of the [output] field. *)
Definition history (commandHistory : list SessionManager.HistoryEntry)
  (limit : option Z) : list N :=
let shown := sliceLast limit commandHistory in
if (length shown =? 0)%nat then js "No command history."
else join [10%N] (historyLines 0 shown).

End CommandParser.

(** ** The session route of the server (server.js) *)

Module Server.

(** A computation on the sessions of the manager, run on the manager. *)
Definition onSessions {A} (c : M (list Session) A)
  : M SessionManager.Manager A :=
fun m =>
  match c (SessionManager.sessions m) with
  | (r, sessions') =>
      (r, {| SessionManager.sessions := sessions';
             SessionManager.globalRoundStarted :=
               SessionManager.globalRoundStarted m |})
  end.

Section Route.

(** The [lastActivity] time of a session, a parameter of the model. *)
Variable lastActivity : Session -> Z.

(** The first element after the sort by descending [lastActivity]. *)
Fixpoint latest (existing : list Session) : option Session :=
match existing with
| [] => None
| s :: rest =>
    match latest rest with
    | Some best =>
        if lastActivity s <? lastActivity best then Some best else Some s
    | None => Some s
    end
end.

(** The handler of [POST /api/session/create] for an authenticated
    user: the session id and the round flag it answers.  [freshId] is the
    UUID a new session would get. *)
Definition sessionCreate (freshId : list N) (campaignSeed : Node)
  (user : Z) (name : list N) : M SessionManager.Manager (list N * bool) :=
let* m := get in
let existingSessions :=
  SessionManager.getSessionsByUser (SessionManager.sessions m) user in
match latest existingSessions with
| Some latestSession =>
    let* _ :=
      match SessionManager.getSession (SessionManager.sessions m)
              (id latestSession) with
      | Some _ =>
          if SessionManager.getGlobalRoundStatus m then
            onSessions (modify (SessionManager.updateSession
                                  (id latestSession)
                                  (SessionManager.set_round false true)))
          else ret tt
      | None => ret tt
      end in
    ret (id latestSession, SessionManager.getGlobalRoundStatus m)
| None =>
    let* session :=
      onSessions (SessionManager.createSession freshId campaignSeed user name) in
    let* _ :=
      if SessionManager.getGlobalRoundStatus m then
        onSessions (modify (SessionManager.updateSession (id session)
                              (SessionManager.set_round false true)))
      else ret tt in
    ret (id session, SessionManager.getGlobalRoundStatus m)
end.

End Route.

End Server.

(** ** Vocabulary of the statements *)



(** Sessions and trees for the examples. *)
Definition exampleSession (sessionId : list N) (user : Z) (root : Node)
  (unlocked : option (gset (list N))) : Session :=
  {| id := sessionId; userId := user; username := js "player";
     fs := root; currentPath := js "/"; puzzleState := ∅;
     aiState := {| level := 0; status := js "idle"; challenge := None |};
     frozen := false; waitingRoom := false; roundStarted := true;
     unlockedPaths := unlocked; sessionMeta := None |}.

Definition lockedMeta : Meta := VFSEngine.set_locked true emptyMeta.

(** [/a] is a directory that holds the directory [/a/b]. *)
Definition nestedTree : Node :=
  Dir [ (js "a", Dir [ (js "b", Dir [] emptyMeta) ] emptyMeta) ] emptyMeta.

Definition nestedSession : Session :=
  exampleSession (js "s1") 1 nestedTree (Some {[ js "/" ]}).











(** [/vault] is locked and holds [/vault/plan.txt]; [/readme] is a file. *)
Definition vaultDir : Node :=
  Dir [ (js "plan.txt", File (js "the secret plan") lockedMeta) ] lockedMeta.

Definition vaultChildren : list (list N * Node) :=
  [ (js "vault", vaultDir);
    (js "readme", File (js "nothing here") emptyMeta);
    (js "plan.txt", File (js "decoy") emptyMeta) ].

Definition vaultTree : Node := Dir vaultChildren emptyMeta.

Definition vaultSession : Session :=
  exampleSession (js "s2") 2 vaultTree (Some ∅).

(** The ciphertext the puzzle content holds: every byte of the plaintext
    XOR-ed with the key, written as two lowercase hexadecimal digits, after
    the tag of the scheme. *)
Definition hexDigit (d : Z) : N :=
  Z.to_N (if d <? 10 then 48 + d else 87 + d).

Definition hexByte (c : Z) : list N :=
  [ hexDigit (c / 16); hexDigit (c mod 16) ].

Definition xorEncrypt (K : Z) (plaintext : list N) : list N :=
  VFSEngine.xorTag
  ++ flat_map (fun b => hexByte (Z.lxor (Z.of_N b) K)) plaintext.

Definition isByte (b : N) : Prop := (b < 256)%N.

(** The part of a key that reaches the text: [byte ^ key] is computed on
    32 bits and [String.fromCharCode] keeps the low 16 of them. *)
Definition keyUnit (key : Number) : Z := toInt32 key mod 2 ^ 16.

(** [/sec/secret.bin] holds FLAG encrypted under key 42. *)
Definition secretMeta : Meta :=
  {| locked := false; encrypted := true; decrypted := false;
     securityFile := false; unlocksPaths := None; targetUsers := None |}.

Definition secretTree : Node :=
  Dir [ (js "sec",
         Dir [ (js "secret.bin", File (xorEncrypt 42 (js "FLAG")) secretMeta) ]
             emptyMeta) ] emptyMeta.

Definition secretSession : Session :=
  exampleSession (js "s3") 3 secretTree (Some {[ js "/" ]}).


(** [x] is a member of the unlocked paths of [t]. *)
Definition holds (t : Session) (x : list N) : Prop :=
  exists unlocked, unlockedPaths t = Some unlocked /\ x ∈ unlocked.

(** The prefixes of one segment or more of a path, the path included. *)
Definition segmentPrefixes (p : list N) : list (list N) :=
  List.map (fun k => VFSEngine.joinPath (take k (VFSEngine.segments p)))
    (seq 1 (length (VFSEngine.segments p))).


(** What a delete adds for the paths it unlocks. *)
Definition added (unlocks : list (list N)) (x : list N) : Prop :=
  exists p, In p unlocks /\ (x = p \/ In x (segmentPrefixes p)).


(** A security file [/key] that unlocks [/x] for the group 1, the session
    that deletes it, and a session of that group without unlocked-path
    tracking. *)
Definition keyMeta : Meta :=
  {| locked := false; encrypted := false; decrypted := false;
     securityFile := true; unlocksPaths := Some [ js "/x" ];
     targetUsers := Some [ 1 ] |}.

Definition keyChildren : list (list N * Node) :=
  [ (js "key", File (js "k") keyMeta); (js "x", Dir [] emptyMeta) ].

Definition keyTree : Node := Dir keyChildren emptyMeta.

Definition deleterSession : Session :=
  exampleSession (js "s0") 4 keyTree (Some {[ js "/" ]}).

Definition legacySession : Session :=
  exampleSession (js "s1") 5 keyTree None.

Definition outsiderSession : Session :=
  exampleSession (js "s2") 6 keyTree (Some {[ js "/" ]}).



(** A puzzle bound to the decryption of [/sec/secret.bin], and a session
    whose puzzle state already records it as solved. *)
Definition flagPuzzle : PuzzleEngine.Puzzle :=
  {| PuzzleEngine.p_id := js "flag";
     PuzzleEngine.triggers :=
       [ {| PuzzleEngine.t_type := js "decrypt";
            PuzzleEngine.t_path := js "/sec/secret.bin" |} ];
     PuzzleEngine.validate := PuzzleEngine.VString (js "key:42");
     PuzzleEngine.onSuccessEffects :=
       [ PuzzleEngine.ERaiseAlert (Some 2);
         PuzzleEngine.EAddFile (js "/flag.txt") (js "FLAG{done}") None ];
     PuzzleEngine.onFailEffects := [ PuzzleEngine.ERaiseAlert None ];
     PuzzleEngine.autoSolve := true;
     PuzzleEngine.solved := false |}.

Definition noFunction (code : list N) (s : Session)
  (c : PuzzleEngine.Context) : option bool := None.

Definition solvedSession : Session :=
  set_puzzleState (fun ps => <[ js "flag" := true ]> ps) secretSession.

(** [children[name]] reads [undefined]: the dictionary has no entry under
    the name, and [Object.prototype] defines no property of that name. *)
Definition absent (name : list N) (children : list (list N * Node)) : Prop :=
  getChild name children = None /\ inherited name = false.

(** The segments of a path: not empty and without a slash. *)
Definition plainSegment (w : list N) : Prop := truthy w = true /\ slash ∉ w.


(** A session that tracks [/server_room] only. *)
Definition hubSession : Session :=
  exampleSession (js "s4") 0 nestedTree (Some {[ js "/server_room" ]}).

(** The puzzle has a trigger of this type at this path. *)
Definition triggered (type path : list N) (p : PuzzleEngine.Puzzle) : bool :=
  existsb (fun t => bool_decide (PuzzleEngine.t_type t = type)
                    && bool_decide (PuzzleEngine.t_path t = path))
    (PuzzleEngine.triggers p).

(** A trigger event has nothing left to do for the puzzle in this
    session. *)
Definition settled (type path : list N) (s : Session)
  (p : PuzzleEngine.Puzzle) : Prop :=
  puzzleState s !! PuzzleEngine.p_id p = Some true
  \/ PuzzleEngine.autoSolve p = false
  \/ triggered type path p = false.

(** A puzzle solved by opening [/a/readme.txt], whose second effect fails
    for want of the directory [/nowhere]. *)
Definition openPuzzle : PuzzleEngine.Puzzle :=
  {| PuzzleEngine.p_id := js "opened";
     PuzzleEngine.triggers :=
       [ {| PuzzleEngine.t_type := js "open";
            PuzzleEngine.t_path := js "/a/readme.txt" |} ];
     PuzzleEngine.validate := PuzzleEngine.VAbsent;
     PuzzleEngine.onSuccessEffects :=
       [ PuzzleEngine.ERaiseAlert (Some 1);
         PuzzleEngine.EAddFile (js "/nowhere/f") (js "x") None;
         PuzzleEngine.ERaiseAlert (Some 5) ];
     PuzzleEngine.onFailEffects := [];
     PuzzleEngine.autoSolve := true;
     PuzzleEngine.solved := false |}.

(** A puzzle whose definition lists its trigger twice; solving it raises
    the alert by 2. *)
Definition doubledPuzzle : PuzzleEngine.Puzzle :=
  {| PuzzleEngine.p_id := js "doubled";
     PuzzleEngine.triggers :=
       [ {| PuzzleEngine.t_type := js "open";
            PuzzleEngine.t_path := js "/a/readme.txt" |};
         {| PuzzleEngine.t_type := js "open";
            PuzzleEngine.t_path := js "/a/readme.txt" |} ];
     PuzzleEngine.validate := PuzzleEngine.VAbsent;
     PuzzleEngine.onSuccessEffects := [ PuzzleEngine.ERaiseAlert (Some 2) ];
     PuzzleEngine.onFailEffects := [];
     PuzzleEngine.autoSolve := true;
     PuzzleEngine.solved := false |}.

(** What [checkTrigger] does for one trigger of a puzzle. *)
Definition triggerBody (puzzle : PuzzleEngine.Puzzle) (type path : list N)
  (trigger : PuzzleEngine.Trigger) : M Session unit :=
  if bool_decide (PuzzleEngine.t_type trigger = type)
     && bool_decide (PuzzleEngine.t_path trigger = path)
  then PuzzleEngine.handleTrigger puzzle
  else ret tt.

(** The parts of a session no effect writes. *)
Definition sameOutsideTree (s s' : Session) : Prop :=
  puzzleState s' = puzzleState s
  /\ unlockedPaths s' = unlockedPaths s
  /\ currentPath s' = currentPath s
  /\ id s' = id s.

(** Every session carries the round flags the global flag asks for. *)
Definition roundSynced (m : SessionManager.Manager) : Prop :=
  Forall (fun s =>
            roundStarted s = SessionManager.globalRoundStarted m
            /\ waitingRoom s = negb (SessionManager.globalRoundStarted m))
    (SessionManager.sessions m).

(** A manager with two sessions in a started round. *)
Definition startedManager : SessionManager.Manager :=
  {| SessionManager.sessions :=
       [ SessionManager.set_round false true deleterSession;
         SessionManager.set_round false true legacySession ];
     SessionManager.globalRoundStarted := true |}.

Definition constantActivity (s : Session) : Z := 0.

(** ** Paths *)

Section SplitJoin.

Lemma split_nonempty sep s : split sep s <> [].
Proof.
  destruct s as [|c s]; simpl; [discriminate|].
  destruct (N.eqb c sep); [discriminate|].
  destruct (split sep s); discriminate.
Qed.

Lemma split_no_sep sep s : Forall (fun w => sep ∉ w) (split sep s).
Proof.
  induction s as [|c s IH]; simpl.
  - constructor; [apply not_elem_of_nil | constructor].
  - destruct (N.eqb c sep) eqn:E.
    + constructor; [apply not_elem_of_nil | exact IH].
    + destruct (split sep s) as [|w ws]; inversion IH; subst.
      * constructor; [|constructor].
        intros H. apply list_elem_of_singleton in H. subst.
        rewrite N.eqb_refl in E. discriminate.
      * constructor; [|assumption].
        rewrite elem_of_cons. intros [->|H]; [|contradiction].
        rewrite N.eqb_refl in E. discriminate.
Qed.

Lemma split_app_no_sep sep w s :
  sep ∉ w -> split sep (w ++ sep :: s) = w :: split sep s.
Proof.
  induction w as [|c w IH]; simpl; intros Hw.
  - rewrite N.eqb_refl. reflexivity.
  - apply not_elem_of_cons in Hw as [Hc Hw].
    destruct (N.eqb c sep) eqn:E.
    + apply N.eqb_eq in E. congruence.
    + rewrite IH by assumption. reflexivity.
Qed.

Lemma split_no_sep_id sep w : sep ∉ w -> split sep w = [w].
Proof.
  induction w as [|c w IH]; simpl; intros Hw; [reflexivity|].
  apply not_elem_of_cons in Hw as [Hc Hw].
  destruct (N.eqb c sep) eqn:E.
  - apply N.eqb_eq in E. congruence.
  - rewrite IH by assumption. reflexivity.
Qed.

Lemma split_join sep parts :
  parts <> [] -> Forall (fun w => sep ∉ w) parts ->
  split sep (join [sep] parts) = parts.
Proof.
  induction parts as [|p ps IH]; intros Hne Hall; [congruence|].
  inversion Hall as [|? ? Hp Hps]; subst.
  destruct ps as [|q qs].
  - simpl. apply split_no_sep_id. assumption.
  - change (join [sep] (p :: q :: qs)) with (p ++ sep :: join [sep] (q :: qs)).
    rewrite split_app_no_sep by assumption.
    rewrite IH; [reflexivity | discriminate | assumption].
Qed.

End SplitJoin.


Lemma segments_no_slash path : Forall (fun w => slash ∉ w) (VFSEngine.segments path).
Proof.
  unfold VFSEngine.segments. apply Forall_forall. intros w Hw.
  apply list_elem_of_In, filter_In in Hw as [Hw _].
  pose proof (split_no_sep slash path) as H.
  rewrite Forall_forall in H. apply H, list_elem_of_In, Hw.
Qed.

Lemma segments_truthy path : Forall (fun w => truthy w = true) (VFSEngine.segments path).
Proof.
  unfold VFSEngine.segments. apply Forall_forall. intros w Hw.
  apply list_elem_of_In, filter_In in Hw as [_ Hw]. exact Hw.
Qed.

Lemma Forall_removelast {A} (P : A -> Prop) (l : list A) :
  Forall P l -> Forall P (removelast l).
Proof.
  induction l as [|a l IH]; intros H; [constructor|].
  inversion H; subst. simpl. destruct l; [constructor|].
  constructor; [assumption | apply IH; assumption].
Qed.






(** ** Locks and unlocked paths *)

Lemma getChild_updateChild name f ch :
  getChild name (updateChild name f ch) = f <$> getChild name ch.
Proof.
  induction ch as [|[k v] ch IH]; simpl; [reflexivity|].
  destruct (decide (k = name)) as [->|Hk]; simpl.
  - destruct (decide (name = name)); [reflexivity | congruence].
  - destruct (decide (k = name)); [congruence | exact IH].
Qed.

Lemma walk_updateAt f parts : forall root,
  VFSEngine.walk (VFSEngine.updateAt parts f root) parts
  = f <$> VFSEngine.walk root parts.
Proof.
  induction parts as [|part rest IH]; intros root; simpl; [reflexivity|].
  destruct root as [c m|ch m]; simpl; [reflexivity|].
  rewrite getChild_updateChild.
  destruct (getChild part ch) as [child|]; simpl; [apply IH | reflexivity].
Qed.

Lemma getNode_walk root path :
  VFSEngine.getNode root path = VFSEngine.walk root (VFSEngine.segments path).
Proof.
  unfold VFSEngine.getNode.
  destruct (decide (path = js "/")) as [->|_]; reflexivity.
Qed.

Lemma getNode_updateAt f root path :
  VFSEngine.getNode (VFSEngine.updateAt (VFSEngine.segments path) f root) path
  = f <$> VFSEngine.getNode root path.
Proof. rewrite !getNode_walk. apply walk_updateAt. Qed.

Lemma resolvePath_absolute currentPath targetPath :
  startsWith currentPath (js "/") = true ->
  startsWith (VFSEngine.resolvePath currentPath targetPath) (js "/") = true.
Proof.
  intros Hc. unfold VFSEngine.resolvePath.
  destruct (truthy targetPath); cbn [negb].
  - destruct (startsWith targetPath (js "/")) eqn:E; [exact E | reflexivity].
  - destruct currentPath; [discriminate Hc | exact Hc].
Qed.

(** C3.  With the root path among its unlocked paths a session passes the
    unlock test at every absolute path, hence at every path an operation
    resolves from an absolute current path: [list] and [readFile] then
    succeed on every node that is not flagged locked.  [createSession]
    builds such a session. *)
Theorem isPathUnlocked_root_unlocked (session : Session)
  (unlocked : gset (list N)) :
  unlockedPaths session = Some unlocked ->
  js "/" ∈ unlocked ->
  (forall path, startsWith path (js "/") = true ->
     VFSEngine.isPathUnlocked session path = true)
  /\ (startsWith (currentPath session) (js "/") = true ->
      forall path,
        let resolved := VFSEngine.resolvePath (currentPath session) path in
        VFSEngine.isPathUnlocked session resolved = true
        /\ (forall children meta,
              VFSEngine.getNode (fs session) resolved = Some (Dir children meta) ->
              locked meta = false ->
              exists entries, VFSEngine.list session path = Ok entries)
        /\ (forall contents meta,
              VFSEngine.getNode (fs session) resolved = Some (File contents meta) ->
              locked meta = false ->
              VFSEngine.readFile session path = Ok (contents, meta)))
  /\ (forall sessionId campaignSeed user name sessions,
        exists created sessions' initial,
          SessionManager.createSession sessionId campaignSeed user name sessions
            = (Ok created, sessions')
          /\ unlockedPaths created = Some initial
          /\ js "/" ∈ initial
          /\ startsWith (currentPath created) (js "/") = true).
Proof.
  intros HU Hroot.
  assert (Habs : forall path, startsWith path (js "/") = true ->
                   VFSEngine.isPathUnlocked session path = true).
  { intros path Hp. unfold VFSEngine.isPathUnlocked. rewrite HU.
    destruct (existsb _ (seq 1 _)); [reflexivity|].
    apply existsb_exists. exists (js "/"). split; [|exact Hp].
    apply list_elem_of_In, elem_of_elements, Hroot. }
  split; [exact Habs|]. split.
  - intros Hcur path resolved.
    assert (Hres : VFSEngine.isPathUnlocked session resolved = true).
    { apply Habs, resolvePath_absolute, Hcur. }
    split; [exact Hres|]. split.
    + intros children meta Hnode Hlock. unfold VFSEngine.list.
      fold resolved. rewrite Hnode, Hlock, Hres. simpl. eexists. reflexivity.
    + intros contents meta Hnode Hlock. unfold VFSEngine.readFile.
      fold resolved. rewrite Hnode, Hlock, Hres. reflexivity.
  - intros sessionId campaignSeed user name sessions.
    unfold SessionManager.createSession, bind, modify, ret.
    do 3 eexists. split; [reflexivity|]. simpl.
    split; [reflexivity|]. split; [set_solver | reflexivity].
Qed.

Lemma isPathUnlocked_root_unlocked_witness :
  VFSEngine.isPathUnlocked nestedSession (js "/a/b") = true.
Proof.
  refine (proj1 (isPathUnlocked_root_unlocked nestedSession {[ js "/" ]}
                   eq_refl _) (js "/a/b") eq_refl).
  apply elem_of_singleton. reflexivity.
Defined.

(** C2, as stated, fails: with [/a] locked, [list] on its descendant
    [/a/b] still succeeds; only the node listed is tested for its flag. *)
Lemma list_descendant_of_locked_dir_succeeds :
  exists locked_session,
    VFSEngine.setLock (js "/a") true nestedSession
      = (Ok (js "/a", true), locked_session)
    /\ (exists children meta,
          VFSEngine.getNode (fs locked_session) (js "/a")
            = Some (Dir children meta) /\ locked meta = true)
    /\ VFSEngine.list locked_session (js "/a")
         = Throw (PermissionDenied (js "/a"))
    /\ VFSEngine.list locked_session (js "/a/b") = Ok [].
Proof.
  eexists. split; [vm_compute; reflexivity|].
  split; [do 2 eexists; split; vm_compute; reflexivity|].
  split; vm_compute; reflexivity.
Qed.

(** C2, amended.  [list] on a directory whose own [locked] flag is set
    fails with permission-denied whatever the unlocked paths of the
    session are; [setLock] on a directory sets that flag, leaves the
    unlocked paths alone, and makes [list] on the same path fail so. *)
Theorem list_locked_dir_denied (session : Session) (path : list N)
  (children : list (list N * Node)) (meta : Meta) :
  VFSEngine.getNode (fs session)
    (VFSEngine.resolvePath (currentPath session) path)
    = Some (Dir children meta) ->
  (locked meta = true ->
     VFSEngine.list session path = Throw (PermissionDenied path))
  /\ (exists session',
        VFSEngine.setLock path true session
          = (Ok (VFSEngine.resolvePath (currentPath session) path, true),
             session')
        /\ unlockedPaths session' = unlockedPaths session
        /\ VFSEngine.getNode (fs session')
             (VFSEngine.resolvePath (currentPath session') path)
           = Some (Dir children (VFSEngine.set_locked true meta))
        /\ VFSEngine.list session' path = Throw (PermissionDenied path)
        /\ isPermissionDenied (PermissionDenied path) = true).
Proof.
  intros Hnode. split.
  - intros Hlock. unfold VFSEngine.list. rewrite Hnode, Hlock. reflexivity.
  - unfold VFSEngine.setLock, bind, get, modify, ret. rewrite Hnode.
    eexists. split; [reflexivity|]. simpl.
    assert (Hnew : VFSEngine.getNode
      (VFSEngine.updateAt
         (VFSEngine.segments (VFSEngine.resolvePath (currentPath session) path))
         (VFSEngine.mapMeta (VFSEngine.set_locked true)) (fs session))
      (VFSEngine.resolvePath (currentPath session) path)
      = Some (Dir children (VFSEngine.set_locked true meta))).
    { rewrite getNode_updateAt, Hnode. reflexivity. }
    split; [reflexivity|]. split; [exact Hnew|]. split; [|reflexivity].
    unfold VFSEngine.list. simpl. rewrite Hnew. reflexivity.
Qed.

Lemma list_locked_dir_denied_witness :
  exists session',
    VFSEngine.setLock (js "/a") true nestedSession
      = (Ok (js "/a", true), session')
    /\ VFSEngine.list session' (js "/a") = Throw (PermissionDenied (js "/a")).
Proof.
  destruct (list_locked_dir_denied nestedSession (js "/a")
              [ (js "b", Dir [] emptyMeta) ] emptyMeta eq_refl)
    as [_ (session' & Hset & _ & _ & Hlist & _)].
  exists session'. split; [exact Hset | exact Hlist].
Defined.

(** ** The security AI *)











(** ** Renaming, moving and searching *)

(** C9.  [rename] throws the conflict error when the new name is already a
    child of the parent directory of an existing source, and [move] throws
    it when the target directory already holds a child with the name of
    the source; either way the session, and with it the tree, is left as
    it was. *)
Theorem rename_move_conflict (session : Session) :
  (forall path newName children meta node existing,
     let parts :=
       VFSEngine.segments (VFSEngine.resolvePath (currentPath session) path) in
     VFSEngine.getNode (fs session) (VFSEngine.joinPath (removelast parts))
       = Some (Dir children meta) ->
     getChild (VFSEngine.popName parts) children = Some node ->
     getChild newName children = Some existing ->
     VFSEngine.rename path newName session
       = (Throw (AlreadyExists newName), session)
     /\ isConflict (AlreadyExists newName) = true)
  /\ (forall sourcePath targetPath sourceNode children meta existing,
        let sourceName :=
          VFSEngine.popName
            (VFSEngine.segments
               (VFSEngine.resolvePath (currentPath session) sourcePath)) in
        VFSEngine.getNode (fs session)
          (VFSEngine.resolvePath (currentPath session) sourcePath)
          = Some sourceNode ->
        VFSEngine.getNode (fs session)
          (VFSEngine.resolvePath (currentPath session) targetPath)
          = Some (Dir children meta) ->
        getChild sourceName children = Some existing ->
        VFSEngine.move sourcePath targetPath session
          = (Throw (AlreadyExistsInTarget sourceName), session)
        /\ isConflict (AlreadyExistsInTarget sourceName) = true).
Proof.
  split.
  - intros path newName children meta node existing parts Hparent Hold Hnew.
    split; [|reflexivity].
    unfold VFSEngine.rename, bind, get, throw. fold parts.
    rewrite Hparent, Hold, Hnew. reflexivity.
  - intros sourcePath targetPath sourceNode children meta existing sourceName
      Hsrc Htgt Hc.
    split; [|reflexivity].
    unfold VFSEngine.move, bind, get, throw. rewrite Hsrc, Htgt.
    fold sourceName. rewrite Hc. reflexivity.
Qed.

Lemma rename_move_conflict_witness :
  VFSEngine.rename (js "/readme") (js "vault") vaultSession
    = (Throw (AlreadyExists (js "vault")), vaultSession)
  /\ VFSEngine.move (js "/vault/plan.txt") (js "/") vaultSession
     = (Throw (AlreadyExistsInTarget (js "plan.txt")), vaultSession).
Proof.
  split.
  - apply (proj1 (rename_move_conflict vaultSession) (js "/readme")
             (js "vault") vaultChildren emptyMeta
             (File (js "nothing here") emptyMeta) vaultDir);
      vm_compute; reflexivity.
  - apply (proj2 (rename_move_conflict vaultSession) (js "/vault/plan.txt")
             (js "/") (File (js "the secret plan") lockedMeta)
             vaultChildren emptyMeta (File (js "decoy") emptyMeta));
      vm_compute; reflexivity.
Defined.







(** ** Decryption *)

Lemma below_256 (P : Z -> bool) :
  forallb P (List.map Z.of_nat (seq 0 256)) = true ->
  forall z, 0 <= z < 256 -> P z = true.
Proof.
  intros H z Hz. rewrite forallb_forall in H. apply H.
  apply in_map_iff. exists (Z.to_nat z). split; [lia|].
  apply in_seq. lia.
Qed.

Lemma hexByte_parse c :
  0 <= c < 256 ->
  exists h l, hexByte c = [h; l]
    /\ isLineTerminator h = false /\ isLineTerminator l = false
    /\ parseInt [h; l] 16 = Int c.
Proof.
  intros Hc.
  pose proof (below_256
    (fun c => match hexByte c with
              | [h; l] =>
                  negb (isLineTerminator h) && negb (isLineTerminator l)
                  && match parseInt [h; l] 16 with
                     | Int v => v =? c
                     | _ => false
                     end
              | _ => false
              end) ltac:(vm_compute; reflexivity) c Hc) as H.
  cbv beta in H. unfold hexByte in *. exists (hexDigit (c / 16)), (hexDigit (c mod 16)).
  split; [reflexivity|].
  apply andb_prop in H as [H H3]. apply andb_prop in H as [H1 H2].
  apply negb_true_iff in H1, H2. split; [exact H1|]. split; [exact H2|].
  destruct (parseInt _ 16) as [| |v]; try discriminate.
  apply Z.eqb_eq in H3. congruence.
Qed.

Lemma parseInt_toString_byte K :
  0 <= K < 256 -> parseInt (toString K) 10 = Int K.
Proof.
  intros HK.
  pose proof (below_256
    (fun K => match parseInt (toString K) 10 with
              | Int v => v =? K
              | _ => false
              end) ltac:(vm_compute; reflexivity) K HK) as H.
  cbv beta in H. destruct (parseInt _ 10) as [| |v]; try discriminate.
  apply Z.eqb_eq in H. congruence.
Qed.

Lemma lxor_byte a b :
  0 <= a < 256 -> 0 <= b < 256 -> 0 <= Z.lxor a b < 256.
Proof.
  intros Ha Hb. split; [apply Z.lxor_nonneg; lia|].
  destruct (Z.eq_dec (Z.lxor a b) 0) as [->|Hne]; [lia|].
  assert (Hpos : 0 < Z.lxor a b).
  { assert (0 <= Z.lxor a b) by (apply Z.lxor_nonneg; lia). lia. }
  change 256 with (2 ^ 8). apply Z.log2_lt_pow2; [exact Hpos|].
  pose proof (Z.log2_lxor a b ltac:(lia) ltac:(lia)) as Hl.
  assert (Z.log2 a < 8).
  { destruct (Z.eq_dec a 0) as [->|]; [cbn; lia|].
    apply Z.log2_lt_pow2; [lia|]. change (2 ^ 8) with 256. lia. }
  assert (Z.log2 b < 8).
  { destruct (Z.eq_dec b 0) as [->|]; [cbn; lia|].
    apply Z.log2_lt_pow2; [lia|]. change (2 ^ 8) with 256. lia. }
  lia.
Qed.

Lemma toInt32_small z : 0 <= z < 256 -> toInt32 (Int z) = z.
Proof.
  intros Hz. unfold toInt32.
  change (2 ^ 31) with 2147483648. change (2 ^ 32) with 4294967296.
  rewrite Z.mod_small by lia. lia.
Qed.

Lemma fromCharCode_small z : 0 <= z < 256 -> fromCharCode z = Z.to_N z.
Proof.
  intros Hz. unfold fromCharCode. change (2 ^ 16) with 65536.
  rewrite Z.mod_small by lia. reflexivity.
Qed.

Lemma startsWith_app p s : startsWith (p ++ s) p = true.
Proof.
  induction p as [|a p IH]; [reflexivity|]. cbn.
  rewrite N.eqb_refl, IH. reflexivity.
Qed.

Lemma replace_first_prefix p s : replace_first (p ++ s) p = s.
Proof.
  destruct p as [|a p]; [destruct s; reflexivity|].
  cbn [replace_first app].
  change (a :: p ++ s) with ((a :: p) ++ s).
  rewrite startsWith_app. rewrite drop_app_length. reflexivity.
Qed.

Lemma match_pairs_hex cs :
  Forall (fun c => 0 <= c < 256) cs ->
  match_pairs (flat_map hexByte cs) = List.map hexByte cs.
Proof.
  induction 1 as [|c cs Hc _ IH]; [reflexivity|].
  destruct (hexByte_parse c Hc) as (h & l & Hhl & Hh & Hl & _).
  cbn [flat_map List.map]. rewrite Hhl. cbn [app match_pairs].
  rewrite Hh, Hl, IH. reflexivity.
Qed.

(** What [decrypt] does on a tagged file for a key that parses. *)
Lemma decrypt_tagged session path keyText hexData meta k :
  VFSEngine.getNode (fs session)
    (VFSEngine.resolvePath (currentPath session) path)
    = Some (File (VFSEngine.xorTag ++ hexData) meta) ->
  encrypted meta = true ->
  parseInt keyText 10 = Int k ->
  let plain :=
    List.map (fun byte => fromCharCode (bitxor byte (Int k)))
      (List.map (fun hex => parseInt hex 16) (match_pairs hexData)) in
  exists session',
    VFSEngine.decrypt path keyText session = (Ok plain, session')
    /\ currentPath session' = currentPath session
    /\ VFSEngine.getNode (fs session')
         (VFSEngine.resolvePath (currentPath session) path)
       = Some (File plain (VFSEngine.set_decrypted meta)).
Proof.
  intros Hnode Henc Hkey plain.
  unfold VFSEngine.decrypt, bind, get, modify, ret, throw.
  rewrite Hnode, Henc. cbn [negb].
  rewrite startsWith_app, replace_first_prefix, Hkey. cbn [isNaN].
  eexists. split; [reflexivity|]. split; [reflexivity|].
  cbn [fs set_fs]. rewrite getNode_updateAt, Hnode. reflexivity.
Qed.

Lemma decode_bytes K k plaintext :
  0 <= K < 256 -> 0 <= k < 256 -> Forall isByte plaintext ->
  List.map (fun byte => fromCharCode (bitxor byte (Int k)))
    (List.map (fun hex => parseInt hex 16)
       (match_pairs
          (flat_map (fun b => hexByte (Z.lxor (Z.of_N b) K)) plaintext)))
  = List.map (fun b => Z.to_N (Z.lxor (Z.lxor (Z.of_N b) K) k)) plaintext.
Proof.
  intros HK Hk HP.
  induction HP as [|b bs Hb _ IH]; [reflexivity|].
  assert (Hc : 0 <= Z.lxor (Z.of_N b) K < 256).
  { apply lxor_byte; [unfold isByte in Hb; lia | exact HK]. }
  destruct (hexByte_parse _ Hc) as (h & l & Hhl & Hh & Hl & Hparse).
  cbn [flat_map List.map]. rewrite Hhl. cbn [app match_pairs].
  rewrite Hh, Hl. cbn [List.map]. rewrite IH. f_equal.
  rewrite Hparse. unfold bitxor. rewrite !toInt32_small by assumption.
  apply fromCharCode_small, lxor_byte; assumption.
Qed.

(** What [decrypt] does on a tagged file for any key that is a number,
    the infinities included. *)
Lemma decrypt_tagged_number session path keyText hexData meta :
  VFSEngine.getNode (fs session)
    (VFSEngine.resolvePath (currentPath session) path)
    = Some (File (VFSEngine.xorTag ++ hexData) meta) ->
  encrypted meta = true ->
  isNaN (parseInt keyText 10) = false ->
  let plain :=
    List.map (fun byte => fromCharCode (bitxor byte (parseInt keyText 10)))
      (List.map (fun hex => parseInt hex 16) (match_pairs hexData)) in
  exists session',
    VFSEngine.decrypt path keyText session = (Ok plain, session').
Proof.
  intros Hnode Henc Hkey plain.
  unfold VFSEngine.decrypt, bind, get, modify, ret, throw.
  rewrite Hnode, Henc. cbn [negb].
  rewrite startsWith_app, replace_first_prefix, Hkey.
  eexists. reflexivity.
Qed.

(** The low 16 bits of [c ^ t] for a code unit [c]. *)
Lemma lxor_mod_unit c t :
  0 <= c < 2 ^ 16 -> Z.lxor c t mod 2 ^ 16 = Z.lxor c (t mod 2 ^ 16).
Proof.
  intros Hc. apply Z.bits_inj'. intros m Hm.
  rewrite Z.lxor_spec.
  destruct (Z.ltb_spec m 16) as [Hlt|Hge].
  - rewrite !Z.mod_pow2_bits_low by exact Hlt.
    rewrite Z.lxor_spec. reflexivity.
  - rewrite !Z.mod_pow2_bits_high by lia.
    rewrite <- (Z.mod_small c (2 ^ 16)) by exact Hc.
    rewrite Z.mod_pow2_bits_high by lia. reflexivity.
Qed.

Lemma keyUnit_range key : 0 <= keyUnit key < 2 ^ 16.
Proof. unfold keyUnit. apply Z.mod_pos_bound. reflexivity. Qed.

(** For a key that parses to an integer, the key unit is the remainder by
    65536. *)
Lemma keyUnit_Int k : keyUnit (Int k) = k mod 65536.
Proof.
  unfold keyUnit, toInt32. change (2 ^ 16) with 65536.
  change (2 ^ 31) with (32768 * 65536).
  change (2 ^ 32) with (65536 * 65536).
  rewrite Zminus_mod, Z.mod_mul, Z.sub_0_r, Z.mod_mod by lia.
  rewrite Z.mod_mod_divide by (exists 65536; reflexivity).
  rewrite Z.mod_add by lia. reflexivity.
Qed.

Lemma decode_bytes_number K key plaintext :
  0 <= K < 256 -> Forall isByte plaintext ->
  List.map (fun byte => fromCharCode (bitxor byte key))
    (List.map (fun hex => parseInt hex 16)
       (match_pairs
          (flat_map (fun b => hexByte (Z.lxor (Z.of_N b) K)) plaintext)))
  = List.map (fun b => Z.to_N (Z.lxor (Z.lxor (Z.of_N b) K) (keyUnit key)))
      plaintext.
Proof.
  intros HK HP.
  induction HP as [|b bs Hb _ IH]; [reflexivity|].
  assert (Hc : 0 <= Z.lxor (Z.of_N b) K < 256).
  { apply lxor_byte; [unfold isByte in Hb; lia | exact HK]. }
  destruct (hexByte_parse _ Hc) as (h & l & Hhl & Hh & Hl & Hparse).
  cbn [flat_map List.map]. rewrite Hhl. cbn [app match_pairs].
  rewrite Hh, Hl. cbn [List.map]. rewrite IH. f_equal.
  rewrite Hparse. unfold bitxor, fromCharCode, keyUnit.
  rewrite toInt32_small by assumption.
  rewrite lxor_mod_unit by (change (2 ^ 16) with 65536; lia).
  reflexivity.
Qed.

(** A text XOR-ed with [K] and then with [u] comes back when [u] is [K],
    and differs at every position otherwise. *)
Lemma xor_twice K u plaintext :
  0 <= K -> 0 <= u ->
  (u = K ->
   List.map (fun b => Z.to_N (Z.lxor (Z.lxor (Z.of_N b) K) u)) plaintext
   = plaintext)
  /\ (u <> K ->
      Forall2 (fun g b => g <> b)
        (List.map (fun b => Z.to_N (Z.lxor (Z.lxor (Z.of_N b) K) u)) plaintext)
        plaintext).
Proof.
  intros HK Hu. split.
  - intros ->. rewrite <- (map_id plaintext) at 2. apply map_ext. intros b.
    rewrite Z.lxor_assoc, Z.lxor_nilpotent, Z.lxor_0_r. apply N2Z.id.
  - intros Hne. induction plaintext as [|b bs IH]; constructor; [|exact IH].
    intros Heq. apply (f_equal Z.of_N) in Heq.
    rewrite Z2N.id in Heq
      by (apply Z.lxor_nonneg; split; intros _;
          [exact Hu | apply Z.lxor_nonneg; lia]).
    rewrite Z.lxor_assoc in Heq.
    assert (Hz : Z.lxor K u = 0).
    { transitivity (Z.lxor (Z.of_N b) (Z.lxor (Z.of_N b) (Z.lxor K u))).
      - rewrite <- Z.lxor_assoc, Z.lxor_nilpotent, Z.lxor_0_l. reflexivity.
      - rewrite Heq. apply Z.lxor_nilpotent. }
    apply Z.lxor_eq in Hz. congruence.
Qed.

(** C7, as stated, fails for wrong keys outside [0, 255]: the file that
    holds FLAG under key 42 decrypts to FLAG with the key 65578 too, which
    is 42 + 65536. *)
Lemma decrypt_wrong_key_returns_plaintext :
  parseInt (js "65578") 10 = Int 65578
  /\ 65578 <> 42
  /\ VFSEngine.getNode (fs secretSession) (js "/sec/secret.bin")
     = Some (File (xorEncrypt 42 (js "FLAG")) secretMeta)
  /\ fst (VFSEngine.decrypt (js "/sec/secret.bin") (js "65578") secretSession)
     = Ok (js "FLAG").
Proof.
  split; [vm_compute; reflexivity|]. split; [lia|].
  split; vm_compute; reflexivity.
Qed.

(** C7, amended.  For a plaintext of bytes and a key K in [0, 255],
    decrypting the file that holds the tagged hexadecimal encoding of the
    plaintext XOR-ed with K, with the decimal text of K as the key,
    returns the plaintext and leaves it as the contents of the file, with
    [encrypted] cleared and [decrypted] set.  With any other key text
    that parses as a number the call succeeds as well, without an error,
    and returns a text of the same length: the plaintext again when the
    low 16 bits of the key are K (for an integer key, when its remainder
    by 65536 is K), and a text that differs from the plaintext at every
    position otherwise. *)
Theorem decrypt_inverts_xor (session : Session) (path : list N)
  (plaintext : list N) (K : Z) (meta : Meta) :
  Forall isByte plaintext ->
  0 <= K <= 255 ->
  VFSEngine.getNode (fs session)
    (VFSEngine.resolvePath (currentPath session) path)
    = Some (File (xorEncrypt K plaintext) meta) ->
  encrypted meta = true ->
  (exists session',
     VFSEngine.decrypt path (toString K) session = (Ok plaintext, session')
     /\ VFSEngine.getNode (fs session')
          (VFSEngine.resolvePath (currentPath session') path)
        = Some (File plaintext (VFSEngine.set_decrypted meta))
     /\ encrypted (VFSEngine.set_decrypted meta) = false
     /\ decrypted (VFSEngine.set_decrypted meta) = true)
  /\ (forall keyText,
        isNaN (parseInt keyText 10) = false ->
        exists text session',
          VFSEngine.decrypt path keyText session = (Ok text, session')
          /\ length text = length plaintext
          /\ (keyUnit (parseInt keyText 10) = K -> text = plaintext)
          /\ (keyUnit (parseInt keyText 10) <> K ->
              Forall2 (fun g b => g <> b) text plaintext))
  /\ (forall keyText k,
        parseInt keyText 10 = Int k ->
        isNaN (parseInt keyText 10) = false
        /\ keyUnit (parseInt keyText 10) = k mod 65536).
Proof.
  intros HP HK Hnode Henc. unfold xorEncrypt in Hnode.
  split; [|split].
  - destruct (decrypt_tagged session path (toString K) _ meta K Hnode Henc
                (parseInt_toString_byte K ltac:(lia)))
      as (session' & Hdec & Hcur & Hnode').
    exists session'. rewrite Hcur.
    rewrite decode_bytes in Hdec, Hnode' by (assumption || lia).
    assert (Hid : List.map
      (fun b => Z.to_N (Z.lxor (Z.lxor (Z.of_N b) K) K)) plaintext = plaintext).
    { apply (xor_twice K K plaintext); lia. }
    rewrite Hid in Hdec, Hnode'.
    split; [exact Hdec|]. split; [exact Hnode'|]. split; reflexivity.
  - intros keyText Hkey.
    destruct (decrypt_tagged_number session path keyText _ meta Hnode Henc
                Hkey) as (session' & Hdec).
    rewrite decode_bytes_number in Hdec by (assumption || lia).
    pose proof (keyUnit_range (parseInt keyText 10)) as Hu.
    destruct (xor_twice K (keyUnit (parseInt keyText 10)) plaintext
                ltac:(lia) ltac:(lia)) as [Hsame Hdiff].
    do 2 eexists. split; [exact Hdec|].
    split; [apply length_map|]. split; assumption.
  - intros keyText k Hkey. rewrite Hkey. split; [reflexivity|].
    apply keyUnit_Int.
Qed.

Lemma decrypt_inverts_xor_witness :
  exists session',
    VFSEngine.decrypt (js "/sec/secret.bin") (js "42") secretSession
      = (Ok (js "FLAG"), session')
    /\ VFSEngine.getNode (fs session') (js "/sec/secret.bin")
       = Some (File (js "FLAG") (VFSEngine.set_decrypted secretMeta)).
Proof.
  assert (Hbytes : Forall isByte (js "FLAG")).
  { repeat constructor. }
  destruct (decrypt_inverts_xor secretSession (js "/sec/secret.bin")
              (js "FLAG") 42 secretMeta Hbytes ltac:(lia) eq_refl eq_refl)
    as [(session' & Hdec & Hnode & _) _].
  exists session'. split; [exact Hdec|].
  replace (currentPath session') with (js "/") in Hnode; [exact Hnode|].
  apply (f_equal snd) in Hdec. cbn [snd] in Hdec. subst session'.
  reflexivity.
Defined.

(** ** Deleting a security file *)

Lemma fold_left_union (f : nat -> list N) (l : list nat) :
  forall u : gset (list N),
    fold_left (fun u i => u ∪ {[ f i ]}) l u = u ∪ list_to_set (List.map f l).
Proof.
  induction l as [|i l IH]; intros u; cbn.
  - set_solver.
  - rewrite IH. set_solver.
Qed.

Lemma unlockOne_holds t p x :
  holds (VFSEngine.unlockOne t p) x
  <-> holds t x \/ x = p \/ In x (segmentPrefixes p).
Proof.
  unfold holds, VFSEngine.unlockOne. cbn [unlockedPaths set_unlockedPaths].
  rewrite fold_left_union. fold (segmentPrefixes p).
  split.
  - intros (U & [= <-] & Hx).
    apply elem_of_union in Hx as [Hx|Hx].
    + apply elem_of_union in Hx as [Hx|Hx].
      * left. destruct (unlockedPaths t) as [U0|]; cbn in Hx.
        -- exists U0. split; [reflexivity | exact Hx].
        -- apply not_elem_of_empty in Hx. contradiction.
      * right. left. apply elem_of_singleton in Hx. exact Hx.
    + right. right. apply elem_of_list_to_set in Hx.
      apply list_elem_of_In. exact Hx.
  - intros H. eexists. split; [reflexivity|].
    destruct H as [(U0 & HU & Hx)|[->|Hx]].
    + rewrite HU. cbn. set_solver.
    + set_solver.
    + apply elem_of_union_r, elem_of_list_to_set, list_elem_of_In, Hx.
Qed.

Lemma unlockAll_holds unlocks : forall t x,
  holds (VFSEngine.unlockAll unlocks t) x <-> holds t x \/ added unlocks x.
Proof.
  unfold VFSEngine.unlockAll.
  induction unlocks as [|p unlocks IH]; intros t x; cbn [fold_left].
  - split; [intros H; left; exact H|].
    intros [H|(p & [] & _)]. exact H.
  - rewrite IH, unlockOne_holds. unfold added. split.
    + intros [[H|H]|(q & Hq & H)].
      * left. exact H.
      * right. exists p. split; [left; reflexivity | exact H].
      * right. exists q. split; [right; exact Hq | exact H].
    + intros [H|(q & [<-|Hq] & H)].
      * left. left. exact H.
      * left. right. exact H.
      * right. exists q. split; assumption.
Qed.


Lemma getSession_Some sessions sid t :
  SessionManager.getSession sessions sid = Some t -> In t sessions /\ id t = sid.
Proof.
  induction sessions as [|s rest IH]; cbn; [discriminate|].
  destruct (decide (id s = sid)) as [Hs|_].
  - intros [= <-]. split; [left; reflexivity | exact Hs].
  - intros H. destruct (IH H) as [Hin Hid]. split; [right; exact Hin | exact Hid].
Qed.

Lemma getSession_None sessions sid :
  SessionManager.getSession sessions sid = None ->
  forall t, In t sessions -> id t <> sid.
Proof.
  induction sessions as [|s rest IH]; cbn; [intros _ t []|].
  destruct (decide (id s = sid)) as [|Hs]; [discriminate|].
  intros H t [<-|Hin]; [exact Hs | apply IH; assumption].
Qed.

Lemma same_id_same_session (sessions : list Session) t t' :
  List.NoDup (List.map id sessions) ->
  In t sessions -> In t' sessions -> id t = id t' -> t = t'.
Proof.
  induction sessions as [|s rest IH]; intros Hnd Ht Ht' Hid; [destruct Ht|].
  cbn in Hnd. apply List.NoDup_cons_iff in Hnd as [Hs Hnd].
  destruct Ht as [<-|Ht], Ht' as [<-|Ht'].
  - reflexivity.
  - exfalso. apply Hs. rewrite Hid. apply in_map, Ht'.
  - exfalso. apply Hs. rewrite <- Hid. apply in_map, Ht.
  - apply IH; assumption.
Qed.





Lemma getChild_deleteChild name ch : getChild name (deleteChild name ch) = None.
Proof.
  induction ch as [|[k v] ch IH]; cbn; [reflexivity|].
  destruct (decide (k = name)) as [|Hne]; [exact IH|].
  cbn. destruct (decide (k = name)); [contradiction | exact IH].
Qed.






(** ** Puzzles *)

(** C8 on the code: the session records the puzzle as solved, yet
    [checkDecrypt] validates the key again and runs the success effects
    again (the AI level rises by 2 and the flag file is added), because it
    reads the [solved] property of the puzzle definition, which nothing
    sets, and not the puzzle state of the session; [checkTrigger], on the
    same session and trigger, skips the puzzle. *)
Theorem checkDecrypt_reruns_solved_puzzle :
  puzzleState solvedSession !! js "flag" = Some true
  /\ (exists session',
        PuzzleEngine.checkDecrypt noFunction [ flagPuzzle ]
          (js "/sec/secret.bin") (js "42") solvedSession
          = (Ok tt, session')
        /\ level (aiState session') = (level (aiState solvedSession) + 2)%num
        /\ VFSEngine.getNode (fs solvedSession) (js "/flag.txt") = None
        /\ VFSEngine.getNode (fs session') (js "/flag.txt")
           = Some (File (js "FLAG{done}") emptyMeta))
  /\ PuzzleEngine.checkTrigger [ flagPuzzle ] (js "decrypt")
       (js "/sec/secret.bin") solvedSession
     = (Ok tt, solvedSession).
Proof.
  split; [vm_compute; reflexivity|]. split.
  - eexists. split; [vm_compute; reflexivity|].
    repeat split; vm_compute; reflexivity.
  - vm_compute. reflexivity.
Qed.

(** ** Files: adding, deleting and renaming *)

Lemma segments_plain path : Forall plainSegment (VFSEngine.segments path).
Proof.
  apply Forall_forall. intros w Hw. split.
  - pose proof (segments_truthy path) as H.
    rewrite Forall_forall in H. apply H, Hw.
  - pose proof (segments_no_slash path) as H.
    rewrite Forall_forall in H. apply H, Hw.
Qed.

Lemma filter_truthy_plain parts :
  Forall plainSegment parts -> List.filter truthy parts = parts.
Proof.
  induction 1 as [|w ws [Hw _] _ IH]; [reflexivity|].
  cbn. rewrite Hw, IH. reflexivity.
Qed.

Lemma segments_joinPath parts :
  Forall plainSegment parts ->
  VFSEngine.segments (VFSEngine.joinPath parts) = parts.
Proof.
  intros H. unfold VFSEngine.segments, VFSEngine.joinPath.
  cbn [split]. unfold slash at 1. rewrite N.eqb_refl. cbn [List.filter truthy].
  destruct parts as [|p ps]; [reflexivity|].
  rewrite split_join.
  - apply filter_truthy_plain, H.
  - discriminate.
  - eapply Forall_impl; [exact H|]. intros w [_ Hw]. exact Hw.
Qed.

Lemma join_snoc parts name :
  parts <> [] ->
  join [slash] (parts ++ [name]) = join [slash] parts ++ slash :: name.
Proof.
  induction parts as [|p ps IH]; intros Hne; [congruence|].
  destruct ps as [|q qs]; [reflexivity|].
  change (join [slash] ((p :: q :: qs) ++ [name]))
    with (p ++ [slash] ++ join [slash] ((q :: qs) ++ [name])).
  rewrite IH by discriminate.
  change (join [slash] (p :: q :: qs))
    with (p ++ [slash] ++ join [slash] (q :: qs)).
  rewrite <- !app_assoc. reflexivity.
Qed.

Lemma join_plain_nil parts :
  Forall plainSegment parts -> join [slash] parts = [] -> parts = [].
Proof.
  intros H Hj. destruct parts as [|p ps]; [reflexivity|].
  inversion H as [|? ? [Hp _] _]; subst.
  destruct p as [|c p]; [discriminate Hp|].
  destruct ps; discriminate Hj.
Qed.

(** The path the operations build for a child is the joined path of the
    segments with the child name added. *)
Lemma childPath_joinPath parts name :
  Forall plainSegment parts ->
  (if decide (VFSEngine.joinPath parts = js "/") then slash :: name
   else VFSEngine.joinPath parts ++ slash :: name)
  = VFSEngine.joinPath (parts ++ [name]).
Proof.
  intros H. unfold VFSEngine.joinPath.
  destruct (decide (slash :: join [slash] parts = js "/")) as [E|E].
  - injection E as E. apply (join_plain_nil _ H) in E. subst. reflexivity.
  - destruct parts as [|p ps]; [exfalso; apply E; reflexivity|].
    rewrite join_snoc by discriminate. reflexivity.
Qed.

Lemma walk_app root a b :
  VFSEngine.walk root (a ++ b)
  = match VFSEngine.walk root a with
    | Some n => VFSEngine.walk n b
    | None => None
    end.
Proof.
  revert root. induction a as [|p a IH]; intros root; [reflexivity|].
  cbn. destruct root as [c m|ch m]; [reflexivity|].
  destruct (getChild p ch); [apply IH | reflexivity].
Qed.

Lemma removelast_popName parts :
  parts <> [] -> parts = removelast parts ++ [VFSEngine.popName parts].
Proof.
  induction parts as [|p ps IH]; intros Hne; [congruence|].
  destruct ps as [|q qs]; [reflexivity|].
  change (removelast (p :: q :: qs)) with (p :: removelast (q :: qs)).
  cbn [app]. f_equal.
  rewrite IH at 1 by discriminate. reflexivity.
Qed.

Lemma getChild_setChild name node ch :
  getChild name (setChild name node ch) = Some node.
Proof.
  induction ch as [|[k v] ch IH]; cbn.
  - destruct (decide (name = name)); [reflexivity | congruence].
  - destruct (decide (k = name)) as [->|Hne]; cbn.
    + destruct (decide (name = name)); [reflexivity | congruence].
    + destruct (decide (k = name)); [congruence | exact IH].
Qed.

Lemma getChild_setChild_ne name other node ch :
  other <> name ->
  getChild other (setChild name node ch) = getChild other ch.
Proof.
  intros Hne. induction ch as [|[k v] ch IH]; cbn.
  - destruct (decide (name = other)); [congruence | reflexivity].
  - destruct (decide (k = name)) as [->|Hk]; cbn.
    + destruct (decide (name = other)); [congruence | reflexivity].
    + destruct (decide (k = other)); [reflexivity | exact IH].
Qed.

Lemma getChild_deleteChild_ne name other ch :
  other <> name ->
  getChild other (deleteChild name ch) = getChild other ch.
Proof.
  intros Hne. induction ch as [|[k v] ch IH]; cbn; [reflexivity|].
  destruct (decide (k = name)) as [->|Hk]; cbn.
  - destruct (decide (name = other)); [congruence | exact IH].
  - destruct (decide (k = other)); [reflexivity | exact IH].
Qed.

(** The node at [parts] after an update of its parent directory. *)
Lemma walk_parent_update root parts f children meta :
  parts <> [] ->
  VFSEngine.walk root (removelast parts) = Some (Dir children meta) ->
  VFSEngine.walk
    (VFSEngine.updateAt (removelast parts) (VFSEngine.mapChildren f) root)
    parts
  = getChild (VFSEngine.popName parts) (f children).
Proof.
  intros Hne Hparent.
  rewrite (removelast_popName parts Hne) at 2.
  rewrite walk_app, walk_updateAt, Hparent. cbn.
  destruct (getChild _ (f children)); reflexivity.
Qed.

(** X1.  A file added under an existing directory is found again: the
    path [addFile] returns resolves to a file with the contents and the
    metadata written, and [readFile] returns them when the path is
    unlocked and the metadata does not lock it; [writeFile] does the
    same. *)
Theorem addFile_then_getNode (session : Session) (path contents : list N)
  (meta : Meta) (children : list (list N * Node)) (dirMeta : Meta) :
  let resolved := VFSEngine.resolvePath (currentPath session) path in
  let parts := VFSEngine.segments resolved in
  parts <> [] ->
  VFSEngine.getNode (fs session) (VFSEngine.joinPath (removelast parts))
    = Some (Dir children dirMeta) ->
  exists session',
    VFSEngine.addFile path contents meta session = (Ok resolved, session')
    /\ VFSEngine.writeFile path contents meta session = (Ok resolved, session')
    /\ VFSEngine.getNode (fs session') resolved = Some (File contents meta)
    /\ (locked meta = false ->
        VFSEngine.isPathUnlocked session resolved = true ->
        VFSEngine.readFile session' path = Ok (contents, meta)).
Proof.
  intros resolved parts Hne Hdir.
  assert (Hplain : Forall plainSegment (removelast parts)).
  { apply Forall_removelast, segments_plain. }
  unfold VFSEngine.writeFile, VFSEngine.addFile, bind, get, modify, ret.
  fold resolved. fold parts. rewrite Hdir.
  eexists. split; [reflexivity|]. split; [reflexivity|].
  cbn [fs set_fs].
  assert (Hnode : VFSEngine.getNode
    (VFSEngine.updateAt
       (VFSEngine.segments (VFSEngine.joinPath (removelast parts)))
       (VFSEngine.mapChildren
          (setChild (VFSEngine.popName parts) (File contents meta)))
       (fs session)) resolved = Some (File contents meta)).
  { rewrite getNode_walk. fold parts.
    rewrite segments_joinPath by exact Hplain.
    rewrite getNode_walk, segments_joinPath in Hdir by exact Hplain.
    rewrite (walk_parent_update _ _ _ _ _ Hne Hdir).
    apply getChild_setChild. }
  split; [exact Hnode|].
  intros Hlock Hunl. unfold VFSEngine.readFile. cbn [currentPath set_fs fs].
  fold resolved. rewrite Hnode, Hlock.
  unfold VFSEngine.isPathUnlocked in *. cbn [unlockedPaths set_fs].
  rewrite Hunl. reflexivity.
Qed.

Lemma addFile_then_getNode_witness :
  exists session',
    VFSEngine.addFile (js "/vault/notes.txt") (js "key is 42") emptyMeta
      vaultSession = (Ok (js "/vault/notes.txt"), session')
    /\ VFSEngine.getNode (fs session') (js "/vault/notes.txt")
       = Some (File (js "key is 42") emptyMeta).
Proof.
  destruct (addFile_then_getNode vaultSession (js "/vault/notes.txt")
              (js "key is 42") emptyMeta
              [ (js "plan.txt", File (js "the secret plan") lockedMeta) ]
              lockedMeta ltac:(discriminate) eq_refl)
    as (session' & Hadd & _ & Hnode & _).
  exists session'. split; [exact Hadd | exact Hnode].
Defined.

(** X2.  A path without segments names no file: [addFile] on the root
    path of a root directory stores the file under the name [undefined]
    and returns a path that resolves to the root, not to the file. *)
Theorem addFile_at_root_names_undefined (session : Session)
  (path contents : list N) (meta : Meta)
  (children : list (list N * Node)) (rootMeta : Meta) :
  let resolved := VFSEngine.resolvePath (currentPath session) path in
  VFSEngine.segments resolved = [] ->
  fs session = Dir children rootMeta ->
  exists session',
    VFSEngine.addFile path contents meta session = (Ok resolved, session')
    /\ fs session'
       = Dir (setChild (js "undefined") (File contents meta) children) rootMeta
    /\ VFSEngine.getNode (fs session') (js "/undefined")
       = Some (File contents meta)
    /\ VFSEngine.getNode (fs session') resolved = Some (fs session').
Proof.
  intros resolved Hparts Hroot.
  unfold VFSEngine.addFile, bind, get, modify, ret.
  fold resolved. rewrite Hparts. cbn [removelast VFSEngine.popName last].
  change (VFSEngine.joinPath []) with (js "/").
  change (VFSEngine.getNode (fs session) (js "/")) with (Some (fs session)).
  rewrite Hroot.
  eexists. split; [reflexivity|]. cbn [fs set_fs].
  change (VFSEngine.segments (js "/")) with (@nil (list N)).
  cbn [VFSEngine.updateAt]. rewrite Hroot. cbn [VFSEngine.mapChildren].
  split; [reflexivity|]. split.
  - rewrite getNode_walk.
    change (VFSEngine.segments (js "/undefined")) with [js "undefined"].
    cbn [VFSEngine.walk]. rewrite getChild_setChild. reflexivity.
  - rewrite getNode_walk, Hparts. reflexivity.
Qed.

Lemma addFile_at_root_names_undefined_witness :
  exists session',
    VFSEngine.addFile (js "/") (js "x") emptyMeta nestedSession
      = (Ok (js "/"), session')
    /\ VFSEngine.getNode (fs session') (js "/undefined")
       = Some (File (js "x") emptyMeta).
Proof.
  destruct (addFile_at_root_names_undefined nestedSession (js "/") (js "x")
              emptyMeta
              [ (js "a", Dir [ (js "b", Dir [] emptyMeta) ] emptyMeta) ]
              emptyMeta eq_refl eq_refl)
    as (session' & Hadd & _ & Hnode & _).
  exists session'. split; [exact Hadd | exact Hnode].
Defined.

(** X3.  Deleting a node that is not a security file (no [securityFile]
    flag, or no [unlocksPaths]) changes the deleting session alone: the
    path no longer resolves, and the unlocked paths, the session metadata
    and every other session are as before.  Deleting the same path again
    throws no-such-file and changes nothing.  The name deleted is one that
    [Object.prototype] does not define: under such a name a read of the
    directory still finds the built-in after the entry is gone. *)
Theorem delete_plain_node (sessions : list Session) (i : nat)
  (session : Session) (path : list N) (children : list (list N * Node))
  (pmeta : Meta) (node : Node) :
  let resolved := VFSEngine.resolvePath (currentPath session) path in
  let parts := VFSEngine.segments resolved in
  let parentPath := VFSEngine.joinPath (removelast parts) in
  let name := VFSEngine.popName parts in
  sessions !! i = Some session ->
  parts <> [] ->
  inherited name = false ->
  VFSEngine.getNode (fs session) parentPath = Some (Dir children pmeta) ->
  getChild name children = Some node ->
  securityFile (nodeMeta node) = false \/ unlocksPaths (nodeMeta node) = None ->
  exists session' children',
    VFSEngine.delete i path sessions
      = (Ok resolved, <[ i := session' ]> sessions)
    /\ VFSEngine.getNode (fs session') parentPath
       = Some (Dir children' pmeta)
    /\ absent name children'
    /\ VFSEngine.getNode (fs session') resolved = None
    /\ unlockedPaths session' = unlockedPaths session
    /\ sessionMeta session' = sessionMeta session
    /\ VFSEngine.delete i path (<[ i := session' ]> sessions)
       = (Throw (NoSuchFileOrDirectory path), <[ i := session' ]> sessions).
Proof.
  intros resolved parts parentPath name Hi Hne Hown Hparent Hchild Hplain.
  assert (Hsegs : Forall plainSegment (removelast parts)).
  { apply Forall_removelast, segments_plain. }
  assert (Hlen : (i < length sessions)%nat) by (eapply lookup_lt_Some, Hi).
  set (session' := set_fs (VFSEngine.updateAt (VFSEngine.segments parentPath)
                     (VFSEngine.mapChildren (deleteChild name))) session).
  assert (Hparent' : VFSEngine.getNode (fs session') parentPath
                     = Some (Dir (deleteChild name children) pmeta)).
  { unfold session'. cbn [fs set_fs]. rewrite getNode_updateAt, Hparent.
    reflexivity. }
  exists session', (deleteChild name children).
  split; [|split; [exact Hparent'|];
           split; [split; [apply getChild_deleteChild | exact Hown]|];
           split; [|split; [|split]]].
  - unfold VFSEngine.delete. unfold bind at 1, get at 1. rewrite Hi.
    fold resolved. fold parts. fold name. fold parentPath.
    rewrite Hparent, Hchild.
    assert (Hskip :
      match securityFile (nodeMeta node), unlocksPaths (nodeMeta node) with
      | true, Some unlocks =>
          let* unlockedSessionIds :=
            VFSEngine.unlockTargets (id session) unlocks
              (default [] (targetUsers (nodeMeta node)))
              (SessionManager.getAllSessions sessions) [] in
          VFSEngine.modifyAt i (set_sessionMeta (Some
            {| recentlyUnlockedSessions := unlockedSessionIds;
               recentlyUnlockedPaths := unlocks |}))
      | _, _ => ret tt
      end = ret tt).
    { destruct Hplain as [-> | ->]; [reflexivity|].
      destruct (securityFile (nodeMeta node)); reflexivity. }
    rewrite Hskip. unfold bind, ret, VFSEngine.modifyAt, modify.
    rewrite Hi. reflexivity.
  - unfold session'. cbn [fs set_fs]. rewrite getNode_walk. fold parts.
    unfold parentPath. rewrite segments_joinPath by exact Hsegs.
    unfold parentPath in Hparent.
    rewrite getNode_walk, segments_joinPath in Hparent by exact Hsegs.
    rewrite (walk_parent_update _ _ _ _ _ Hne Hparent).
    apply getChild_deleteChild.
  - reflexivity.
  - reflexivity.
  - unfold VFSEngine.delete. unfold bind at 1, get at 1.
    rewrite list_lookup_insert_eq by exact Hlen.
    change (currentPath session') with (currentPath session).
    fold resolved. fold parts. fold name. fold parentPath.
    rewrite Hparent', getChild_deleteChild. reflexivity.
Qed.

Lemma delete_plain_node_witness :
  exists session',
    VFSEngine.delete 0 (js "/readme") [ vaultSession; nestedSession ]
      = (Ok (js "/readme"), [ session'; nestedSession ])
    /\ VFSEngine.getNode (fs session') (js "/readme") = None.
Proof.
  destruct (delete_plain_node [ vaultSession; nestedSession ] 0 vaultSession
              (js "/readme") vaultChildren emptyMeta
              (File (js "nothing here") emptyMeta)
              eq_refl ltac:(discriminate) eq_refl eq_refl eq_refl
              (or_introl eq_refl))
    as (session' & children' & Hdel & _ & _ & Hgone & _).
  exists session'. split; [exact Hdel | exact Hgone].
Defined.

(** X4.  A successful [rename] keeps the node and moves its name: when
    the directory reads nothing under the new name (no entry, and no
    property that [Object.prototype] defines), the new name holds the node
    the old name held, the old name reads nothing, and every other name
    holds what it did; when the new name is not empty and has no slash,
    the path returned resolves to the node. *)
Theorem rename_relinks (session : Session) (path newName : list N)
  (children : list (list N * Node)) (pmeta : Meta) (node : Node) :
  let parts :=
    VFSEngine.segments (VFSEngine.resolvePath (currentPath session) path) in
  let parentPath := VFSEngine.joinPath (removelast parts) in
  let oldName := VFSEngine.popName parts in
  VFSEngine.getNode (fs session) parentPath = Some (Dir children pmeta) ->
  getChild oldName children = Some node ->
  inherited oldName = false ->
  absent newName children ->
  exists newPath session' children',
    VFSEngine.rename path newName session = (Ok newPath, session')
    /\ VFSEngine.getNode (fs session') parentPath
       = Some (Dir children' pmeta)
    /\ getChild newName children' = Some node
    /\ absent oldName children'
    /\ (forall other, other <> oldName -> other <> newName ->
          getChild other children' = getChild other children)
    /\ (plainSegment newName ->
        VFSEngine.getNode (fs session') newPath = Some node).
Proof.
  intros parts parentPath oldName Hparent Hold Hown [Hnew Hfree].
  assert (Hsegs : Forall plainSegment (removelast parts)).
  { apply Forall_removelast, segments_plain. }
  assert (Hdiff : newName <> oldName) by congruence.
  unfold VFSEngine.rename, bind, get, modify, ret.
  fold parts. fold oldName. fold parentPath.
  rewrite Hparent, Hold, Hnew.
  do 3 eexists. split; [reflexivity|]. cbn [fs set_fs].
  split; [rewrite getNode_updateAt, Hparent; reflexivity|].
  split; [rewrite getChild_deleteChild_ne by exact Hdiff;
          apply getChild_setChild|].
  split; [split; [apply getChild_deleteChild | exact Hown]|].
  split.
  - intros other H1 H2. rewrite getChild_deleteChild_ne by exact H1.
    apply getChild_setChild_ne, H2.
  - intros Hplain. unfold parentPath in *.
    rewrite childPath_joinPath by exact Hsegs.
    assert (Hs1 : VFSEngine.segments
                    (VFSEngine.joinPath (removelast parts ++ [newName]))
                  = removelast parts ++ [newName]).
    { apply segments_joinPath, Forall_app. split; [exact Hsegs|].
      constructor; [exact Hplain | constructor]. }
    pose proof (segments_joinPath _ Hsegs) as Hs2.
    rewrite getNode_walk, Hs2 in Hparent.
    rewrite getNode_walk, Hs1, Hs2, walk_app, walk_updateAt, Hparent. cbn.
    rewrite getChild_deleteChild_ne by exact Hdiff.
    rewrite getChild_setChild. reflexivity.
Qed.

Lemma rename_relinks_witness :
  exists newPath session',
    VFSEngine.rename (js "/readme") (js "README") vaultSession
      = (Ok newPath, session')
    /\ VFSEngine.getNode (fs session') newPath
       = Some (File (js "nothing here") emptyMeta).
Proof.
  assert (Hplain : plainSegment (js "README")).
  { split; [reflexivity|]. intros H.
    apply list_elem_of_In in H. vm_compute in H. intuition discriminate. }
  destruct (rename_relinks vaultSession (js "/readme") (js "README")
              vaultChildren emptyMeta (File (js "nothing here") emptyMeta)
              eq_refl eq_refl eq_refl (conj eq_refl eq_refl))
    as (newPath & session' & children' & Hren & _ & _ & _ & _ & Hnode).
  exists newPath, session'. split; [exact Hren | exact (Hnode Hplain)].
Defined.

(** ** Moving a node *)

Lemma getChild_updateChild_ne name other f ch :
  other <> name -> getChild other (updateChild name f ch) = getChild other ch.
Proof.
  intros Hne. induction ch as [|[k v] ch IH]; cbn; [reflexivity|].
  destruct (decide (k = name)) as [->|Hk]; cbn.
  - destruct (decide (name = other)); [congruence | reflexivity].
  - destruct (decide (k = other)); [reflexivity | exact IH].
Qed.

(** Deleting the child [n] of the node at [ps] leaves every walk alone
    that neither stops on the way to that node nor goes through the
    child. *)
Lemma walk_delete_elsewhere n ps : forall r qs,
  ~ qs `prefix_of` ps ->
  ~ (ps ++ [n]) `prefix_of` qs ->
  VFSEngine.walk
    (VFSEngine.updateAt ps (VFSEngine.mapChildren (deleteChild n)) r) qs
  = VFSEngine.walk r qs.
Proof.
  induction ps as [|p ps IH]; intros r qs H1 H2.
  - destruct qs as [|q qs]; [exfalso; apply H1, prefix_nil|].
    assert (Hq : q <> n).
    { intros ->. apply H2. cbn. apply prefix_cons, prefix_nil. }
    destruct r as [c m|ch m]; [reflexivity|].
    cbn. rewrite getChild_deleteChild_ne by exact Hq. reflexivity.
  - destruct qs as [|q qs]; [exfalso; apply H1, prefix_nil|].
    destruct r as [c m|ch m]; [reflexivity|].
    cbn [VFSEngine.updateAt VFSEngine.walk].
    destruct (decide (q = p)) as [->|Hq].
    + rewrite getChild_updateChild.
      destruct (getChild p ch) as [child|]; cbn; [|reflexivity].
      apply IH.
      * intros H. apply H1, prefix_cons, H.
      * intros H. apply H2. cbn. apply prefix_cons, H.
    + rewrite getChild_updateChild_ne by exact Hq. reflexivity.
Qed.

Lemma prefix_snoc_cases {A} (l a : list A) (x : A) :
  l `prefix_of` a ++ [x] -> l `prefix_of` a \/ l = a ++ [x].
Proof.
  intros [k Hk]. destruct k as [|y k _] using rev_ind.
  - right. rewrite app_nil_r in Hk. congruence.
  - left. rewrite app_assoc in Hk. apply app_inj_tail in Hk as [-> _].
    exists k. reflexivity.
Qed.

Lemma walk_prefix_Some root a b n :
  VFSEngine.walk root (a ++ b) = Some n ->
  exists m, VFSEngine.walk root a = Some m.
Proof.
  rewrite walk_app. destruct (VFSEngine.walk root a) as [m|]; [|discriminate].
  intros _. exists m. reflexivity.
Qed.

Lemma split_app sep a b :
  split sep (a ++ sep :: b) = split sep a ++ split sep b.
Proof.
  induction a as [|c a IH]; cbn.
  - rewrite N.eqb_refl. reflexivity.
  - destruct (N.eqb c sep); [rewrite IH; reflexivity|].
    rewrite IH. destruct (split sep a) as [|w ws] eqn:E.
    + exfalso. eapply split_nonempty, E.
    + reflexivity.
Qed.

Lemma segments_child path name :
  plainSegment name ->
  VFSEngine.segments (path ++ slash :: name) = VFSEngine.segments path ++ [name].
Proof.
  intros [Ht Hs]. unfold VFSEngine.segments.
  rewrite split_app, List.filter_app, (split_no_sep_id _ _ Hs). cbn.
  rewrite Ht. reflexivity.
Qed.

(** What a successful [move] does to the tree. *)
Lemma move_runs (session : Session) (sourcePath targetPath : list N)
  (sourceNode : Node) (targetChildren : list (list N * Node))
  (targetMeta : Meta) :
  let resolvedSource := VFSEngine.resolvePath (currentPath session) sourcePath in
  let resolvedTarget := VFSEngine.resolvePath (currentPath session) targetPath in
  let sourceParts := VFSEngine.segments resolvedSource in
  let name := VFSEngine.popName sourceParts in
  sourceParts <> [] ->
  VFSEngine.getNode (fs session) resolvedSource = Some sourceNode ->
  VFSEngine.getNode (fs session) resolvedTarget
    = Some (Dir targetChildren targetMeta) ->
  getChild name targetChildren = None ->
  VFSEngine.move sourcePath targetPath session
  = (Ok (if decide (resolvedTarget = js "/") then slash :: name
         else resolvedTarget ++ slash :: name),
     set_fs (fun root =>
       VFSEngine.updateAt (removelast sourceParts)
         (VFSEngine.mapChildren (deleteChild name))
         (VFSEngine.updateAt (VFSEngine.segments resolvedTarget)
            (VFSEngine.mapChildren (setChild name sourceNode)) root))
       session)
  /\ exists siblings parentMeta,
       VFSEngine.walk (fs session) (removelast sourceParts)
         = Some (Dir siblings parentMeta)
       /\ getChild name siblings = Some sourceNode.
Proof.
  intros resolvedSource resolvedTarget sourceParts name Hne Hsrc Htgt Hfree.
  assert (Hsegs : Forall plainSegment (removelast sourceParts)).
  { apply Forall_removelast, segments_plain. }
  assert (Hparent : exists siblings parentMeta,
            VFSEngine.walk (fs session) (removelast sourceParts)
              = Some (Dir siblings parentMeta)
            /\ getChild name siblings = Some sourceNode).
  { pose proof Hsrc as Hw. rewrite getNode_walk in Hw. fold sourceParts in Hw.
    rewrite (removelast_popName sourceParts Hne), walk_app in Hw.
    destruct (VFSEngine.walk (fs session) (removelast sourceParts))
      as [[c m|siblings m]|]; cbn in Hw; try discriminate.
    exists siblings, m. split; [reflexivity|].
    fold name in Hw. destruct (getChild name siblings); [|discriminate].
    exact Hw. }
  split; [|exact Hparent].
  destruct Hparent as (siblings & parentMeta & Hwalk & _).
  unfold VFSEngine.move, bind, get, modify, ret, throw.
  fold resolvedSource. fold resolvedTarget. rewrite Hsrc, Htgt.
  fold sourceParts. fold name. rewrite Hfree.
  rewrite getNode_walk, segments_joinPath, Hwalk by exact Hsegs.
  destruct sourceParts as [|p ps] eqn:E; [congruence|].
  rewrite <- E in *. reflexivity.
Qed.

(** The source is gone from the tree a move leaves. *)
Lemma move_source_gone (root : Node) (sourceParts targetParts : list (list N))
  (sourceNode : Node) :
  sourceParts <> [] ->
  VFSEngine.walk
    (VFSEngine.updateAt (removelast sourceParts)
       (VFSEngine.mapChildren (deleteChild (VFSEngine.popName sourceParts)))
       (VFSEngine.updateAt targetParts
          (VFSEngine.mapChildren
             (setChild (VFSEngine.popName sourceParts) sourceNode)) root))
    sourceParts = None.
Proof.
  intros Hne.
  set (root1 := VFSEngine.updateAt targetParts _ root).
  rewrite (removelast_popName sourceParts Hne) at 3.
  rewrite walk_app, walk_updateAt.
  destruct (VFSEngine.walk root1 (removelast sourceParts)) as [[c m|ch m]|];
    cbn; try reflexivity.
  rewrite getChild_deleteChild. reflexivity.
Qed.

(** The segments of the path a move returns. *)
Lemma move_newPath_segments (resolvedTarget name : list N) :
  plainSegment name ->
  VFSEngine.segments
    (if decide (resolvedTarget = js "/") then slash :: name
     else resolvedTarget ++ slash :: name)
  = VFSEngine.segments resolvedTarget ++ [name].
Proof.
  intros Hname. destruct (decide (resolvedTarget = js "/")) as [->|_].
  - change (slash :: name) with ([] ++ slash :: name).
    rewrite segments_child by exact Hname. reflexivity.
  - apply segments_child, Hname.
Qed.

Lemma popName_plain path :
  VFSEngine.segments path <> [] ->
  plainSegment (VFSEngine.popName (VFSEngine.segments path)).
Proof.
  intros Hne. pose proof (segments_plain path) as H.
  rewrite (removelast_popName _ Hne) in H.
  apply Forall_app in H as [_ H]. inversion H; assumption.
Qed.

(** X5.  A [move] into a directory that reads nothing under the name of
    the source (no entry, and no property that [Object.prototype]
    defines) succeeds, and the source path no longer resolves.  When the
    target is neither the source nor inside it, the path returned resolves
    to the node moved. *)
Theorem move_relocates (session : Session) (sourcePath targetPath : list N)
  (sourceNode : Node) (targetChildren : list (list N * Node))
  (targetMeta : Meta) :
  let resolvedSource := VFSEngine.resolvePath (currentPath session) sourcePath in
  let resolvedTarget := VFSEngine.resolvePath (currentPath session) targetPath in
  let sourceParts := VFSEngine.segments resolvedSource in
  let name := VFSEngine.popName sourceParts in
  sourceParts <> [] ->
  VFSEngine.getNode (fs session) resolvedSource = Some sourceNode ->
  VFSEngine.getNode (fs session) resolvedTarget
    = Some (Dir targetChildren targetMeta) ->
  absent name targetChildren ->
  exists newPath session',
    VFSEngine.move sourcePath targetPath session = (Ok newPath, session')
    /\ VFSEngine.getNode (fs session') resolvedSource = None
    /\ (~ sourceParts `prefix_of` VFSEngine.segments resolvedTarget ->
        VFSEngine.getNode (fs session') newPath = Some sourceNode).
Proof.
  intros resolvedSource resolvedTarget sourceParts name Hne Hsrc Htgt
    [Hfree Hown].
  destruct (move_runs session sourcePath targetPath sourceNode targetChildren
              targetMeta Hne Hsrc Htgt Hfree)
    as (Hmove & siblings & parentMeta & Hparent & Hchild).
  fold resolvedSource resolvedTarget sourceParts name in Hmove, Hparent, Hchild.
  do 2 eexists. split; [exact Hmove|]. cbn [fs set_fs].
  assert (Hname : plainSegment name) by (apply popName_plain, Hne).
  pose proof (move_source_gone (fs session) sourceParts
                (VFSEngine.segments resolvedTarget) sourceNode Hne) as Hgone.
  fold name in Hgone.
  split.
  - rewrite getNode_walk. exact Hgone.
  - intros Hout.
    pose proof (move_newPath_segments resolvedTarget name Hname) as Hsegs.
    rewrite getNode_walk, Hsegs.
    rewrite getNode_walk in Htgt.
    rewrite walk_delete_elsewhere.
    + rewrite walk_app, walk_updateAt, Htgt. cbn.
      rewrite getChild_setChild. reflexivity.
    + intros [k Hk].
      rewrite Hk, <- app_assoc, walk_app, Htgt in Hparent.
      cbn in Hparent. rewrite Hfree in Hparent. discriminate.
    + unfold name. rewrite <- (removelast_popName sourceParts Hne). fold name.
      intros H. apply prefix_snoc_cases in H as [H|H]; [exact (Hout H)|].
      rewrite (removelast_popName sourceParts Hne) in H. fold name in H.
      apply app_inj_tail in H as [H _].
      rewrite H, Htgt in Hparent. injection Hparent as <- _. congruence.
Qed.

Lemma move_relocates_witness :
  exists newPath session',
    VFSEngine.move (js "/readme") (js "/vault") vaultSession
      = (Ok newPath, session')
    /\ VFSEngine.getNode (fs session') (js "/readme") = None
    /\ VFSEngine.getNode (fs session') newPath
       = Some (File (js "nothing here") emptyMeta).
Proof.
  destruct (move_relocates vaultSession (js "/readme") (js "/vault")
              (File (js "nothing here") emptyMeta)
              [ (js "plan.txt", File (js "the secret plan") lockedMeta) ]
              lockedMeta ltac:(discriminate) eq_refl eq_refl
              (conj eq_refl eq_refl))
    as (newPath & session' & Hmove & Hgone & Hnew).
  exists newPath, session'. split; [exact Hmove|]. split; [exact Hgone|].
  apply Hnew. intros [k Hk]. discriminate Hk.
Defined.



(** ** Access: the unlock test, listing and changing directory *)

Lemma isPathUnlocked_iff (session : Session) (path : list N) :
  VFSEngine.isPathUnlocked session path = true
  <-> unlockedPaths session = None
      \/ exists x, holds session x
           /\ (startsWith path x = true \/ In x (segmentPrefixes path)).
Proof.
  unfold VFSEngine.isPathUnlocked, holds.
  destruct (unlockedPaths session) as [U|]; [|split; [left; reflexivity | reflexivity]].
  split.
  - destruct (existsb _ (seq 1 _)) eqn:E.
    + intros _. right. apply existsb_exists in E as (i & Hi & Hin).
      apply bool_decide_eq_true in Hin.
      eexists. split; [exists U; split; [reflexivity | exact Hin]|].
      right. unfold segmentPrefixes. apply in_map_iff. exists i.
      split; [reflexivity | exact Hi].
    + intros H. right. apply existsb_exists in H as (u & Hu & Hstart).
      exists u. split; [|left; exact Hstart].
      exists U. split; [reflexivity|].
      apply elem_of_elements, list_elem_of_In, Hu.
  - intros [H|(x & (U' & [= <-] & Hx) & [Hs|Hp])]; [discriminate| |].
    + destruct (existsb _ (seq 1 _)); [reflexivity|].
      apply existsb_exists. exists x. split; [|exact Hs].
      apply list_elem_of_In, elem_of_elements, Hx.
    + unfold segmentPrefixes in Hp. apply in_map_iff in Hp as (i & <- & Hi).
      replace (existsb _ (seq 1 _)) with true; [reflexivity|].
      symmetry. apply existsb_exists. exists i. split; [exact Hi|].
      apply bool_decide_eq_true, Hx.
Qed.

Lemma unlockAll_tracked unlocks : forall t,
  unlockedPaths t <> None ->
  unlockedPaths (VFSEngine.unlockAll unlocks t) <> None.
Proof.
  unfold VFSEngine.unlockAll.
  induction unlocks as [|p unlocks IH]; intros t Ht; [exact Ht|].
  cbn [fold_left]. apply IH. discriminate.
Qed.

(** X7.  [changeDirectory] succeeds only on a directory that exists, is
    not flagged locked and passes the unlock test; it then sets the
    current path to the resolved path, which is absolute when the current
    path was.  When it throws, the session is left as it was. *)
Theorem changeDirectory_outcomes (session : Session) (path : list N) :
  startsWith (currentPath session) (js "/") = true ->
  match VFSEngine.changeDirectory path session with
  | (Ok newPath, session') =>
      newPath = VFSEngine.resolvePath (currentPath session) path
      /\ session' = set_currentPath newPath session
      /\ startsWith (currentPath session') (js "/") = true
      /\ VFSEngine.isPathUnlocked session newPath = true
      /\ exists children meta,
           VFSEngine.getNode (fs session) newPath = Some (Dir children meta)
           /\ locked meta = false
  | (Throw _, session') => session' = session
  end.
Proof.
  intros Habs. unfold VFSEngine.changeDirectory, bind, get, modify, ret, throw.
  destruct (VFSEngine.getNode (fs session) _) as [[c m|ch m]|] eqn:Hnode;
    try reflexivity.
  destruct (locked m) eqn:Hlock; [reflexivity|].
  destruct (VFSEngine.isPathUnlocked session _) eqn:Hunl; [|reflexivity].
  cbn [negb]. split; [reflexivity|]. split; [reflexivity|].
  split; [apply resolvePath_absolute, Habs|]. split; [exact Hunl|].
  exists ch, m. split; [exact Hnode | exact Hlock].
Qed.

Lemma changeDirectory_outcomes_witness :
  VFSEngine.isPathUnlocked nestedSession (js "/a") = true
  /\ exists children meta,
       VFSEngine.getNode (fs nestedSession) (js "/a")
         = Some (Dir children meta)
       /\ locked meta = false.
Proof.
  pose proof (changeDirectory_outcomes nestedSession (js "a/./b/..") eq_refl)
    as H.
  assert (E : VFSEngine.changeDirectory (js "a/./b/..") nestedSession
              = (Ok (js "/a"), set_currentPath (js "/a") nestedSession))
    by (vm_compute; reflexivity).
  rewrite E in H. destruct H as (_ & _ & _ & Hunl & Hdir).
  split; [exact Hunl | exact Hdir].
Defined.

(** X8.  The unlocks a delete propagates never take access away from a
    session that tracks unlocked paths, and they make every unlocked path,
    every prefix of it of one segment or more, and every path that
    continues one of these as a string pass the unlock test. *)
Theorem unlockAll_grants_access (unlocks : list (list N)) (t : Session) :
  (unlockedPaths t <> None ->
   forall path,
     VFSEngine.isPathUnlocked t path = true ->
     VFSEngine.isPathUnlocked (VFSEngine.unlockAll unlocks t) path = true)
  /\ (forall p suffix,
        In p unlocks ->
        VFSEngine.isPathUnlocked (VFSEngine.unlockAll unlocks t) (p ++ suffix)
        = true)
  /\ (forall p k suffix,
        In p unlocks ->
        (1 <= k <= length (VFSEngine.segments p))%nat ->
        VFSEngine.isPathUnlocked (VFSEngine.unlockAll unlocks t)
          (VFSEngine.joinPath (take k (VFSEngine.segments p)) ++ suffix)
        = true).
Proof.
  split; [|split].
  - intros Ht path H. apply isPathUnlocked_iff in H as [H|(x & Hx & Hp)];
      [contradiction|].
    apply isPathUnlocked_iff. right. exists x. split; [|exact Hp].
    apply unlockAll_holds. left. exact Hx.
  - intros p suffix Hp. apply isPathUnlocked_iff. right. exists p. split.
    + apply unlockAll_holds. right. exists p. split; [exact Hp | left; reflexivity].
    + left. apply startsWith_app.
  - intros p k suffix Hp Hk. apply isPathUnlocked_iff. right.
    eexists. split.
    + apply unlockAll_holds. right. exists p. split; [exact Hp|]. right.
      unfold segmentPrefixes. apply in_map_iff. exists k.
      split; [reflexivity | apply in_seq; lia].
    + left. apply startsWith_app.
Qed.

Lemma unlockAll_grants_access_witness :
  VFSEngine.isPathUnlocked
    (VFSEngine.unlockAll [ js "/a/b/c" ] hubSession) (js "/a/b/notes.txt")
  = true.
Proof.
  apply (proj2 (proj2 (unlockAll_grants_access [ js "/a/b/c" ] hubSession))
           (js "/a/b/c") 2%nat (js "/notes.txt")).
  - left. reflexivity.
  - vm_compute. split; repeat constructor.
Defined.

(** X9.  The unlock test compares strings: a path that merely continues
    the text of an unlocked path passes, whether or not the continuation
    starts a new segment; with an empty set of unlocked paths no path
    passes. *)
Theorem isPathUnlocked_textual_prefix (session : Session)
  (unlocked : gset (list N)) :
  unlockedPaths session = Some unlocked ->
  (forall u suffix, u ∈ unlocked ->
     VFSEngine.isPathUnlocked session (u ++ suffix) = true)
  /\ (unlocked = ∅ ->
      forall path, VFSEngine.isPathUnlocked session path = false).
Proof.
  intros HU. split.
  - intros u suffix Hu. apply isPathUnlocked_iff. right. exists u.
    split; [exists unlocked; split; [exact HU | exact Hu]|].
    left. apply startsWith_app.
  - intros -> path.
    destruct (VFSEngine.isPathUnlocked session path) eqn:E; [|reflexivity].
    apply isPathUnlocked_iff in E as [E|(x & (U & HU' & Hx) & _)].
    + congruence.
    + rewrite HU in HU'. injection HU' as <-.
      apply not_elem_of_empty in Hx. contradiction.
Qed.

Lemma isPathUnlocked_textual_prefix_witness :
  VFSEngine.isPathUnlocked hubSession (js "/server_room_backup/keys") = true.
Proof.
  apply (proj1 (isPathUnlocked_textual_prefix hubSession
                  {[ js "/server_room" ]} eq_refl)
           (js "/server_room") (js "_backup/keys")).
  apply elem_of_singleton. reflexivity.
Defined.

(** X10.  A session without unlocked-path tracking passes the unlock test
    everywhere; once a delete has propagated a non-empty list of unlocks to
    it, it passes only at paths that continue, or have as a segment prefix,
    one of the paths added: its access shrinks. *)
Theorem unlockAll_restricts_untracked (unlocks : list (list N)) (t : Session) :
  unlockedPaths t = None ->
  unlocks <> [] ->
  (forall path, VFSEngine.isPathUnlocked t path = true)
  /\ (forall path,
        (forall x, added unlocks x ->
           startsWith path x = false /\ ~ In x (segmentPrefixes path)) ->
        VFSEngine.isPathUnlocked (VFSEngine.unlockAll unlocks t) path = false).
Proof.
  intros Hnone Hne. split.
  - intros path. apply isPathUnlocked_iff. left. exact Hnone.
  - intros path Hout.
    destruct (VFSEngine.isPathUnlocked _ path) eqn:E; [|reflexivity].
    apply isPathUnlocked_iff in E as [E|(x & Hx & Hp)].
    + exfalso. destruct unlocks as [|p unlocks]; [congruence|].
      unfold VFSEngine.unlockAll in E. cbn [fold_left] in E.
      revert E. apply (unlockAll_tracked unlocks). discriminate.
    + apply unlockAll_holds in Hx as [(U & HU & _)|Hx]; [congruence|].
      destruct (Hout x Hx) as [H1 H2].
      destruct Hp as [Hp|Hp]; [congruence | contradiction].
Qed.

Lemma unlockAll_restricts_untracked_witness :
  VFSEngine.isPathUnlocked legacySession (js "/key") = true
  /\ VFSEngine.isPathUnlocked
       (VFSEngine.unlockAll [ js "/x" ] legacySession) (js "/key") = false.
Proof.
  destruct (unlockAll_restricts_untracked [ js "/x" ] legacySession eq_refl
              ltac:(discriminate)) as [Hall Hout].
  split; [apply Hall|]. apply Hout.
  intros x (p & [<-|[]] & [->|Hx]).
  - split; [reflexivity|]. vm_compute. intuition discriminate.
  - vm_compute in Hx. destruct Hx as [<-|[]].
    split; [reflexivity|]. vm_compute. intuition discriminate.
Defined.

Lemma filter_all {A} (f : A -> bool) (l : list A) :
  (forall x, In x l -> f x = true) -> List.filter f l = l.
Proof.
  induction l as [|a l IH]; intros H; [reflexivity|].
  cbn. rewrite (H a) by (left; reflexivity).
  rewrite IH; [reflexivity|]. intros x Hx. apply H. right. exact Hx.
Qed.

(** X11.  For a session whose unlocked paths hold the root, [list] on a
    directory that is not flagged locked returns an entry for every child
    in order, the children flagged locked included: a lock hides nothing
    from the listing of the parent. *)
Theorem list_shows_locked_children (session : Session) (path : list N)
  (unlocked : gset (list N)) (children : list (list N * Node)) (meta : Meta) :
  unlockedPaths session = Some unlocked ->
  js "/" ∈ unlocked ->
  startsWith (currentPath session) (js "/") = true ->
  VFSEngine.getNode (fs session)
    (VFSEngine.resolvePath (currentPath session) path)
    = Some (Dir children meta) ->
  locked meta = false ->
  VFSEngine.list session path
  = Ok (List.map (fun entry => VFSEngine.entryOf (fst entry) (snd entry))
          children).
Proof.
  intros HU Hroot Hcur Hnode Hlock.
  assert (Habs : forall p, startsWith p (js "/") = true ->
                   VFSEngine.isPathUnlocked session p = true).
  { intros p Hp. apply isPathUnlocked_iff. right. exists (js "/").
    split; [exists unlocked; split; assumption | left; exact Hp]. }
  pose proof (resolvePath_absolute (currentPath session) path Hcur) as Hres.
  unfold VFSEngine.list. rewrite Hnode, Hlock, (Habs _ Hres). cbn [negb].
  rewrite filter_all; [reflexivity|].
  intros [name child] _. apply Habs. cbn [fst].
  destruct (decide (_ = js "/")); [reflexivity|].
  destruct (VFSEngine.resolvePath (currentPath session) path) as [|c r];
    [discriminate Hres | exact Hres].
Qed.

Lemma list_shows_locked_children_witness :
  VFSEngine.list (set_unlockedPaths (Some {[ js "/" ]}) vaultSession) (js "/")
  = Ok [ VFSEngine.entryOf (js "vault") vaultDir;
         VFSEngine.entryOf (js "readme") (File (js "nothing here") emptyMeta);
         VFSEngine.entryOf (js "plan.txt") (File (js "decoy") emptyMeta) ].
Proof.
  apply (list_shows_locked_children
           (set_unlockedPaths (Some {[ js "/" ]}) vaultSession) (js "/")
           {[ js "/" ]} vaultChildren emptyMeta eq_refl).
  - apply elem_of_singleton. reflexivity.
  - reflexivity.
  - reflexivity.
  - reflexivity.
Defined.

(** ** The AI state machine *)

(** X12.  No trigger event calms the AI: from a level of at most 10 the
    level does not go down, a status that was not [idle] does not become
    [idle], and the pending challenge stays. *)
Theorem trigger_never_calms (rnd : Z) (eventType : list N) (st : AIState)
  (l : Z) :
  level st = l ->
  l <= 10 ->
  let st' := snd (AIEngine.trigger rnd eventType st) in
  (exists l' : Z, level st' = l' /\ l <= l')
  /\ (status st' = js "idle" -> status st = js "idle")
  /\ challenge st' = challenge st.
Proof.
  intros El Hl st'. subst st'. unfold AIEngine.trigger.
  destruct (decide (eventType = js "suspicious_command")).
  { unfold bind, modify, get, ret. cbn. rewrite El. cbn.
    destruct (decide (status st = js "idle")) as [Hidle|Hidle]; cbn;
      destruct (10 <=? Z.min (l + 2) 10); cbn;
      repeat match goal with
             | |- context [if ?c then _ else _] => destruct c; cbn
             end;
      (split; [eexists; split; [reflexivity | lia]|];
       split; [|reflexivity]);
      intros H; try discriminate H; try exact Hidle; try contradiction. }
  destruct (decide (eventType = js "failed_puzzle")).
  { unfold bind, modify, get, ret. cbn. rewrite El. cbn.
    destruct (bool_decide (status st = js "probing")) eqn:Hp;
      destruct (5 <=? Z.min (l + 1) 10); cbn;
      (split; [eexists; split; [reflexivity | lia]|];
       split; [|reflexivity]);
      intros H; try discriminate H; exact H. }
  destruct (decide (eventType = js "admin_escalate")).
  { unfold bind, modify, get, ret. cbn. rewrite El. cbn.
    split; [eexists; split; [reflexivity | lia]|].
    split; [|reflexivity]. intros H. discriminate H. }
  cbn. split; [exists l; split; [exact El | lia]|].
  split; [intros H; exact H | reflexivity].
Qed.

Lemma trigger_never_calms_witness :
  exists l' : Z,
    level (snd (AIEngine.trigger 0 (js "failed_puzzle")
                  {| level := 4; status := js "probing"; challenge := None |}))
      = l'
    /\ 4 <= l'.
Proof.
  apply (trigger_never_calms 0 (js "failed_puzzle")
           {| level := 4; status := js "probing"; challenge := None |} 4).
  - reflexivity.
  - lia.
Defined.

(** X13.  A challenge is passed at most once.  With a challenge pending,
    an answer that matches after trimming and lowering case lowers the
    level by 2 (not below 0), sets [idle] when the level is then at most 2
    and clears the challenge, so that any further answer is refused
    without a change of state; an answer that does not match adds 1 to
    the level (capped at 10) and leaves the challenge pending. *)
Theorem challenge_passed_once (toLowerCase : list N -> list N)
  (ans : list N) (st : AIState) (c : Challenge) :
  challenge st = Some c ->
  (toLowerCase (trim ans) = toLowerCase (answer c) ->
   exists st',
     AIEngine.validateChallenge toLowerCase ans st = (Ok (Some true), st')
     /\ level st' = Math_max 0 (level st - 2)%num
     /\ status st' = (if (level st' <=? 2)%num then js "idle" else status st)
     /\ challenge st' = None
     /\ forall again,
          AIEngine.validateChallenge toLowerCase again st' = (Ok None, st'))
  /\ (toLowerCase (trim ans) <> toLowerCase (answer c) ->
      exists st',
        AIEngine.validateChallenge toLowerCase ans st = (Ok (Some false), st')
        /\ level st' = Math_min (level st + 1)%num 10
        /\ status st' = status st
        /\ challenge st' = Some c).
Proof.
  intros Hc. split; intros Hans;
    unfold AIEngine.validateChallenge, bind, get, modify, ret; rewrite Hc.
  - rewrite bool_decide_eq_true_2 by exact Hans. cbn.
    destruct (level st) as [|l] eqn:El; cbn.
    + eexists. split; [reflexivity|]. cbn. rewrite ?El.
      repeat split; reflexivity.
    + destruct (Z.max 0 (l - 2) <=? 2) eqn:E; cbn;
        eexists; (split; [reflexivity|]); cbn; rewrite ?El; cbn; rewrite ?E;
        repeat split; reflexivity.
  - rewrite bool_decide_eq_false_2 by exact Hans. cbn.
    eexists. split; [reflexivity|]. cbn. repeat split. exact Hc.
Qed.

Lemma challenge_passed_once_witness :
  exists st',
    AIEngine.validateChallenge (fun s => s) (js "  42 ")
      {| level := 3; status := js "probing";
         challenge := Some {| question := js "?"; answer := js "42" |} |}
    = (Ok (Some true), st')
    /\ level st' = 1 /\ status st' = js "idle" /\ challenge st' = None.
Proof.
  destruct (challenge_passed_once (fun s => s) (js "  42 ")
              {| level := 3; status := js "probing";
                 challenge := Some {| question := js "?"; answer := js "42" |} |}
              {| question := js "?"; answer := js "42" |} eq_refl)
    as [Hpass _].
  destruct (Hpass eq_refl) as (st' & Hrun & Hl & Hs & Hc & _).
  exists st'. split; [exact Hrun|]. split; [exact Hl|].
  split; [|exact Hc]. rewrite Hs, Hl. reflexivity.
Defined.

(** ** Puzzle triggers and effects *)

Lemma forEach_preserves {St A} (Q : St -> Prop) (xs : list A)
  (body : A -> M St unit) :
  (forall x s, Q s -> Q (snd (body x s))) ->
  forall s, Q s -> Q (snd (forEach xs body s)).
Proof.
  intros Hbody. induction xs as [|x xs IH]; intros s Hs; [exact Hs|].
  cbn [forEach]. unfold bind. pose proof (Hbody x s Hs) as H.
  destruct (body x s) as [[[]|e] s1]; cbn in *; [apply IH, H | exact H].
Qed.

Lemma forEach_noop {St A} (xs : list A) (body : A -> M St unit) (s : St) :
  (forall x, In x xs -> body x s = (Ok tt, s)) ->
  forEach xs body s = (Ok tt, s).
Proof.
  induction xs as [|x xs IH]; intros H; [reflexivity|].
  cbn [forEach]. unfold bind. rewrite (H x) by (left; reflexivity).
  apply IH. intros y Hy. apply H. right. exact Hy.
Qed.

Lemma executeEffect_frame effect s :
  sameOutsideTree s (snd (PuzzleEngine.executeEffect effect s)).
Proof.
  unfold sameOutsideTree.
  destruct effect as [target contents meta|target|target|target|amount|action];
    cbn [PuzzleEngine.executeEffect].
  - unfold VFSEngine.addFile, bind, get, modify, ret, throw.
    destruct (VFSEngine.getNode (fs s) _) as [[c m|ch m]|]; cbn;
      repeat split.
  - unfold bind, get, modify, ret.
    destruct (VFSEngine.getNode (fs s) target) as [node|]; cbn;
      [destruct (encrypted (nodeMeta node)); cbn|]; repeat split.
  - unfold VFSEngine.setLock, bind, get, modify, ret, throw.
    destruct (VFSEngine.getNode (fs s) _); cbn; repeat split.
  - unfold VFSEngine.setLock, bind, get, modify, ret, throw.
    destruct (VFSEngine.getNode (fs s) _); cbn; repeat split.
  - unfold bind, modify. cbn. repeat split.
  - cbn. repeat split.
Qed.

Lemma effects_frame effects s :
  sameOutsideTree s (snd (forEach effects PuzzleEngine.executeEffect s)).
Proof.
  apply (forEach_preserves (sameOutsideTree s)).
  - intros effect s1 (H1 & H2 & H3 & H4).
    destruct (executeEffect_frame effect s1) as (E1 & E2 & E3 & E4).
    unfold sameOutsideTree. rewrite E1, E2, E3, E4. repeat split; assumption.
  - repeat split.
Qed.

Lemma onSuccess_solved_entry puzzle s :
  puzzleState (snd (PuzzleEngine.onSuccess puzzle s))
    = <[ PuzzleEngine.p_id puzzle := true ]> (puzzleState s)
  /\ unlockedPaths (snd (PuzzleEngine.onSuccess puzzle s)) = unlockedPaths s
  /\ currentPath (snd (PuzzleEngine.onSuccess puzzle s)) = currentPath s.
Proof.
  unfold PuzzleEngine.onSuccess, bind, modify. cbn.
  destruct (effects_frame (PuzzleEngine.onSuccessEffects puzzle)
              (set_puzzleState
                 (fun ps => <[ PuzzleEngine.p_id puzzle := true ]> ps) s))
    as (H1 & H2 & H3 & _).
  rewrite H1, H2, H3. repeat split.
Qed.

(** X14.  [onSuccess] records the puzzle as solved before it runs the
    effects, and no effect writes the puzzle state: whatever the effects
    do, and also when one of them throws, the session ends with the puzzle
    marked solved, every other puzzle entry as before, and its unlocked
    paths and current path unchanged. *)
Theorem onSuccess_records_solved (puzzle : PuzzleEngine.Puzzle) (s : Session) :
  puzzleState (snd (PuzzleEngine.onSuccess puzzle s))
    !! PuzzleEngine.p_id puzzle = Some true
  /\ (forall other, other <> PuzzleEngine.p_id puzzle ->
        puzzleState (snd (PuzzleEngine.onSuccess puzzle s)) !! other
        = puzzleState s !! other)
  /\ unlockedPaths (snd (PuzzleEngine.onSuccess puzzle s)) = unlockedPaths s
  /\ currentPath (snd (PuzzleEngine.onSuccess puzzle s)) = currentPath s
  /\ exists thrown,
       PuzzleEngine.onSuccess openPuzzle nestedSession
         = (Throw (InvalidDirectory (js "/nowhere")), thrown)
       /\ puzzleState thrown !! js "opened" = Some true
       /\ level (aiState thrown) = 1.
Proof.
  destruct (onSuccess_solved_entry puzzle s) as (H1 & H2 & H3).
  rewrite H1, H2, H3. split; [apply lookup_insert_eq|].
  split; [intros other Hne; apply lookup_insert_ne; congruence|].
  split; [reflexivity|]. split; [reflexivity|].
  eexists. split; [vm_compute; reflexivity|].
  split; vm_compute; reflexivity.
Qed.

Lemma handleTrigger_solved_monotone puzzle s key :
  puzzleState s !! key = Some true ->
  puzzleState (snd (PuzzleEngine.handleTrigger puzzle s)) !! key = Some true.
Proof.
  intros H. unfold PuzzleEngine.handleTrigger.
  destruct (PuzzleEngine.autoSolve puzzle); [|exact H].
  destruct (onSuccess_solved_entry puzzle s) as (H1 & _). rewrite H1.
  destruct (decide (PuzzleEngine.p_id puzzle = key)) as [->|Hne].
  - apply lookup_insert_eq.
  - rewrite lookup_insert_ne by exact Hne. exact H.
Qed.

Lemma triggers_monotone puzzle type path ts s key :
  puzzleState s !! key = Some true ->
  puzzleState (snd (forEach ts (triggerBody puzzle type path) s)) !! key
  = Some true.
Proof.
  apply (forEach_preserves (fun s => puzzleState s !! key = Some true)).
  intros trigger s1 H1. unfold triggerBody.
  destruct (_ && _); [apply handleTrigger_solved_monotone, H1 | exact H1].
Qed.

Lemma triggers_settle puzzle type path ts : forall s s',
  PuzzleEngine.autoSolve puzzle = true ->
  forEach ts (triggerBody puzzle type path) s = (Ok tt, s') ->
  puzzleState s' !! PuzzleEngine.p_id puzzle = Some true
  \/ existsb (fun t => bool_decide (PuzzleEngine.t_type t = type)
                       && bool_decide (PuzzleEngine.t_path t = path)) ts
     = false.
Proof.
  induction ts as [|t ts IH]; intros s s' Hauto Hrun;
    [right; reflexivity|].
  cbn [forEach existsb] in *. unfold bind in Hrun. unfold triggerBody at 1 in Hrun.
  destruct (bool_decide (PuzzleEngine.t_type t = type)
            && bool_decide (PuzzleEngine.t_path t = path)) eqn:Hm.
  - left.
    destruct (PuzzleEngine.handleTrigger puzzle s) as [[[]|e] s1] eqn:Hh;
      [|discriminate Hrun].
    assert (Hs1 : puzzleState s1 !! PuzzleEngine.p_id puzzle = Some true).
    { unfold PuzzleEngine.handleTrigger in Hh. rewrite Hauto in Hh.
      destruct (onSuccess_solved_entry puzzle s) as (H & _).
      rewrite Hh in H. cbn in H. rewrite H. apply lookup_insert_eq. }
    pose proof (triggers_monotone puzzle type path ts s1 _ Hs1) as H.
    rewrite Hrun in H. exact H.
  - cbn in Hrun. cbn. apply (IH s s' Hauto Hrun).
Qed.

Lemma checkTrigger_monotone puzzles type path s key :
  puzzleState s !! key = Some true ->
  puzzleState (snd (PuzzleEngine.checkTrigger puzzles type path s)) !! key
  = Some true.
Proof.
  unfold PuzzleEngine.checkTrigger.
  apply (forEach_preserves (fun s => puzzleState s !! key = Some true)).
  intros puzzle s1 H1. unfold bind, get.
  destruct (bool_decide _); [exact H1|].
  apply (triggers_monotone puzzle type path _ s1 key H1).
Qed.

Lemma checkTrigger_settles puzzles type path : forall s s',
  PuzzleEngine.checkTrigger puzzles type path s = (Ok tt, s') ->
  Forall (settled type path s') puzzles.
Proof.
  induction puzzles as [|p ps IH]; intros s s' Hrun; [constructor|].
  unfold PuzzleEngine.checkTrigger in Hrun. cbn [forEach] in Hrun.
  unfold bind at 1 in Hrun.
  match type of Hrun with
  | context [match ?body s with _ => _ end] =>
      destruct (body s) as [[[]|e] s1] eqn:Hbody
  end; [|discriminate Hrun].
  fold (PuzzleEngine.checkTrigger ps type path) in Hrun.
  constructor; [|apply (IH s1 s' Hrun)].
  assert (H1 : settled type path s1 p).
  { unfold bind, get in Hbody.
    destruct (bool_decide (puzzleState s !! PuzzleEngine.p_id p = Some true))
      eqn:Hs.
    - injection Hbody as <-. left. apply bool_decide_eq_true in Hs. exact Hs.
    - destruct (PuzzleEngine.autoSolve p) eqn:Hauto;
        [|right; left; exact Hauto].
      destruct (triggers_settle p type path _ s s1 Hauto Hbody) as [H|H].
      + left. exact H.
      + right. right. exact H. }
  destruct H1 as [H1|H1]; [left | right; exact H1].
  pose proof (checkTrigger_monotone ps type path s1 _ H1) as H.
  rewrite Hrun in H. exact H.
Qed.

Lemma checkTrigger_noop puzzles type path s :
  Forall (settled type path s) puzzles ->
  PuzzleEngine.checkTrigger puzzles type path s = (Ok tt, s).
Proof.
  intros Hall. unfold PuzzleEngine.checkTrigger. apply forEach_noop.
  intros p Hp. rewrite Forall_forall in Hall.
  pose proof (Hall p (proj2 (list_elem_of_In _ _) Hp)) as Hset.
  unfold bind, get.
  destruct (bool_decide (puzzleState s !! PuzzleEngine.p_id p = Some true))
    eqn:Hs; [reflexivity|].
  apply forEach_noop. intros t Ht.
  destruct Hset as [H|[H|H]].
  - apply bool_decide_eq_false in Hs. contradiction.
  - unfold PuzzleEngine.handleTrigger. rewrite H.
    destruct (_ && _); reflexivity.
  - unfold triggered in H.
    assert (Hm : bool_decide (PuzzleEngine.t_type t = type)
                 && bool_decide (PuzzleEngine.t_path t = path) = false).
    { destruct (_ && _) eqn:E; [|reflexivity].
      assert (Hex : existsb
                (fun t => bool_decide (PuzzleEngine.t_type t = type)
                          && bool_decide (PuzzleEngine.t_path t = path))
                (PuzzleEngine.triggers p) = true).
      { apply existsb_exists. exists t. split; [exact Ht | exact E]. }
      congruence. }
    rewrite Hm. reflexivity.
Qed.

Lemma forEach_matching puzzle type path ts : forall s,
  forEach ts (triggerBody puzzle type path) s
  = forEach
      (List.filter (fun t => bool_decide (PuzzleEngine.t_type t = type)
                             && bool_decide (PuzzleEngine.t_path t = path)) ts)
      (fun _ => PuzzleEngine.handleTrigger puzzle) s.
Proof.
  induction ts as [|t ts IH]; intros s; [reflexivity|].
  cbn [forEach List.filter]. unfold triggerBody at 1.
  destruct (bool_decide (PuzzleEngine.t_type t = type)
            && bool_decide (PuzzleEngine.t_path t = path)).
  - cbn [forEach]. unfold bind.
    destruct (PuzzleEngine.handleTrigger puzzle s) as [[[]|e] s1];
      [apply IH | reflexivity].
  - unfold bind, ret. apply IH.
Qed.

(** X15.  A call of [checkTrigger] that returned normally is not repeated
    by calling again: the same call on the session it left changes
    nothing, and a call does nothing when the session has solved every
    puzzle.  Within one call the solved test of a puzzle is made once,
    before its triggers are read: a puzzle the session has not solved has
    [handleTrigger] run once for every trigger of its list that matches,
    so a trigger listed twice runs the success effects twice. *)
Theorem checkTrigger_idempotent (puzzles : list PuzzleEngine.Puzzle)
  (type path : list N) (s s' : Session) :
  PuzzleEngine.checkTrigger puzzles type path s = (Ok tt, s') ->
  PuzzleEngine.checkTrigger puzzles type path s' = (Ok tt, s')
  /\ (forall solvedSession,
        Forall (fun p => puzzleState solvedSession !! PuzzleEngine.p_id p
                         = Some true) puzzles ->
        PuzzleEngine.checkTrigger puzzles type path solvedSession
        = (Ok tt, solvedSession))
  /\ (forall puzzle unsolved,
        puzzleState unsolved !! PuzzleEngine.p_id puzzle <> Some true ->
        PuzzleEngine.checkTrigger [ puzzle ] type path unsolved
        = forEach
            (List.filter
               (fun t => bool_decide (PuzzleEngine.t_type t = type)
                         && bool_decide (PuzzleEngine.t_path t = path))
               (PuzzleEngine.triggers puzzle))
            (fun _ => PuzzleEngine.handleTrigger puzzle) unsolved)
  /\ (exists twice,
        PuzzleEngine.checkTrigger [ doubledPuzzle ] (js "open")
          (js "/a/readme.txt") nestedSession = (Ok tt, twice)
        /\ level (aiState nestedSession) = 0
        /\ level (aiState twice) = 4).
Proof.
  intros Hrun. split; [|split; [|split]].
  - apply checkTrigger_noop, (checkTrigger_settles puzzles type path s s' Hrun).
  - intros solvedSession Hall. apply checkTrigger_noop.
    eapply Forall_impl; [exact Hall|]. intros p Hp. left. exact Hp.
  - intros puzzle unsolved Hno.
    unfold PuzzleEngine.checkTrigger. cbn [forEach].
    unfold bind at 1. unfold bind at 1, get.
    rewrite bool_decide_eq_false_2 by exact Hno.
    rewrite <- forEach_matching.
    fold (triggerBody puzzle type path).
    destruct (forEach (PuzzleEngine.triggers puzzle)
                (triggerBody puzzle type path) unsolved) as [[[]|e] s1];
      reflexivity.
  - eexists. split; [vm_compute; reflexivity|].
    split; vm_compute; reflexivity.
Qed.

Lemma checkTrigger_idempotent_witness :
  exists s',
    PuzzleEngine.checkTrigger [ flagPuzzle ] (js "decrypt")
      (js "/sec/secret.bin") secretSession = (Ok tt, s')
    /\ level (aiState s') = 2
    /\ PuzzleEngine.checkTrigger [ flagPuzzle ] (js "decrypt")
         (js "/sec/secret.bin") s' = (Ok tt, s').
Proof.
  eexists. split; [vm_compute; reflexivity|]. split; [reflexivity|].
  eapply (proj1 (checkTrigger_idempotent [ flagPuzzle ] (js "decrypt")
                   (js "/sec/secret.bin") secretSession _ _)).
  Unshelve. vm_compute. reflexivity.
Defined.

(** ** Decryption, once and by effect *)

(** X16.  A successful [decrypt] is not repeatable: the file is no longer
    flagged encrypted, and every further [decrypt] of it, with any key,
    throws not-encrypted and changes nothing.  A key that does not parse
    as a number is rejected and leaves the session as it was, so the file
    can be tried again. *)
Theorem decrypt_only_once (session : Session) (path hexData : list N)
  (meta : Meta) :
  VFSEngine.getNode (fs session)
    (VFSEngine.resolvePath (currentPath session) path)
    = Some (File (VFSEngine.xorTag ++ hexData) meta) ->
  encrypted meta = true ->
  (forall keyText k,
     parseInt keyText 10 = Int k ->
     exists plain session',
       VFSEngine.decrypt path keyText session = (Ok plain, session')
       /\ length plain = length (match_pairs hexData)
       /\ forall again,
            VFSEngine.decrypt path again session'
            = (Throw (FileNotEncrypted path), session'))
  /\ (forall keyText,
        parseInt keyText 10 = NaN ->
        VFSEngine.decrypt path keyText session
        = (Throw InvalidKeyFormat, session)).
Proof.
  intros Hnode Henc. split.
  - intros keyText k Hkey.
    destruct (decrypt_tagged session path keyText hexData meta k
                Hnode Henc Hkey) as (session' & Hdec & Hcur & Hnode').
    do 2 eexists. split; [exact Hdec|]. split.
    + rewrite !length_map. reflexivity.
    + intros again. unfold VFSEngine.decrypt, bind, get, throw.
      rewrite Hcur, Hnode'. reflexivity.
  - intros keyText Hkey.
    unfold VFSEngine.decrypt, bind, get, throw.
    rewrite Hnode, Henc. cbn [negb].
    rewrite startsWith_app, Hkey. reflexivity.
Qed.

Lemma decrypt_only_once_witness :
  VFSEngine.decrypt (js "/sec/secret.bin") (js "forty-two") secretSession
  = (Throw InvalidKeyFormat, secretSession).
Proof.
  apply (proj2 (decrypt_only_once secretSession (js "/sec/secret.bin")
                  (js "6c666b6d") secretMeta eq_refl eq_refl)).
  reflexivity.
Defined.

(** X17.  The [decrypt] effect of a puzzle clears the [encrypted] flag of
    an encrypted file and sets [decrypted], but leaves the contents as
    they are: the ciphertext stays in the file, and neither the effect
    again nor a player's [decrypt] of that file does anything further
    (the latter throws not-encrypted). *)
Theorem effect_decrypt_keeps_ciphertext (session : Session)
  (target contents : list N) (meta : Meta) :
  VFSEngine.getNode (fs session) target = Some (File contents meta) ->
  encrypted meta = true ->
  exists session',
    PuzzleEngine.executeEffect (PuzzleEngine.EDecrypt target) session
      = (Ok tt, session')
    /\ VFSEngine.getNode (fs session') target
       = Some (File contents (VFSEngine.set_decrypted meta))
    /\ PuzzleEngine.executeEffect (PuzzleEngine.EDecrypt target) session'
       = (Ok tt, session')
    /\ forall path keyText,
         VFSEngine.resolvePath (currentPath session) path = target ->
         VFSEngine.decrypt path keyText session'
         = (Throw (FileNotEncrypted path), session').
Proof.
  intros Hnode Henc.
  unfold PuzzleEngine.executeEffect, bind, get, modify, ret.
  rewrite Hnode. cbn [nodeMeta]. rewrite Henc.
  eexists. split; [reflexivity|]. cbn [fs set_fs].
  assert (Hnew : VFSEngine.getNode
    (VFSEngine.updateAt (VFSEngine.segments target)
       (VFSEngine.mapMeta VFSEngine.set_decrypted) (fs session)) target
    = Some (File contents (VFSEngine.set_decrypted meta))).
  { rewrite getNode_updateAt, Hnode. reflexivity. }
  split; [exact Hnew|]. rewrite Hnew. cbn.
  split; [reflexivity|].
  intros path keyText Hpath.
  unfold VFSEngine.decrypt, bind, get, throw. cbn [currentPath set_fs fs].
  rewrite Hpath, Hnew. reflexivity.
Qed.

Lemma effect_decrypt_keeps_ciphertext_witness :
  exists session',
    PuzzleEngine.executeEffect (PuzzleEngine.EDecrypt (js "/sec/secret.bin"))
      secretSession = (Ok tt, session')
    /\ VFSEngine.getNode (fs session') (js "/sec/secret.bin")
       = Some (File (xorEncrypt 42 (js "FLAG"))
                 (VFSEngine.set_decrypted secretMeta)).
Proof.
  destruct (effect_decrypt_keeps_ciphertext secretSession
              (js "/sec/secret.bin") (xorEncrypt 42 (js "FLAG")) secretMeta
              eq_refl eq_refl) as (session' & Hrun & Hnode & _).
  exists session'. split; [exact Hrun | exact Hnode].
Defined.

(** X18.  [decrypt] reads its key with [parseInt] while a [key:] rule of a
    puzzle compares the text: two key texts that parse to the same number
    decrypt alike, but only the text equal to the trimmed rule validates,
    so a key such as [042] decrypts the file and still fails the puzzle
    bound to it. *)
Theorem decrypt_key_lenient_puzzle_strict
  (runFunction : list N -> Session -> PuzzleEngine.Context -> option bool)
  (session : Session) (path keyText expected : list N)
  (puzzle : PuzzleEngine.Puzzle) :
  parseInt keyText 10 = parseInt expected 10 ->
  keyText <> trim expected ->
  PuzzleEngine.validate puzzle = PuzzleEngine.VString (js "key:" ++ expected) ->
  VFSEngine.decrypt path keyText session
    = VFSEngine.decrypt path expected session
  /\ (forall s,
        PuzzleEngine.validateSolution runFunction s puzzle
          {| PuzzleEngine.key := keyText; PuzzleEngine.filePath := path |}
        = false
        /\ PuzzleEngine.validateSolution runFunction s puzzle
             {| PuzzleEngine.key := trim expected;
                PuzzleEngine.filePath := path |}
           = true).
Proof.
  intros Hparse Hne Hrule. split.
  - unfold VFSEngine.decrypt. rewrite Hparse. reflexivity.
  - intros s. unfold PuzzleEngine.validateSolution. rewrite Hrule.
    change (truthy (js "key:" ++ expected)) with true. cbn [negb].
    rewrite startsWith_app. rewrite drop_app_length' by reflexivity.
    cbn [PuzzleEngine.key]. split.
    + apply bool_decide_eq_false_2, Hne.
    + apply bool_decide_eq_true_2. reflexivity.
Qed.

Lemma decrypt_key_lenient_puzzle_strict_witness :
  VFSEngine.decrypt (js "/sec/secret.bin") (js "042") secretSession
    = VFSEngine.decrypt (js "/sec/secret.bin") (js "42") secretSession
  /\ PuzzleEngine.validateSolution noFunction secretSession flagPuzzle
       {| PuzzleEngine.key := js "042";
          PuzzleEngine.filePath := js "/sec/secret.bin" |} = false.
Proof.
  destruct (decrypt_key_lenient_puzzle_strict noFunction secretSession
              (js "/sec/secret.bin") (js "042") (js "42") flagPuzzle
              eq_refl ltac:(discriminate) eq_refl) as [Hdec Hval].
  split; [exact Hdec | apply (Hval secretSession)].
Defined.

(** ** The registry of sessions *)

Lemma updateSession_Forall (Q : Session -> Prop) sid f (l : list Session) :
  Forall Q l -> (forall s, Q s -> Q (f s)) ->
  Forall Q (SessionManager.updateSession sid f l).
Proof.
  intros Hl Hf. induction Hl as [|s l Hs Htl IH]; cbn; [constructor|].
  destruct (decide (id s = sid)); constructor;
    [apply Hf, Hs | exact Htl | exact Hs | exact IH].
Qed.

Lemma updateSession_ids sid f (l : list Session) :
  (forall s, id (f s) = id s /\ userId (f s) = userId s) ->
  List.map id (SessionManager.updateSession sid f l) = List.map id l
  /\ List.map userId (SessionManager.updateSession sid f l) = List.map userId l
  /\ length (SessionManager.updateSession sid f l) = length l.
Proof.
  intros Hf. induction l as [|s l (IH1 & IH2 & IH3)]; cbn; [repeat split|].
  destruct (decide (id s = sid)); cbn.
  - destruct (Hf s) as [-> ->]. repeat split.
  - rewrite IH1, IH2, IH3. repeat split.
Qed.

Lemma getSession_fresh (l : list Session) sid :
  ~ In sid (List.map id l) -> SessionManager.getSession l sid = None.
Proof.
  induction l as [|s l IH]; intros H; [reflexivity|].
  cbn in *. destruct (decide (id s = sid)) as [E|_].
  - exfalso. apply H. left. exact E.
  - apply IH. intros Hin. apply H. right. exact Hin.
Qed.

Lemma getSession_app (l : list Session) x sid :
  SessionManager.getSession l sid = None ->
  SessionManager.getSession (l ++ [x]) sid
  = if decide (id x = sid) then Some x else None.
Proof.
  induction l as [|s l IH]; cbn; [reflexivity|].
  destruct (decide (id s = sid)); [discriminate | exact IH].
Qed.

Lemma updateSession_app (l : list Session) x sid f :
  SessionManager.getSession l sid = None ->
  SessionManager.updateSession sid f (l ++ [x])
  = l ++ [if decide (id x = sid) then f x else x].
Proof.
  induction l as [|s l IH]; cbn.
  - intros _. destruct (decide (id x = sid)); reflexivity.
  - destruct (decide (id s = sid)); [discriminate|].
    intros H. rewrite IH by exact H. reflexivity.
Qed.

Lemma getSession_updateSession (l : list Session) sid f :
  (forall s, id (f s) = id s) ->
  SessionManager.getSession (SessionManager.updateSession sid f l) sid
  = f <$> SessionManager.getSession l sid.
Proof.
  intros Hf. induction l as [|s l IH]; cbn; [reflexivity|].
  destruct (decide (id s = sid)) as [E|E]; cbn.
  - rewrite Hf. destruct (decide (id s = sid)); [reflexivity | contradiction].
  - destruct (decide (id s = sid)); [contradiction | exact IH].
Qed.

Lemma getSession_In (l : list Session) s :
  List.NoDup (List.map id l) -> In s l ->
  SessionManager.getSession l (id s) = Some s.
Proof.
  intros Hnd Hin.
  destruct (SessionManager.getSession l (id s)) as [t|] eqn:E.
  - destruct (getSession_Some _ _ _ E) as [Ht Hid].
    f_equal. eapply same_id_same_session; eauto.
  - exfalso. apply (getSession_None _ _ E s Hin). reflexivity.
Qed.

Lemma latest_In lastActivity (l : list Session) s :
  Server.latest lastActivity l = Some s -> In s l.
Proof.
  revert s. induction l as [|a l IH]; intros s; cbn; [discriminate|].
  destruct (Server.latest lastActivity l) as [best|].
  - destruct (lastActivity a <? lastActivity best).
    + intros [= <-]. right. apply IH. reflexivity.
    + intros [= <-]. left. reflexivity.
  - intros [= <-]. left. reflexivity.
Qed.

Lemma latest_None lastActivity (l : list Session) :
  Server.latest lastActivity l = None -> l = [].
Proof.
  destruct l as [|a l]; [reflexivity|]. cbn.
  destruct (Server.latest lastActivity l) as [best|]; [|discriminate].
  destruct (lastActivity a <? lastActivity best); discriminate.
Qed.

Lemma same_user_same_session (l : list Session) t t' :
  List.NoDup (List.map userId l) ->
  In t l -> In t' l -> userId t = userId t' -> t = t'.
Proof.
  induction l as [|s rest IH]; intros Hnd Ht Ht' Hid; [destruct Ht|].
  cbn in Hnd. apply List.NoDup_cons_iff in Hnd as [Hs Hnd].
  destruct Ht as [<-|Ht], Ht' as [<-|Ht'].
  - reflexivity.
  - exfalso. apply Hs. rewrite Hid. apply in_map, Ht'.
  - exfalso. apply Hs. rewrite <- Hid. apply in_map, Ht.
  - apply IH; assumption.
Qed.

Lemma NoDup_snoc {A} (l : list A) (x : A) :
  List.NoDup l -> ~ In x l -> List.NoDup (l ++ [x]).
Proof.
  intros Hl Hx. induction Hl as [|a l Ha _ IH]; cbn.
  - constructor; [intros [] | constructor].
  - constructor.
    + rewrite in_app_iff. intros [H|[H|[]]]; [exact (Ha H)|].
      apply Hx. left. symmetry. exact H.
    + apply IH. intros H. apply Hx. right. exact H.
Qed.

(** X19.  The session route keeps one live session per user: from a
    registry in which no two sessions share a user or an id, and a session
    id not yet in use, the route leaves such a registry; the id it answers
    is that of a live session of the user, and when the user already had a
    session it is that session and no session is created. *)
Theorem sessionCreate_one_session_per_user (lastActivity : Session -> Z)
  (freshId : list N) (campaignSeed : Node) (user : Z) (name : list N)
  (m : SessionManager.Manager) :
  List.NoDup (List.map userId (SessionManager.sessions m)) ->
  List.NoDup (List.map id (SessionManager.sessions m)) ->
  ~ In freshId (List.map id (SessionManager.sessions m)) ->
  exists sid m',
    Server.sessionCreate lastActivity freshId campaignSeed user name m
      = (Ok (sid, SessionManager.globalRoundStarted m), m')
    /\ List.NoDup (List.map userId (SessionManager.sessions m'))
    /\ List.NoDup (List.map id (SessionManager.sessions m'))
    /\ (exists s, SessionManager.getSession (SessionManager.sessions m') sid
                  = Some s /\ userId s = user)
    /\ (forall s, In s (SessionManager.sessions m) -> userId s = user ->
          sid = id s
          /\ length (SessionManager.sessions m')
             = length (SessionManager.sessions m)).
Proof.
  intros Husers Hids Hfresh.
  unfold Server.sessionCreate. unfold bind at 1, get at 1.
  destruct (Server.latest lastActivity
              (SessionManager.getSessionsByUser (SessionManager.sessions m) user))
    as [l|] eqn:Hlatest.
  - apply latest_In in Hlatest.
    unfold SessionManager.getSessionsByUser in Hlatest.
    apply filter_In in Hlatest as [Hin Hu]. apply bool_decide_eq_true in Hu.
    rewrite (getSession_In _ _ Hids Hin).
    assert (Hsame : forall s, In s (SessionManager.sessions m) ->
                      userId s = user -> s = l).
    { intros s Hs Hsu. eapply same_user_same_session; eauto. congruence. }
    unfold SessionManager.getGlobalRoundStatus.
    destruct (SessionManager.globalRoundStarted m) eqn:Hg;
      unfold bind, ret, Server.onSessions, modify; cbn [SessionManager.sessions].
    + destruct (updateSession_ids (id l) (SessionManager.set_round false true)
                  (SessionManager.sessions m)) as (E1 & E2 & E3);
        [intros s; split; reflexivity|].
      do 2 eexists. split; [reflexivity|]. cbn [SessionManager.sessions].
      rewrite E1, E2, E3. split; [exact Husers|]. split; [exact Hids|]. split.
      * rewrite getSession_updateSession by reflexivity.
        rewrite (getSession_In _ _ Hids Hin). cbn. eexists.
        split; [reflexivity | exact Hu].
      * intros s Hs Hsu. rewrite (Hsame s Hs Hsu). split; reflexivity.
    + do 2 eexists. split; [reflexivity|].
      split; [exact Husers|]. split; [exact Hids|]. split.
      * exists l. split; [apply getSession_In; assumption | exact Hu].
      * intros s Hs Hsu. rewrite (Hsame s Hs Hsu). split; reflexivity.
  - apply latest_None in Hlatest.
    assert (Hnone : forall s, In s (SessionManager.sessions m) ->
                      userId s <> user).
    { intros s Hs Hsu.
      assert (Hf : In s (SessionManager.getSessionsByUser
                           (SessionManager.sessions m) user)).
      { apply filter_In. split; [exact Hs|].
        apply bool_decide_eq_true. exact Hsu. }
      rewrite Hlatest in Hf. destruct Hf. }
    assert (Huser : ~ In user (List.map userId (SessionManager.sessions m))).
    { intros H. apply in_map_iff in H as (s & Hsu & Hs).
      exact (Hnone s Hs Hsu). }
    pose proof (getSession_fresh _ _ Hfresh) as Hget.
    unfold bind at 1. unfold Server.onSessions at 1.
    unfold SessionManager.createSession, bind, modify, ret.
    rewrite Hget. cbn [SessionManager.sessions id].
    unfold SessionManager.getGlobalRoundStatus.
    destruct (SessionManager.globalRoundStarted m) eqn:Hg;
      unfold Server.onSessions, modify; cbn [SessionManager.sessions].
    + rewrite updateSession_app by exact Hget. cbn [id].
      rewrite decide_True by reflexivity.
      do 2 eexists. split; [reflexivity|]. cbn [SessionManager.sessions].
      rewrite !map_app. cbn [List.map id userId SessionManager.set_round].
      split; [apply NoDup_snoc; assumption|].
      split; [apply NoDup_snoc; assumption|]. split.
      * rewrite getSession_app by exact Hget. cbn [id SessionManager.set_round].
        rewrite decide_True by reflexivity. eexists. split; reflexivity.
      * intros s Hs Hsu. exfalso. exact (Hnone s Hs Hsu).
    + do 2 eexists. split; [reflexivity|]. cbn [SessionManager.sessions].
      rewrite !map_app. cbn [List.map id userId].
      split; [apply NoDup_snoc; assumption|].
      split; [apply NoDup_snoc; assumption|]. split.
      * rewrite getSession_app by exact Hget. cbn [id].
        rewrite decide_True by reflexivity. eexists. split; reflexivity.
      * intros s Hs Hsu. exfalso. exact (Hnone s Hs Hsu).
Qed.

Lemma sessionCreate_one_session_per_user_witness :
  exists m',
    Server.sessionCreate constantActivity (js "fresh") keyTree 5 (js "eve")
      startedManager = (Ok (js "s1", true), m')
    /\ length (SessionManager.sessions m') = 2%nat.
Proof.
  assert (Hu : List.NoDup (List.map userId (SessionManager.sessions startedManager))).
  { repeat constructor; cbn; intuition discriminate. }
  assert (Hi : List.NoDup (List.map id (SessionManager.sessions startedManager))).
  { repeat constructor; cbn; intuition discriminate. }
  assert (Hf : ~ In (js "fresh")
                 (List.map id (SessionManager.sessions startedManager))).
  { cbn. intuition discriminate. }
  destruct (sessionCreate_one_session_per_user constantActivity (js "fresh")
              keyTree 5 (js "eve") startedManager Hu Hi Hf)
    as (sid & m' & Hrun & _ & _ & _ & Hreuse).
  destruct (Hreuse (SessionManager.set_round false true legacySession)
              ltac:(right; left; reflexivity) eq_refl) as [Hsid Hlen].
  exists m'. rewrite Hsid in Hrun. split; [exact Hrun | exact Hlen].
Defined.

Lemma updateSession_twice (l : list Session) x sid f :
  id x = sid ->
  SessionManager.updateSession sid f
    (SessionManager.updateSession sid (fun _ => x) l)
  = SessionManager.updateSession sid (fun _ => f x) l.
Proof.
  intros Hx. induction l as [|s l IH]; cbn; [reflexivity|].
  destruct (decide (id s = sid)) as [E|E]; cbn.
  - rewrite decide_True by exact Hx. reflexivity.
  - rewrite decide_False by exact E. rewrite IH. reflexivity.
Qed.

Lemma set_round_synced (g : bool) (l : list Session) :
  Forall (fun s => roundStarted s = g /\ waitingRoom s = negb g)
    (List.map (SessionManager.set_round (negb g) g) l).
Proof.
  induction l as [|s l IH]; cbn; constructor; [split; reflexivity | exact IH].
Qed.

(** X20.  The round flags of the sessions follow the global flag:
    [startRound] and [endRound] put every session in step with the flag
    they set and return the number of sessions, and the session route
    keeps the sessions in step, a session it creates or reuses while a
    round is on being marked as started. *)
Theorem round_flags_follow_global (lastActivity : Session -> Z)
  (freshId : list N) (campaignSeed : Node) (user : Z) (name : list N)
  (m : SessionManager.Manager) :
  (exists started,
     SessionManager.startRound m
       = (Ok (length (SessionManager.sessions m)), started)
     /\ SessionManager.globalRoundStarted started = true
     /\ roundSynced started)
  /\ (exists ended,
        SessionManager.endRound m
          = (Ok (length (SessionManager.sessions m)), ended)
        /\ SessionManager.globalRoundStarted ended = false
        /\ roundSynced ended)
  /\ (roundSynced m ->
      roundSynced
        (snd (Server.sessionCreate lastActivity freshId campaignSeed user
                name m))
      /\ SessionManager.globalRoundStarted
           (snd (Server.sessionCreate lastActivity freshId campaignSeed user
                   name m))
         = SessionManager.globalRoundStarted m).
Proof.
  split; [|split].
  - eexists. unfold SessionManager.startRound, bind, modify, get, ret.
    cbn [SessionManager.sessions SessionManager.globalRoundStarted].
    split; [rewrite length_map; reflexivity|]. split; [reflexivity|].
    unfold roundSynced. cbn. apply (set_round_synced true).
  - eexists. unfold SessionManager.endRound, bind, modify, get, ret.
    cbn [SessionManager.sessions SessionManager.globalRoundStarted].
    split; [rewrite length_map; reflexivity|]. split; [reflexivity|].
    unfold roundSynced. cbn. apply (set_round_synced false).
  - intros Hsync.
    destruct (Server.sessionCreate lastActivity freshId campaignSeed user
                name m) as [r m'] eqn:Hrun.
    cbn [snd]. unfold roundSynced in *.
    unfold Server.sessionCreate in Hrun. unfold bind at 1, get at 1 in Hrun.
    unfold SessionManager.getGlobalRoundStatus in Hrun.
    destruct (Server.latest lastActivity _) as [l|].
    + destruct (SessionManager.getSession (SessionManager.sessions m) (id l));
        [destruct (SessionManager.globalRoundStarted m) eqn:Hg|];
        unfold bind, ret, Server.onSessions, modify in Hrun; cbn in Hrun;
        injection Hrun as _ <-; cbn; rewrite ?Hg;
        (split; [|reflexivity]); try exact Hsync.
      apply updateSession_Forall; [exact Hsync|].
      intros ? _. split; reflexivity.
    + unfold bind at 1 in Hrun. unfold Server.onSessions at 1 in Hrun.
      unfold SessionManager.createSession, bind, modify, ret in Hrun.
      cbn [SessionManager.sessions id] in Hrun.
      destruct (SessionManager.getSession (SessionManager.sessions m) freshId)
        as [old|] eqn:Hget;
        destruct (SessionManager.globalRoundStarted m) eqn:Hg;
        unfold Server.onSessions, modify in Hrun; cbn in Hrun;
        injection Hrun as _ <-; cbn; rewrite ?Hg;
        (split; [|reflexivity]).
      * rewrite updateSession_twice by reflexivity.
        apply updateSession_Forall; [exact Hsync|].
        intros ? _. split; reflexivity.
      * apply updateSession_Forall; [exact Hsync|].
        intros ? _. split; reflexivity.
      * rewrite updateSession_app by exact Hget. cbn [id].
        rewrite decide_True by reflexivity.
        apply Forall_app. split; [exact Hsync|].
        constructor; [split; reflexivity | constructor].
      * apply Forall_app. split; [exact Hsync|].
        constructor; [split; reflexivity | constructor].
Qed.

Lemma round_flags_follow_global_witness :
  roundSynced
    (snd (Server.sessionCreate constantActivity (js "fresh") keyTree 7
            (js "mallory") startedManager)).
Proof.
  apply (round_flags_follow_global constantActivity (js "fresh") keyTree 7
           (js "mallory") startedManager).
  repeat constructor.
Defined.

(** X21.  The command history is a queue of at most 100 entries: logging
    a command appends it as the newest entry, and when that would make
    101 entries the oldest one is dropped, so a history of at most 100
    entries stays one. *)
Theorem logCommand_bounded (command output : list N)
  (history : list SessionManager.HistoryEntry) :
  (length history <= 100)%nat ->
  let entry := {| SessionManager.h_command := command;
                  SessionManager.h_output := output |} in
  (length (SessionManager.logCommand command output history) <= 100)%nat
  /\ last (SessionManager.logCommand command output history) = Some entry
  /\ ((length history < 100)%nat ->
      SessionManager.logCommand command output history = history ++ [entry])
  /\ ((length history = 100)%nat ->
      SessionManager.logCommand command output history
      = tail history ++ [entry]).
Proof.
  intros Hlen entry. unfold SessionManager.logCommand. fold entry.
  rewrite length_app. cbn [length].
  destruct (100 <? length history + 1)%nat eqn:E.
  - apply Nat.ltb_lt in E. assert (Hfull : length history = 100%nat) by lia.
    destruct history as [|h history]; [discriminate Hfull|].
    cbn [app tail]. rewrite length_app. cbn [length] in *.
    split; [lia|]. split; [apply last_snoc|]. split; [lia|].
    intros _. reflexivity.
  - apply Nat.ltb_ge in E. rewrite length_app. cbn [length].
    split; [lia|]. split; [apply last_snoc|]. split; [reflexivity|].
    intros H. lia.
Qed.

Lemma logCommand_bounded_witness :
  (length (SessionManager.logCommand (js "ls") (js "a")
             (repeat {| SessionManager.h_command := js "pwd";
                        SessionManager.h_output := js "/" |} 100))
   <= 100)%nat.
Proof.
  apply (logCommand_bounded (js "ls") (js "a")
           (repeat {| SessionManager.h_command := js "pwd";
                      SessionManager.h_output := js "/" |} 100)).
  rewrite repeat_length. lia.
Defined.

Lemma toString_digit d :
  1 <= d <= 4 -> toString d = [ Z.to_N (48 + d) ].
Proof.
  intros H.
  assert (d = 1 \/ d = 2 \/ d = 3 \/ d = 4) as [->|[->|[->| ->]]] by lia;
    reflexivity.
Qed.

(** X22.  The access point of a new session is decided by the remainder
    of the user id by 4: for a user id that is not negative the session
    starts in [/server_room/access_point_n] with n the remainder plus 1, its
    unlocked paths are the root, [/server_room] and that directory, and two
    users start in the same directory exactly when their ids have the same
    remainder. *)
Theorem createSession_access_point (sessionId : list N) (campaignSeed : Node)
  (user : Z) (name : list N) (sessions : list Session) :
  0 <= user ->
  let branch :=
    js "/server_room/access_point_" ++ toString (user mod 4 + 1) in
  let created :=
    {| id := sessionId; userId := user; username := name;
       fs := campaignSeed; currentPath := branch; puzzleState := ∅;
       aiState := {| level := 0; status := js "idle"; challenge := None |};
       frozen := false; waitingRoom := true; roundStarted := false;
       unlockedPaths :=
         Some (list_to_set [ js "/"; js "/server_room"; branch ]);
       sessionMeta := None |} in
  1 <= user mod 4 + 1 <= 4
  /\ fst (SessionManager.createSession sessionId campaignSeed user name
            sessions) = Ok created
  /\ (forall sessionId' name' sessions' user' created',
        0 <= user' ->
        fst (SessionManager.createSession sessionId' campaignSeed user' name'
               sessions') = Ok created' ->
        (currentPath created' = currentPath created
         <-> user' mod 4 = user mod 4)).
Proof.
  intros Huser branch created.
  pose proof (Z.mod_pos_bound user 4 ltac:(lia)) as Hm.
  split; [lia|]. split.
  - unfold SessionManager.createSession, bind, modify, ret. cbn [fst].
    rewrite Z.rem_mod_nonneg by lia. reflexivity.
  - intros sessionId' name' sessions' user' created' Hu' Hc'.
    pose proof (Z.mod_pos_bound user' 4 ltac:(lia)) as Hm'.
    unfold SessionManager.createSession, bind, modify, ret in Hc'.
    cbn [fst] in Hc'.
    apply (f_equal (fun r => match r with
                             | Ok c => currentPath c
                             | Throw _ => []
                             end)) in Hc'.
    cbn beta iota in Hc'. cbn [currentPath] in Hc'. rewrite <- Hc'.
    cbn [currentPath created]. unfold created, branch. cbn [currentPath].
    rewrite Z.rem_mod_nonneg by lia.
    rewrite !toString_digit by lia. split.
    + intros H'. apply app_inv_head in H'. injection H' as H'.
      apply (f_equal Z.of_N) in H'. rewrite !Z2N.id in H' by lia. lia.
    + intros ->. reflexivity.
Qed.

Lemma createSession_access_point_witness :
  exists created,
    fst (SessionManager.createSession (js "u") nestedTree 6 (js "zed") [])
      = Ok created
    /\ currentPath created = js "/server_room/access_point_3".
Proof.
  eexists. split.
  - apply (createSession_access_point (js "u") nestedTree 6 (js "zed") []).
    lia.
  - reflexivity.
Defined.

Lemma getSession_snoc (l : list Session) x k :
  SessionManager.getSession (l ++ [x]) k
  = match SessionManager.getSession l k with
    | Some s => Some s
    | None => if decide (id x = k) then Some x else None
    end.
Proof.
  induction l as [|s l IH]; cbn; [reflexivity|].
  destruct (decide (id s = k)); [reflexivity | exact IH].
Qed.

Lemma getSession_replace (l : list Session) x sid k :
  id x = sid ->
  SessionManager.getSession
    (SessionManager.updateSession sid (fun _ => x) l) k
  = if decide (k = sid) then
      match SessionManager.getSession l sid with
      | Some _ => Some x
      | None => None
      end
    else SessionManager.getSession l k.
Proof.
  intros Hx. induction l as [|s l IH]; cbn.
  - destruct (decide (k = sid)); reflexivity.
  - destruct (decide (id s = sid)) as [E|E]; cbn.
    + rewrite Hx. destruct (decide (k = sid)) as [->|Hk].
      * rewrite decide_True by reflexivity. reflexivity.
      * rewrite decide_False by congruence.
        rewrite decide_False by congruence. reflexivity.
    + destruct (decide (id s = k)) as [E'|E'].
      * rewrite decide_False by congruence. reflexivity.
      * exact IH.
Qed.

Lemma getSession_destroy (l : list Session) sid k :
  SessionManager.getSession
    (List.filter (fun s => negb (bool_decide (id s = sid))) l) k
  = if decide (k = sid) then None else SessionManager.getSession l k.
Proof.
  induction l as [|s l IH]; cbn.
  - destruct (decide (k = sid)); reflexivity.
  - destruct (decide (id s = sid)) as [E|E].
    + rewrite bool_decide_eq_true_2 by exact E. cbn. rewrite IH.
      destruct (decide (k = sid)); [reflexivity|].
      rewrite decide_False by congruence. reflexivity.
    + rewrite bool_decide_eq_false_2 by exact E. cbn.
      destruct (decide (id s = k)) as [E'|E'].
      * rewrite decide_False by congruence. reflexivity.
      * exact IH.
Qed.

(** X23.  A session created is found under its id, and a session
    destroyed is found no more, while the sessions under other ids stay:
    [getSession] after [createSession] gives the session created, and after
    [destroySession] of that id gives nothing for it and the same as before
    for every other id. *)
Theorem create_get_destroy (sessionId : list N) (campaignSeed : Node)
  (user : Z) (name : list N) (sessions : list Session) :
  exists created sessions',
    SessionManager.createSession sessionId campaignSeed user name sessions
      = (Ok created, sessions')
    /\ id created = sessionId
    /\ SessionManager.getSession sessions' sessionId = Some created
    /\ (forall other, other <> sessionId ->
          SessionManager.getSession sessions' other
          = SessionManager.getSession sessions other)
    /\ SessionManager.getSession
         (snd (SessionManager.destroySession sessionId sessions')) sessionId
       = None
    /\ (forall other, other <> sessionId ->
          SessionManager.getSession
            (snd (SessionManager.destroySession sessionId sessions')) other
          = SessionManager.getSession sessions other).
Proof.
  unfold SessionManager.createSession, SessionManager.destroySession,
    bind, modify, ret.
  do 2 eexists. split; [reflexivity|]. split; [reflexivity|]. cbn [snd].
  destruct (SessionManager.getSession sessions sessionId) as [old|] eqn:Hget.
  - split; [|split; [|split]].
    + rewrite getSession_replace by reflexivity.
      rewrite decide_True by reflexivity. rewrite Hget. reflexivity.
    + intros other Hne. rewrite getSession_replace by reflexivity.
      rewrite decide_False by exact Hne. reflexivity.
    + rewrite getSession_destroy, decide_True by reflexivity. reflexivity.
    + intros other Hne. rewrite getSession_destroy, decide_False by exact Hne.
      rewrite getSession_replace by reflexivity.
      rewrite decide_False by exact Hne. reflexivity.
  - split; [|split; [|split]].
    + rewrite getSession_snoc, Hget. cbn [id].
      rewrite decide_True by reflexivity. reflexivity.
    + intros other Hne. rewrite getSession_snoc. cbn [id].
      rewrite decide_False by congruence.
      destruct (SessionManager.getSession sessions other); reflexivity.
    + rewrite getSession_destroy, decide_True by reflexivity. reflexivity.
    + intros other Hne. rewrite getSession_destroy, decide_False by exact Hne.
      rewrite getSession_snoc. cbn [id]. rewrite decide_False by congruence.
      destruct (SessionManager.getSession sessions other); reflexivity.
Qed.
(** ** The command line *)

Lemma setOption_keeps key value opts k :
  is_Some (opts !! k) ->
  is_Some (CommandParser.setOption key value opts !! k).
Proof.
  intros Hk. unfold CommandParser.setOption.
  destruct (decide (key = js "__proto__")); [exact Hk|].
  destruct (decide (key = k)) as [->|Hne].
  - rewrite lookup_insert_eq. eexists. reflexivity.
  - rewrite lookup_insert_ne by exact Hne. exact Hk.
Qed.

Lemma setOption_stores key value opts :
  key <> js "__proto__" ->
  is_Some (CommandParser.setOption key value opts !! key).
Proof.
  intros Hne. unfold CommandParser.setOption.
  rewrite decide_False by exact Hne.
  rewrite lookup_insert_eq. eexists. reflexivity.
Qed.

Lemma setOption_proto key value opts :
  opts !! js "__proto__" = None ->
  CommandParser.setOption key value opts !! js "__proto__" = None.
Proof.
  intros Hp. unfold CommandParser.setOption.
  destruct (decide (key = js "__proto__")) as [|Hne]; [exact Hp|].
  rewrite lookup_insert_ne by exact Hne. exact Hp.
Qed.

Lemma parseOptions_spec (n : nat) : forall tokens opts,
  (length tokens <= n)%nat ->
  Forall (fun a => startsWith a (js "--") = false)
    (fst (CommandParser.parseOptions opts tokens))
  /\ sublist (fst (CommandParser.parseOptions opts tokens)) tokens
  /\ (forall k, is_Some (opts !! k) ->
        is_Some (snd (CommandParser.parseOptions opts tokens) !! k))
  /\ (forall t, In t tokens -> startsWith t (js "--") = true ->
        drop 2 t <> js "__proto__" ->
        is_Some (snd (CommandParser.parseOptions opts tokens) !! drop 2 t))
  /\ (opts !! js "__proto__" = None ->
      snd (CommandParser.parseOptions opts tokens) !! js "__proto__" = None).
Proof.
  induction n as [|n IH]; intros tokens opts Hlen.
  - destruct tokens; [|cbn in Hlen; lia]. cbn.
    split; [constructor|]. split; [constructor|].
    split; [intros k H; exact H|]. split; [intros t []|].
    intros H; exact H.
  - destruct tokens as [|token rest];
      [cbn; split; [constructor|]; split; [constructor|];
       split; [intros k H; exact H|]; split; [intros t []|];
       intros H; exact H|].
    cbn [length] in Hlen. cbn [CommandParser.parseOptions].
    destruct (startsWith token (js "--")) eqn:Hdash.
    + assert (Hstep : forall value tokens1,
                (length tokens1 <= n)%nat ->
                sublist tokens1 rest ->
                (forall t, In t rest -> startsWith t (js "--") = true ->
                   In t tokens1) ->
                let opts1 :=
                  CommandParser.setOption (drop 2 token) value opts in
                Forall (fun a => startsWith a (js "--") = false)
                  (fst (CommandParser.parseOptions opts1 tokens1))
                /\ sublist (fst (CommandParser.parseOptions opts1 tokens1))
                     (token :: rest)
                /\ (forall k, is_Some (opts !! k) ->
                      is_Some (snd (CommandParser.parseOptions opts1 tokens1)
                               !! k))
                /\ (forall t, In t (token :: rest) ->
                      startsWith t (js "--") = true ->
                      drop 2 t <> js "__proto__" ->
                      is_Some (snd (CommandParser.parseOptions opts1 tokens1)
                               !! drop 2 t))
                /\ (opts !! js "__proto__" = None ->
                    snd (CommandParser.parseOptions opts1 tokens1)
                      !! js "__proto__" = None)).
      { intros value tokens1 Hl Hsub Hkeep opts1.
        destruct (IH tokens1 opts1 Hl) as (H1 & H2 & H3 & H4 & H5).
        split; [exact H1|]. split.
        - apply sublist_cons. etransitivity; [exact H2 | exact Hsub].
        - split; [|split].
          + intros k Hk. apply H3, setOption_keeps, Hk.
          + intros t [<-|Ht] Hd Hp.
            * apply H3, setOption_stores, Hp.
            * apply H4; [apply Hkeep; assumption | exact Hd | exact Hp].
          + intros Hp. apply H5, setOption_proto, Hp. }
      destruct rest as [|value rest'].
      * apply (Hstep CommandParser.OTrue); [cbn; lia | constructor |].
        intros t [].
      * destruct (truthy value && negb (startsWith value (js "--"))) eqn:Hv.
        -- apply (Hstep (CommandParser.OText value));
             [cbn [length] in Hlen; lia | apply sublist_cons; reflexivity |].
           intros t [<-|Ht] Hd; [|exact Ht].
           apply andb_prop in Hv as [_ Hv]. rewrite Hd in Hv. discriminate Hv.
        -- apply (Hstep CommandParser.OTrue);
             [cbn [length] in Hlen |- *; lia | reflexivity |].
           intros t Ht _. exact Ht.
    + destruct (IH rest opts ltac:(lia)) as (H1 & H2 & H3 & H4 & H5).
      destruct (CommandParser.parseOptions opts rest) as [kept opts'] eqn:E.
      cbn [fst snd] in *.
      split; [constructor; assumption|].
      split; [apply sublist_skip, H2|]. split; [exact H3|].
      split; [|exact H5].
      intros t [<-|Ht] Hd; [congruence | apply H4; assumption].
Qed.

(** X24.  [parse] answers [null] for a blank line and an object for every
    other line.  The raw text of the object is the trimmed line and its
    command the first token in lower case; its arguments are tokens of the
    line in their order, none of them an option (no argument starts with
    [--]); every token that starts with [--] has its name among the
    options, except the name [__proto__], under which nothing is ever
    stored. *)
Theorem parse_separates_options (toLowerCase : list N -> list N)
  (cmd : list N) :
  (trim cmd = [] -> CommandParser.parse toLowerCase cmd = None)
  /\ (trim cmd <> [] ->
      exists parsed, CommandParser.parse toLowerCase cmd = Some parsed)
  /\ (forall parsed,
        CommandParser.parse toLowerCase cmd = Some parsed ->
        let tokens := CommandParser.splitWhiteSpace false (trim cmd) in
        CommandParser.raw parsed = trim cmd
        /\ CommandParser.command parsed
           = toLowerCase (default [] (head tokens))
        /\ sublist (CommandParser.args parsed) (tail tokens)
        /\ Forall (fun a => startsWith a (js "--") = false)
             (CommandParser.args parsed)
        /\ (forall t, In t (tail tokens) -> startsWith t (js "--") = true ->
              drop 2 t <> js "__proto__" ->
              is_Some (CommandParser.options parsed !! drop 2 t))
        /\ CommandParser.options parsed !! js "__proto__" = None).
Proof.
  split; [|split].
  - unfold CommandParser.parse. intros ->. reflexivity.
  - intros Hne. unfold CommandParser.parse.
    destruct (trim cmd) as [|c rest] eqn:E; [contradiction|]. cbn [truthy negb].
    destruct (CommandParser.parseOptions ∅
                (tail (CommandParser.splitWhiteSpace false (c :: rest))))
      as [kept opts].
    eexists. reflexivity.
  - intros parsed Hp tokens. unfold CommandParser.parse in Hp.
    destruct (truthy (trim cmd)); [|discriminate Hp]. cbn [negb] in Hp.
    fold tokens in Hp.
    destruct (parseOptions_spec (length (tail tokens)) (tail tokens) ∅
                ltac:(lia)) as (H1 & H2 & _ & H4 & H5).
    destruct (CommandParser.parseOptions ∅ (tail tokens)) as [kept opts].
    injection Hp as <-. cbn [fst snd] in *. cbn.
    split; [reflexivity|]. split; [reflexivity|].
    split; [exact H2|]. split; [exact H1|]. split; [exact H4|].
    apply H5, lookup_empty.
Qed.

Lemma parse_separates_options_witness :
  exists parsed,
    CommandParser.parse (fun s => s)
      (js "  decrypt --key 42 secret.bin --__proto__ x --force ")
      = Some parsed
    /\ CommandParser.args parsed = [ js "secret.bin" ]
    /\ CommandParser.options parsed !! js "key"
       = Some (CommandParser.OText (js "42"))
    /\ CommandParser.options parsed !! js "force" = Some CommandParser.OTrue
    /\ CommandParser.options parsed !! js "__proto__" = None.
Proof.
  destruct (proj1 (proj2 (parse_separates_options (fun s => s)
              (js "  decrypt --key 42 secret.bin --__proto__ x --force ")))
              ltac:(vm_compute; discriminate)) as (parsed & Hp).
  exists parsed. split; [exact Hp|].
  pose proof (proj2 (proj2 (parse_separates_options (fun s => s)
              (js "  decrypt --key 42 secret.bin --__proto__ x --force ")))
              parsed Hp) as (_ & _ & _ & _ & _ & Hproto).
  assert (Hrun : CommandParser.parse (fun s => s)
            (js "  decrypt --key 42 secret.bin --__proto__ x --force ")
          = Some {| CommandParser.command := js "decrypt";
                    CommandParser.args := [ js "secret.bin" ];
                    CommandParser.options :=
                      CommandParser.setOption (js "force") CommandParser.OTrue
                        (CommandParser.setOption (js "key")
                           (CommandParser.OText (js "42")) ∅);
                    CommandParser.raw :=
                      js "decrypt --key 42 secret.bin --__proto__ x --force" |}).
  { vm_compute. reflexivity. }
  rewrite Hrun in Hp. injection Hp as <-.
  split; [reflexivity|]. split; [vm_compute; reflexivity|].
  split; [vm_compute; reflexivity | exact Hproto].
Defined.

(** X25.  [history] shows the last [limit] entries for a positive limit;
    a limit of 0, or one that is not a number, shows the whole history,
    and a negative limit drops that many of the oldest entries.  An empty
    selection is reported as no history. *)
Theorem history_limit_edges
  (commandHistory : list SessionManager.HistoryEntry) :
  CommandParser.sliceLast (Some 0) commandHistory = commandHistory
  /\ CommandParser.sliceLast None commandHistory = commandHistory
  /\ (forall n, 0 < n ->
        CommandParser.sliceLast (Some n) commandHistory
        = drop (length commandHistory - Z.to_nat n) commandHistory)
  /\ (forall n, n < 0 ->
        CommandParser.sliceLast (Some n) commandHistory
        = drop (Z.to_nat (- n)) commandHistory)
  /\ (forall n, Z.of_nat (length commandHistory) <= n ->
        CommandParser.sliceLast (Some n) commandHistory = commandHistory)
  /\ (forall limit, CommandParser.history [] limit = js "No command history.").
Proof.
  unfold CommandParser.sliceLast.
  assert (Hzero : drop (Z.to_nat
                          (if - 0 <? 0
                           then Z.max (Z.of_nat (length commandHistory) + - 0) 0
                           else Z.min (- 0) (Z.of_nat (length commandHistory))))
                    commandHistory = commandHistory).
  { change (- 0 <? 0) with false. cbv iota. rewrite Z.min_l by lia.
    reflexivity. }
  split; [exact Hzero|]. split; [reflexivity|].
  split; [|split; [|split]].
  - intros n Hn. rewrite (proj2 (Z.ltb_lt (- n) 0)) by lia.
    f_equal. lia.
  - intros n Hn. rewrite (proj2 (Z.ltb_ge (- n) 0)) by lia.
    destruct (Z.le_gt_cases (- n) (Z.of_nat (length commandHistory))) as [H|H].
    + rewrite Z.min_l by lia. reflexivity.
    + rewrite Z.min_r by lia. rewrite Nat2Z.id.
      rewrite !drop_ge by lia. reflexivity.
  - intros n Hn. destruct (Z.eq_dec n 0) as [->|Hz]; [exact Hzero|].
    rewrite (proj2 (Z.ltb_lt (- n) 0)) by lia.
    rewrite Z.max_r by lia. reflexivity.
  - intros [n|]; [|reflexivity]. unfold CommandParser.history.
    unfold CommandParser.sliceLast. rewrite drop_nil. reflexivity.
Qed.

(** ** Locks, paths and triggers, continued *)

(** X26.  Locking and unlocking a file are inverse for reading: once
    [setLock] has locked a file whose path passes the unlock test,
    [readFile] throws permission-denied, and once [setLock] has unlocked it
    again [readFile] returns the contents the file had. *)
Theorem setLock_then_unlock_restores_read (session : Session)
  (path contents : list N) (meta : Meta) :
  let resolved := VFSEngine.resolvePath (currentPath session) path in
  VFSEngine.getNode (fs session) resolved = Some (File contents meta) ->
  VFSEngine.isPathUnlocked session resolved = true ->
  exists lockedSession unlockedSession,
    VFSEngine.setLock path true session = (Ok (resolved, true), lockedSession)
    /\ VFSEngine.readFile lockedSession path = Throw (PermissionDenied path)
    /\ VFSEngine.setLock path false lockedSession
       = (Ok (resolved, false), unlockedSession)
    /\ VFSEngine.readFile unlockedSession path
       = Ok (contents, VFSEngine.set_locked false meta).
Proof.
  intros resolved Hnode Hunl.
  unfold VFSEngine.setLock at 1. unfold bind, get, modify, ret.
  fold resolved. rewrite Hnode.
  set (lockedSession := set_fs (VFSEngine.updateAt (VFSEngine.segments resolved)
                          (VFSEngine.mapMeta (VFSEngine.set_locked true)))
                          session).
  assert (Hlocked : VFSEngine.getNode (fs lockedSession) resolved
                    = Some (File contents (VFSEngine.set_locked true meta))).
  { unfold lockedSession. cbn [fs set_fs].
    rewrite getNode_updateAt, Hnode. reflexivity. }
  set (unlockedSession :=
         set_fs (VFSEngine.updateAt (VFSEngine.segments resolved)
                   (VFSEngine.mapMeta (VFSEngine.set_locked false)))
           lockedSession).
  assert (Hunlocked : VFSEngine.getNode (fs unlockedSession) resolved
                      = Some (File contents (VFSEngine.set_locked false meta))).
  { unfold unlockedSession. cbn [fs set_fs].
    rewrite getNode_updateAt, Hlocked. reflexivity. }
  exists lockedSession, unlockedSession.
  split; [reflexivity|]. split; [|split].
  - unfold VFSEngine.readFile.
    change (currentPath lockedSession) with (currentPath session).
    fold resolved. rewrite Hlocked. reflexivity.
  - unfold VFSEngine.setLock, bind, get, modify, ret.
    change (currentPath lockedSession) with (currentPath session).
    fold resolved. rewrite Hlocked. reflexivity.
  - unfold VFSEngine.readFile.
    change (currentPath unlockedSession) with (currentPath session).
    fold resolved. rewrite Hunlocked. cbn [locked VFSEngine.set_locked].
    change (VFSEngine.isPathUnlocked unlockedSession resolved)
      with (VFSEngine.isPathUnlocked session resolved).
    rewrite Hunl. reflexivity.
Qed.

Lemma setLock_then_unlock_restores_read_witness :
  exists lockedSession unlockedSession,
    VFSEngine.setLock (js "/sec/secret.bin") true secretSession
      = (Ok (js "/sec/secret.bin", true), lockedSession)
    /\ VFSEngine.readFile lockedSession (js "/sec/secret.bin")
       = Throw (PermissionDenied (js "/sec/secret.bin"))
    /\ VFSEngine.setLock (js "/sec/secret.bin") false lockedSession
       = (Ok (js "/sec/secret.bin", false), unlockedSession)
    /\ VFSEngine.readFile unlockedSession (js "/sec/secret.bin")
       = Ok (xorEncrypt 42 (js "FLAG"), VFSEngine.set_locked false secretMeta).
Proof.
  apply (setLock_then_unlock_restores_read secretSession
           (js "/sec/secret.bin") (xorEncrypt 42 (js "FLAG")) secretMeta
           eq_refl).
  vm_compute. reflexivity.
Defined.

(** X27.  [checkDecrypt] compares the trigger path with the path text it
    is given, not with the path it resolves to: when no puzzle has a
    [decrypt] trigger whose path equals that text, nothing is validated and
    no effect runs, whatever file the text resolves to. *)
Theorem checkDecrypt_needs_exact_path
  (runFunction : list N -> Session -> PuzzleEngine.Context -> option bool)
  (puzzles : list PuzzleEngine.Puzzle) (filePath keyText : list N)
  (session : Session) :
  Forall (fun p => triggered (js "decrypt") filePath p = false) puzzles ->
  PuzzleEngine.checkDecrypt runFunction puzzles filePath keyText session
  = (Ok tt, session).
Proof.
  intros Hall. unfold PuzzleEngine.checkDecrypt. apply forEach_noop.
  intros p Hp. rewrite Forall_forall in Hall.
  pose proof (Hall p (proj2 (list_elem_of_In _ _) Hp)) as Hnone.
  destruct (PuzzleEngine.solved p); [reflexivity|].
  apply forEach_noop. intros t Ht. unfold triggered in Hnone.
  destruct (bool_decide (PuzzleEngine.t_type t = js "decrypt")
            && bool_decide (PuzzleEngine.t_path t = filePath)) eqn:E;
    [|reflexivity].
  assert (Hex : existsb
            (fun t => bool_decide (PuzzleEngine.t_type t = js "decrypt")
                      && bool_decide (PuzzleEngine.t_path t = filePath))
            (PuzzleEngine.triggers p) = true).
  { apply existsb_exists. exists t. split; [exact Ht | exact E]. }
  congruence.
Qed.

Lemma checkDecrypt_needs_exact_path_witness :
  VFSEngine.resolvePath (js "/sec") (js "secret.bin") = js "/sec/secret.bin"
  /\ PuzzleEngine.checkDecrypt noFunction [ flagPuzzle ] (js "secret.bin")
       (js "42") (set_currentPath (js "/sec") secretSession)
     = (Ok tt, set_currentPath (js "/sec") secretSession).
Proof.
  split; [reflexivity|].
  apply (checkDecrypt_needs_exact_path noFunction [ flagPuzzle ]
           (js "secret.bin") (js "42")).
  repeat constructor.
Defined.

(** X28.  Resolving is idempotent from an absolute current path: the path
    [resolvePath] returns is absolute, and resolving it again gives it
    back. *)
Theorem resolvePath_idempotent (currentPath targetPath : list N) :
  startsWith currentPath (js "/") = true ->
  startsWith (VFSEngine.resolvePath currentPath targetPath) (js "/") = true
  /\ VFSEngine.resolvePath currentPath
       (VFSEngine.resolvePath currentPath targetPath)
     = VFSEngine.resolvePath currentPath targetPath.
Proof.
  intros Hcur.
  pose proof (resolvePath_absolute currentPath targetPath Hcur) as Habs.
  split; [exact Habs|].
  destruct (VFSEngine.resolvePath currentPath targetPath) as [|c r] eqn:E;
    [discriminate Habs|].
  unfold VFSEngine.resolvePath at 1. cbn [truthy negb]. rewrite Habs.
  reflexivity.
Qed.

Lemma resolvePath_idempotent_witness :
  VFSEngine.resolvePath (js "/a/b")
    (VFSEngine.resolvePath (js "/a/b") (js "../c/./d"))
  = VFSEngine.resolvePath (js "/a/b") (js "../c/./d").
Proof.
  apply (resolvePath_idempotent (js "/a/b") (js "../c/./d")). reflexivity.
Defined.

(** X29.  A [suspicious_command] event always leaves the idle status:
    from [idle] or [probing] the status afterwards is [alarm] when the new
    level is 5 or more and [probing] below, and the new level is the old
    one plus 2, capped at 10. *)
Theorem suspicious_command_escalates (rnd : Z) (st : AIState) :
  status st = js "idle" \/ status st = js "probing" ->
  let st' := snd (AIEngine.trigger rnd (js "suspicious_command") st) in
  level st' = Math_min (level st + 2)%num 10
  /\ status st' = (if (5 <=? level st')%num then js "alarm"
                   else js "probing").
Proof.
  intros Hst st'. subst st'. unfold AIEngine.trigger.
  rewrite decide_True by reflexivity.
  unfold bind, modify, get, ret. cbn.
  destruct (level st) as [|l] eqn:El; cbn.
  { destruct (decide (status st = js "idle")) as [Hidle|Hidle]; cbn.
    - rewrite ?El. split; reflexivity.
    - destruct Hst as [Hst|Hst]; [contradiction|].
      rewrite ?El. split; [reflexivity | exact Hst]. }
  destruct (decide (status st = js "idle")) as [Hidle|Hidle]; cbn.
  - destruct (10 <=? Z.min (l + 2) 10) eqn:E10; cbn.
    + split; [reflexivity|].
      apply Z.leb_le in E10. rewrite (proj2 (Z.leb_le 5 _)) by lia.
      reflexivity.
    + rewrite (bool_decide_eq_true_2 (js "probing" = js "probing"))
        by reflexivity.
      destruct (5 <=? Z.min (l + 2) 10) eqn:E5; cbn; rewrite ?E5;
        split; reflexivity.
  - destruct Hst as [Hst|Hst]; [contradiction|].
    destruct (10 <=? Z.min (l + 2) 10) eqn:E10; cbn.
    + split; [reflexivity|].
      apply Z.leb_le in E10. rewrite (proj2 (Z.leb_le 5 _)) by lia.
      reflexivity.
    + rewrite Hst. rewrite bool_decide_eq_true_2 by reflexivity.
      destruct (5 <=? Z.min (l + 2) 10) eqn:E5; cbn; rewrite ?E5;
        split; try reflexivity. exact Hst.
Qed.

Lemma suspicious_command_escalates_witness :
  status (snd (AIEngine.trigger 4 (js "suspicious_command")
                 {| level := 3; status := js "idle"; challenge := None |}))
  = js "alarm".
Proof.
  apply (suspicious_command_escalates 4
           {| level := 3; status := js "idle"; challenge := None |}).
  left. reflexivity.
Defined.
